(** * mcp-google-vertex: the Vertex AI generation service

    A shallow embedding of [GoogleGenAIService] (google-genai.ts): the two
    option validators, the image path [generateImage] and the video path
    [generateVideo] with its polling loop, followed by the properties of
    the specification that concern them.

    Conventions of the embedding.
    - A JavaScript string is the list of its UTF-16 code units, so that
      [length] is the [.length] of the source and [trim] can follow the
      ECMAScript white space table.
    - A JavaScript [number] is a finite value, an infinity or NaN.  Only
      [<] and [>] are applied to numbers by the service, and both are exact
      on doubles, so the finite values are taken in [Q] (a superset of the
      doubles).
    - [throw], [try]/[catch], the console, the clock and the three provider
      calls are effects of a small monad over an explicit world.  The clock
      moves while the call is suspended (on a timer or on the network) and
      stands still in between; what the provider answers and how long each
      suspension lasts are given by the [Runtime] of the run.
    - The [while] loop of [generateVideo] takes fuel; with timers that do
      not fire early it ends within 41 re-entries
      ([generateVideo_terminates]). *)

From Stdlib Require Import ZArith QArith List String Ascii Bool Lia.
Import ListNotations.

Local Open Scope Z_scope.

(* ================================================================== *)
(** ** JavaScript values *)

Module JS.

(** Strings, as sequences of UTF-16 code units. *)
Definition jsstring := list N.

(** A source literal (all literals of the service are ASCII). *)
Definition lit (s : string) : jsstring :=
  map N_of_ascii (list_ascii_of_string s).

Definition string_eqb (a b : jsstring) : bool :=
  if list_eq_dec N.eq_dec a b then true else false.

(** ECMAScript WhiteSpace and LineTerminator code points: what
    [String.prototype.trim] strips. *)
Definition isWhiteSpace (c : N) : bool :=
  ((c =? 0x09) || (c =? 0x0A) || (c =? 0x0B) || (c =? 0x0C) || (c =? 0x0D)
   || (c =? 0x20) || (c =? 0xA0) || (c =? 0x1680)
   || ((0x2000 <=? c) && (c <=? 0x200A))
   || (c =? 0x2028) || (c =? 0x2029) || (c =? 0x202F) || (c =? 0x205F)
   || (c =? 0x3000) || (c =? 0xFEFF))%N.

Fixpoint trimStart (s : jsstring) : jsstring :=
  match s with
  | c :: s' => if isWhiteSpace c then trimStart s' else s
  | [] => []
  end.

Definition trimEnd (s : jsstring) : jsstring := rev (trimStart (rev s)).

Definition trim (s : jsstring) : jsstring := trimEnd (trimStart s).

(** [Array.prototype.join] on an array of strings. *)
Fixpoint join (sep : jsstring) (l : list jsstring) : jsstring :=
  match l with
  | [] => []
  | [x] => x
  | x :: rest => x ++ sep ++ join sep rest
  end.

(** [Array.prototype.includes] on an array of strings. *)
Definition includes (l : list jsstring) (x : jsstring) : bool :=
  existsb (string_eqb x) l.

(** Truthiness of an optional string: [undefined] and the empty string
    are falsy.  (An optional object is truthy exactly when present, so
    the tests on [operation.error], [operation.metadata], [imageData] and
    [videoData] are matches on the option.) *)
Definition truthy_string (s : option jsstring) : bool :=
  match s with
  | Some (_ :: _) => true
  | _ => false
  end.

(** Truthiness of an optional boolean. *)
Definition truthy_bool (b : option bool) : bool :=
  match b with
  | Some true => true
  | _ => false
  end.

(** Numbers. *)
Inductive number : Type :=
| Finite (q : Q)
| PosInfinity
| NegInfinity
| NaN.

Definition num (z : Z) : number := Finite (inject_Z z).

(** [a < b]: false as soon as one side is NaN. *)
Definition lt (a b : number) : bool :=
  match a, b with
  | NaN, _ | _, NaN => false
  | Finite p, Finite q => negb (Qle_bool q p)
  | NegInfinity, NegInfinity => false
  | NegInfinity, _ => true
  | Finite _, PosInfinity => true
  | _, _ => false
  end.

(** [a > b]. *)
Definition gt (a b : number) : bool := lt b a.

(** A destructuring default [{ x = d } = options]: it applies to
    [undefined] only. *)
Definition withDefault {A : Type} (d : A) (x : option A) : A :=
  match x with
  | Some v => v
  | None => d
  end.

(** What a [throw] carries: an [Error] with its message, or any other
    value (the provider's client may reject with one). *)
Inductive thrown : Type :=
| JsError (message : jsstring)
| NonError.

(** JSON values (operation errors and metadata are objects of them). *)
#[local] Unset Elimination Schemes.
Inductive Json : Type :=
| JNull
| JBool (b : bool)
| JNumber (n : number)
| JString (s : jsstring)
| JArray (items : list Json)
| JObject (fields : list (jsstring * Json)).
#[local] Set Elimination Schemes.

(** A value of type [Record<string, unknown>]: an object, hence truthy
    whatever its fields. *)
Definition JsObject := list (jsstring * Json).

(** A Node [Buffer]. *)
Definition Buffer := list Byte.byte.

End JS.

Import JS.

Declare Scope js_scope.
Delimit Scope js_scope with js.
Notation "a <. b" := (JS.lt a b) (at level 70, no associativity) : js_scope.
Notation "a >. b" := (JS.gt a b) (at level 70, no associativity) : js_scope.

(* ================================================================== *)
(** ** The option records *)

(** [interface ImageGenerationOptions]; [GenerateImagesConfig] is built by
    [generateImage] with exactly these sixteen fields. *)
Module ImageGenerationOptions.
Record t : Type := {
  aspectRatio : option jsstring;
  numberOfImages : option number;
  negativePrompt : option jsstring;
  language : option jsstring;
  guidanceScale : option number;
  seed : option number;
  safetyFilterLevel : option jsstring;
  personGeneration : option jsstring;
  includeSafetyAttributes : option bool;
  includeRaiReason : option bool;
  outputMimeType : option jsstring;
  outputCompressionQuality : option number;
  addWatermark : option bool;
  imageSize : option jsstring;
  enhancePrompt : option bool;
  outputGcsUri : option jsstring
}.

(** [{}], the default argument. *)
Definition empty : t :=
  Build_t None None None None None None None None
          None None None None None None None None.
End ImageGenerationOptions.

(** [Image] of the provider's client library. *)
Record Image : Type := {
  gcsUri : option jsstring;
  imageBytes : option jsstring;
  image_mimeType : option jsstring
}.

Record VideoGenerationReferenceImage : Type := {
  ref_image : option Image;
  referenceType : option jsstring
}.

(** [interface VideoGenerationOptions]; [GenerateVideosConfig] is built by
    [generateVideo] with exactly these fourteen fields. *)
Module VideoGenerationOptions.
Record t : Type := {
  numberOfVideos : option number;
  durationSeconds : option number;
  aspectRatio : option jsstring;
  resolution : option jsstring;
  fps : option number;
  seed : option number;
  negativePrompt : option jsstring;
  enhancePrompt : option bool;
  generateAudio : option bool;
  personGeneration : option jsstring;
  compressionQuality : option jsstring;
  outputGcsUri : option jsstring;
  lastFrame : option Image;
  referenceImages : option (list VideoGenerationReferenceImage)
}.

Definition empty : t :=
  Build_t None None None None None None None
          None None None None None None None.
End VideoGenerationOptions.

(* ================================================================== *)
(** ** The validators *)

Definition Error (msg : string) : thrown := JsError (lit msg).

(** [validateImageOptions]: [inl] is the error thrown, [inr tt] a normal
    return. *)
Definition validateImageOptions (options : ImageGenerationOptions.t)
  : thrown + unit :=
  let numberOfImages :=
    withDefault (num 1) (ImageGenerationOptions.numberOfImages options) in
  let guidanceScale := ImageGenerationOptions.guidanceScale options in
  let outputCompressionQuality :=
    withDefault (num 85)
      (ImageGenerationOptions.outputCompressionQuality options) in
  let aspectRatio :=
    withDefault (lit "1:1") (ImageGenerationOptions.aspectRatio options) in
  let outputMimeType :=
    withDefault (lit "image/jpeg")
      (ImageGenerationOptions.outputMimeType options) in
  if ((numberOfImages <. num 1) || (numberOfImages >. num 8))%js then
    inl (Error "numberOfImages must be between 1 and 8")
  else if match guidanceScale with
          | Some g => ((g <. num 1) || (g >. num 20))%js
          | None => false
          end then
    inl (Error "guidanceScale must be between 1 and 20")
  else if ((outputCompressionQuality <. num 1)
           || (outputCompressionQuality >. num 100))%js then
    inl (Error "outputCompressionQuality must be between 1 and 100")
  else
    let validAspectRatios :=
      [lit "1:1"; lit "3:4"; lit "4:3"; lit "9:16"; lit "16:9"] in
    if negb (includes validAspectRatios aspectRatio) then
      inl (JsError (lit "aspectRatio must be one of: "
                    ++ join (lit ", ") validAspectRatios))
    else
      let validMimeTypes := [lit "image/jpeg"; lit "image/png"] in
      if negb (includes validMimeTypes outputMimeType) then
        inl (JsError (lit "outputMimeType must be one of: "
                      ++ join (lit ", ") validMimeTypes))
      else inr tt.

(** [validateVideoOptions]. *)
Definition validateVideoOptions (options : VideoGenerationOptions.t)
  : thrown + unit :=
  let numberOfVideos :=
    withDefault (num 1) (VideoGenerationOptions.numberOfVideos options) in
  let durationSeconds :=
    withDefault (num 5) (VideoGenerationOptions.durationSeconds options) in
  let fps := VideoGenerationOptions.fps options in
  let aspectRatio :=
    withDefault (lit "16:9") (VideoGenerationOptions.aspectRatio options) in
  let resolution :=
    withDefault (lit "720p") (VideoGenerationOptions.resolution options) in
  if ((numberOfVideos <. num 1) || (numberOfVideos >. num 4))%js then
    inl (Error "numberOfVideos must be between 1 and 4")
  else if ((durationSeconds <. num 2) || (durationSeconds >. num 10))%js then
    inl (Error "durationSeconds must be between 2 and 10")
  else if match fps with
          | Some f => ((f <. num 8) || (f >. num 30))%js
          | None => false
          end then
    inl (Error "fps must be between 8 and 30")
  else
    let validAspectRatios := [lit "16:9"; lit "9:16"] in
    if negb (includes validAspectRatios aspectRatio) then
      inl (JsError (lit "aspectRatio must be one of: "
                    ++ join (lit ", ") validAspectRatios))
    else
      let validResolutions := [lit "720p"; lit "1080p"] in
      if negb (includes validResolutions resolution) then
        inl (JsError (lit "resolution must be one of: "
                      ++ join (lit ", ") validResolutions))
      else inr tt.


(* ================================================================== *)
(** ** What the provider returns *)

Record GeneratedImage : Type := {
  image : option Image
}.

Record GenerateImagesResponse : Type := {
  generatedImages : option (list GeneratedImage)
}.

Record Video : Type := {
  uri : option jsstring;
  videoBytes : option jsstring;
  video_mimeType : option jsstring
}.

Record GeneratedVideo : Type := {
  video : option Video
}.

Record GenerateVideosResponse : Type := {
  generatedVideos : option (list GeneratedVideo)
}.

(** [GenerateVideosOperation]: the snapshot that [generateVideo] keeps in
    its variable [operation] and replaces at each refresh. *)
Record GenerateVideosOperation : Type := {
  name : option jsstring;
  metadata : option JsObject;
  done : option bool;
  error : option JsObject;
  response : option GenerateVideosResponse
}.

(* ================================================================== *)
(** ** The world around one call *)

(** What the service writes to the console. *)
Inductive ConsoleLine : Type :=
| LogVideoStarted (numberOfVideos : number)
| LogProgress (metadata : JsObject)
| LogGenerated (count : nat)
| WarnImageNoData
| WarnImageNoBytes
| WarnVideoNoData
| WarnVideoNoBytes
| ErrorUriFound (uri : jsstring).

(** The observable events of a call, each network call and each timer
    with the clock value at which it was started. *)
Inductive Event : Type :=
| CallGenerateImages (t : Z) (model prompt : jsstring)
    (config : ImageGenerationOptions.t)
| CallGenerateVideos (t : Z) (model prompt : jsstring)
    (config : VideoGenerationOptions.t)
| CallGetVideosOperation (t : Z) (operation : GenerateVideosOperation)
| Timer (t : Z) (ms : Z)
| Console (line : ConsoleLine).

(** Everything the service takes from outside: two library functions, the
    two configured model names, and, for one run, the answers of the
    provider and the real durations of what is awaited.  The k-th refresh
    is answered by [getVideosOperation_reply k]; the k-th timer resumes
    the call [timer_elapsed k] milliseconds after it was set. *)
Record Runtime : Type := {
  JSON_stringify : Json -> jsstring;
  Buffer_from_base64 : jsstring -> Buffer;
  CONFIG_models_image : jsstring;
  CONFIG_models_video : jsstring;
  generateImages_reply : thrown + GenerateImagesResponse;
  generateImages_latency : Z;
  generateVideos_reply : thrown + GenerateVideosOperation;
  generateVideos_latency : Z;
  getVideosOperation_reply : nat -> thrown + GenerateVideosOperation;
  getVideosOperation_latency : nat -> Z;
  timer_elapsed : nat -> Z
}.

(** The state threaded through a call: the clock ([Date.now()], in
    milliseconds), how many timers and refreshes were consumed, and the
    events so far, oldest first. *)
Record World : Type := {
  now : Z;
  timers : nat;
  polls : nat;
  trace : list Event
}.

Definition boot (t0 : Z) : World :=
  {| now := t0; timers := 0; polls := 0; trace := [] |}.

(** How a computation ends: it returns, it throws, or the fuel of the
    model's loop ran out before the loop did. *)
Inductive Outcome (A : Type) : Type :=
| Returned (a : A)
| Threw (e : thrown)
| Unfinished.

Arguments Returned {A} a.
Arguments Threw {A} e.
Arguments Unfinished {A}.

Definition M (A : Type) : Type := World -> Outcome A * World.

Definition ret {A : Type} (a : A) : M A := fun w => (Returned a, w).

Definition bind {A B : Type} (m : M A) (k : A -> M B) : M B :=
  fun w =>
    match m w with
    | (Returned a, w') => k a w'
    | (Threw e, w') => (Threw e, w')
    | (Unfinished, w') => (Unfinished, w')
    end.

Definition throw {A : Type} (e : thrown) : M A := fun w => (Threw e, w).

Definition unfinished {A : Type} : M A := fun w => (Unfinished, w).

(** [try { body } catch (error) { handler }]. *)
Definition try_catch {A : Type} (body : M A) (handler : thrown -> M A) : M A :=
  fun w =>
    match body w with
    | (Threw e, w') => handler e w'
    | r => r
    end.

(** A synchronous call of a method that returns or throws. *)
Definition call {A : Type} (r : thrown + A) : M A :=
  match r with
  | inl e => throw e
  | inr a => ret a
  end.

Declare Scope service_scope.
Delimit Scope service_scope with service.
Notation "x <- m ;; k" := (bind m (fun x => k))
  (at level 100, m at next level, right associativity) : service_scope.
Notation "m ;;; k" := (bind m (fun _ => k))
  (at level 100, right associativity) : service_scope.

Definition emit (e : Event) : M unit :=
  fun w => (Returned tt,
            {| now := now w; timers := timers w; polls := polls w;
               trace := trace w ++ [e] |}).

Definition console (line : ConsoleLine) : M unit := emit (Console line).

Definition Date_now : M Z := fun w => (Returned (now w), w).

(** Time passes while the call is suspended. *)
Definition elapse (ms : Z) : M unit :=
  fun w => (Returned tt,
            {| now := now w + ms; timers := timers w; polls := polls w;
               trace := trace w |}).

Definition maxWaitTime : Z := 10 * 60 * 1000.
Definition pollInterval : Z := 15 * 1000.

(** The object [genImConfig] built by [generateImage]: the options with
    the defaults of its destructuring. *)
Definition genImConfig (o : ImageGenerationOptions.t)
  : ImageGenerationOptions.t :=
  {| ImageGenerationOptions.aspectRatio :=
       Some (withDefault (lit "1:1") (ImageGenerationOptions.aspectRatio o));
     ImageGenerationOptions.numberOfImages :=
       Some (withDefault (num 1) (ImageGenerationOptions.numberOfImages o));
     ImageGenerationOptions.negativePrompt :=
       ImageGenerationOptions.negativePrompt o;
     ImageGenerationOptions.language := ImageGenerationOptions.language o;
     ImageGenerationOptions.guidanceScale :=
       ImageGenerationOptions.guidanceScale o;
     ImageGenerationOptions.seed := ImageGenerationOptions.seed o;
     ImageGenerationOptions.safetyFilterLevel :=
       Some (withDefault (lit "BLOCK_MEDIUM_AND_ABOVE")
               (ImageGenerationOptions.safetyFilterLevel o));
     ImageGenerationOptions.personGeneration :=
       Some (withDefault (lit "ALLOW_ADULT")
               (ImageGenerationOptions.personGeneration o));
     ImageGenerationOptions.includeSafetyAttributes :=
       Some (withDefault false
               (ImageGenerationOptions.includeSafetyAttributes o));
     ImageGenerationOptions.includeRaiReason :=
       Some (withDefault false (ImageGenerationOptions.includeRaiReason o));
     ImageGenerationOptions.outputMimeType :=
       Some (withDefault (lit "image/png")
               (ImageGenerationOptions.outputMimeType o));
     ImageGenerationOptions.outputCompressionQuality :=
       Some (withDefault (num 85)
               (ImageGenerationOptions.outputCompressionQuality o));
     ImageGenerationOptions.addWatermark :=
       ImageGenerationOptions.addWatermark o;
     ImageGenerationOptions.imageSize :=
       Some (withDefault (lit "1K") (ImageGenerationOptions.imageSize o));
     ImageGenerationOptions.enhancePrompt :=
       ImageGenerationOptions.enhancePrompt o;
     ImageGenerationOptions.outputGcsUri :=
       ImageGenerationOptions.outputGcsUri o |}.

(** The object [genVidConfig] built by [generateVideo]. *)
Definition genVidConfig (o : VideoGenerationOptions.t)
  : VideoGenerationOptions.t :=
  {| VideoGenerationOptions.numberOfVideos :=
     Some (withDefault (num 1) (VideoGenerationOptions.numberOfVideos o));
     VideoGenerationOptions.durationSeconds :=
       Some (withDefault (num 8) (VideoGenerationOptions.durationSeconds o));
     VideoGenerationOptions.aspectRatio :=
       Some (withDefault (lit "16:9") (VideoGenerationOptions.aspectRatio o));
     VideoGenerationOptions.resolution :=
       Some (withDefault (lit "720p") (VideoGenerationOptions.resolution o));
     VideoGenerationOptions.fps := VideoGenerationOptions.fps o;
     VideoGenerationOptions.seed := VideoGenerationOptions.seed o;
     VideoGenerationOptions.negativePrompt :=
       VideoGenerationOptions.negativePrompt o;
     VideoGenerationOptions.enhancePrompt :=
       VideoGenerationOptions.enhancePrompt o;
     VideoGenerationOptions.generateAudio :=
       VideoGenerationOptions.generateAudio o;
     VideoGenerationOptions.personGeneration :=
       VideoGenerationOptions.personGeneration o;
     VideoGenerationOptions.compressionQuality :=
       Some (withDefault (lit "OPTIMIZED")
               (VideoGenerationOptions.compressionQuality o));
     VideoGenerationOptions.outputGcsUri :=
       VideoGenerationOptions.outputGcsUri o;
     VideoGenerationOptions.lastFrame := VideoGenerationOptions.lastFrame o;
     VideoGenerationOptions.referenceImages :=
       VideoGenerationOptions.referenceImages o |}.

Section Service.

Variable rt : Runtime.

Local Open Scope service_scope.

(** [await new Promise((resolve) => setTimeout(resolve, ms))]. *)
Definition sleep (ms : Z) : M unit :=
  fun w => (Returned tt,
            {| now := now w + timer_elapsed rt (timers w);
               timers := S (timers w); polls := polls w;
               trace := trace w ++ [Timer (now w) ms] |}).

(** [await this.genAI.models.generateImages({ model, prompt, config })]. *)
Definition genAI_models_generateImages (model prompt : jsstring)
  (config : ImageGenerationOptions.t) : M GenerateImagesResponse :=
  t <- Date_now ;;
  emit (CallGenerateImages t model prompt config) ;;;
  elapse (generateImages_latency rt) ;;;
  call (generateImages_reply rt).

(** [await this.genAI.models.generateVideos({ model, prompt, config })]. *)
Definition genAI_models_generateVideos (model prompt : jsstring)
  (config : VideoGenerationOptions.t) : M GenerateVideosOperation :=
  t <- Date_now ;;
  emit (CallGenerateVideos t model prompt config) ;;;
  elapse (generateVideos_latency rt) ;;;
  call (generateVideos_reply rt).

(** [await this.genAI.operations.getVideosOperation({ operation })]. *)
Definition genAI_operations_getVideosOperation
  (operation : GenerateVideosOperation) : M GenerateVideosOperation :=
  fun w =>
    let k := polls w in
    let w' := {| now := now w + getVideosOperation_latency rt k;
                 timers := timers w; polls := S k;
                 trace := trace w ++ [CallGetVideosOperation (now w) operation] |} in
    match getVideosOperation_reply rt k with
    | inl e => (Threw e, w')
    | inr operation' => (Returned operation', w')
    end.

(** The prompt test shared by both entry points:
    [!prompt || typeof prompt !== "string" || prompt.trim().length === 0]
    for a [prompt] that is a string. *)
Definition promptMissing (prompt : jsstring) : bool :=
  match prompt with
  | [] => true
  | _ => (List.length (trim prompt) =? 0)%nat
  end.

(** The loop [for (const generatedImage of generatedImages)], threading
    the array [imageBuffers]. *)
Fixpoint convertImages (generatedImages : list GeneratedImage)
  (imageBuffers : list Buffer) : M (list Buffer) :=
  match generatedImages with
  | [] => ret imageBuffers
  | generatedImage :: rest =>
      match image generatedImage with
      | None =>
          console WarnImageNoData ;;;
          convertImages rest imageBuffers
      | Some imageData =>
          if truthy_string (gcsUri imageData) then
            throw (Error
              "GCS URI handling not implemented. Please avoid using outputGcsUri.")
          else
            match imageBytes imageData with
            | Some (c :: s) =>
                convertImages rest
                  (imageBuffers ++ [Buffer_from_base64 rt (c :: s)])
            | _ =>
                console WarnImageNoBytes ;;;
                convertImages rest imageBuffers
            end
      end
  end.

(** The [catch] clause of [generateImage]. *)
Definition imageCatch {A : Type} (error : thrown) : M A :=
  match error with
  | JsError message =>
      throw (JsError (lit "Image generation failed: " ++ message))
  | NonError =>
      throw (Error "Image generation failed due to an unknown error")
  end.

(** What follows the request inside the [try] block of [generateImage]. *)
Definition collectImages (res : GenerateImagesResponse) : M (list Buffer) :=
  match generatedImages res with
  | None | Some [] => throw (Error "No images were generated")
  | Some generatedImages =>
      imageBuffers <- convertImages generatedImages [] ;;
      if (List.length imageBuffers =? 0)%nat then
        throw (Error "No valid image data was found in the response")
      else ret imageBuffers
  end.

(** [generateImage]. *)
Definition generateImage (prompt : jsstring)
  (options : ImageGenerationOptions.t) : M (list Buffer) :=
  if promptMissing prompt then
    throw (Error "Prompt is required and must be a non-empty string")
  else if (4000 <? List.length prompt)%nat then
    throw (Error "Prompt must be less than 4000 characters")
  else
    call (validateImageOptions options) ;;;
    try_catch
      (res <- genAI_models_generateImages (CONFIG_models_image rt)
                (trim prompt) (genImConfig options) ;;
       collectImages res)
      imageCatch.

(** [downloadGcsFile]: a placeholder that always throws. *)
Definition downloadGcsFile (gcsUri : jsstring) : M Buffer :=
  throw (JsError
    (lit "GCS file download not implemented. Cannot download from " ++ gcsUri)).

(** The loop [for (const generatedVideo of generatedVideos)], threading
    the array [videoBuffers]. *)
Fixpoint convertVideos (generatedVideos : list GeneratedVideo)
  (videoBuffers : list Buffer) : M (list Buffer) :=
  match generatedVideos with
  | [] => ret videoBuffers
  | generatedVideo :: rest =>
      match video generatedVideo with
      | None =>
          console WarnVideoNoData ;;;
          convertVideos rest videoBuffers
      | Some videoData =>
          videoBuffers <-
            (match uri videoData with
             | Some (c :: s) =>
                 let gcsUri := c :: s in
                 console (ErrorUriFound gcsUri) ;;;
                 videoBuffer <- downloadGcsFile gcsUri ;;
                 ret (videoBuffers ++ [videoBuffer])
             | _ => ret videoBuffers
             end) ;;
          videoBuffers <-
            (match videoBytes videoData with
             | Some (c :: s) =>
                 ret (videoBuffers ++ [Buffer_from_base64 rt (c :: s)])
             | _ =>
                 console WarnVideoNoBytes ;;;
                 ret videoBuffers
             end) ;;
          convertVideos rest videoBuffers
      end
  end.

(** The loop [while (!operation.done)] of [generateVideo].  [fuel] bounds
    the number of times the loop test may be made again after a refresh;
    [pollOperation_terminates] shows that 41 always suffice when timers
    do not fire early. *)
Fixpoint pollOperation (fuel : nat) (startTime : Z)
  (operation : GenerateVideosOperation) : M GenerateVideosOperation :=
  if truthy_bool (done operation) then ret operation
  else
    t <- Date_now ;;
    if t - startTime >? maxWaitTime then
      throw (Error "Video generation timed out after 10 minutes")
    else
      sleep pollInterval ;;;
      if truthy_string (name operation) then
        operation <- genAI_operations_getVideosOperation operation ;;
        match metadata operation with
        | Some m => console (LogProgress m)
        | None => ret tt
        end ;;;
        match fuel with
        | O => unfinished
        | S fuel' => pollOperation fuel' startTime operation
        end
      else
        throw (Error "Operation name is not available for polling").

(** What follows the loop inside the [try] block. *)
Definition collectVideos (operation : GenerateVideosOperation)
  : M (list Buffer) :=
  match error operation with
  | Some e =>
      throw (JsError (lit "Video generation failed: "
                      ++ JSON_stringify rt (JObject e)))
  | None => ret tt
  end ;;;
  match match response operation with
        | Some r => generatedVideos r
        | None => None
        end with
  | None | Some [] => throw (Error "No videos were generated")
  | Some generatedVideos =>
      videoBuffers <- convertVideos generatedVideos [] ;;
      if (List.length videoBuffers =? 0)%nat then
        throw (Error "No valid video data was found in the response")
      else
        console (LogGenerated (List.length videoBuffers)) ;;;
        ret videoBuffers
  end.

(** The [catch] clause of [generateVideo]. *)
Definition videoCatch {A : Type} (error : thrown) : M A :=
  match error with
  | JsError message =>
      throw (JsError (lit "Video generation failed: " ++ message))
  | NonError =>
      throw (Error "Video generation failed due to an unknown error")
  end.

(** [generateVideo]. *)
Definition generateVideo (fuel : nat) (prompt : jsstring)
  (options : VideoGenerationOptions.t) : M (list Buffer) :=
  if promptMissing prompt then
    throw (Error "Prompt is required and must be a non-empty string")
  else if (1000 <? List.length prompt)%nat then
    throw (Error "Prompt must be less than 1000 characters for video generation")
  else
    let numberOfVideos :=
      withDefault (num 1) (VideoGenerationOptions.numberOfVideos options) in
    call (validateVideoOptions options) ;;;
    try_catch
      (operation <- genAI_models_generateVideos (CONFIG_models_video rt)
                      (trim prompt) (genVidConfig options) ;;
       console (LogVideoStarted numberOfVideos) ;;;
       startTime <- Date_now ;;
       operation <- pollOperation fuel startTime operation ;;
       collectVideos operation)
      videoCatch.

End Service.

(* ================================================================== *)
(** ** The rules as the specification words them *)

(** [x] lies in the closed range from [lo] to [hi]. *)
Definition in_range (lo hi : Z) (x : number) : Prop :=
  match x with
  | Finite q => (inject_Z lo <= q)%Q /\ (q <= inject_Z hi)%Q
  | _ => False
  end.

(** A rule on a field that may be left out. *)
Definition when_present {A : Type} (P : A -> Prop) (x : option A) : Prop :=
  match x with
  | Some v => P v
  | None => True
  end.

(** Rules (video): count in [1,4]; duration in [2,10]; frame rate, if
    present, in [8,30]; aspect ratio 16:9 or 9:16; resolution 720p or
    1080p.  A field that is left out counts with the default the validator
    gives it. *)
Definition videoRules (o : VideoGenerationOptions.t) : Prop :=
  in_range 1 4 (withDefault (num 1) (VideoGenerationOptions.numberOfVideos o))
  /\ in_range 2 10
       (withDefault (num 5) (VideoGenerationOptions.durationSeconds o))
  /\ when_present (in_range 8 30) (VideoGenerationOptions.fps o)
  /\ In (withDefault (lit "16:9") (VideoGenerationOptions.aspectRatio o))
        [lit "16:9"; lit "9:16"]
  /\ In (withDefault (lit "720p") (VideoGenerationOptions.resolution o))
        [lit "720p"; lit "1080p"].

(** Rules (image): count in [1,8]; guidance scale, if present, in [1,20];
    compression quality in [1,100]; aspect ratio one of five; output
    encoding jpeg or png. *)
Definition imageRules (o : ImageGenerationOptions.t) : Prop :=
  in_range 1 8 (withDefault (num 1) (ImageGenerationOptions.numberOfImages o))
  /\ when_present (in_range 1 20) (ImageGenerationOptions.guidanceScale o)
  /\ in_range 1 100
       (withDefault (num 85)
          (ImageGenerationOptions.outputCompressionQuality o))
  /\ In (withDefault (lit "1:1") (ImageGenerationOptions.aspectRatio o))
        [lit "1:1"; lit "3:4"; lit "4:3"; lit "9:16"; lit "16:9"]
  /\ In (withDefault (lit "image/jpeg")
           (ImageGenerationOptions.outputMimeType o))
        [lit "image/jpeg"; lit "image/png"].

Definition notNaN (x : number) : Prop := x <> NaN.

(** No numeric field that the video validator reads is NaN. *)
Definition videoNumbersDefined (o : VideoGenerationOptions.t) : Prop :=
  when_present notNaN (VideoGenerationOptions.numberOfVideos o)
  /\ when_present notNaN (VideoGenerationOptions.durationSeconds o)
  /\ when_present notNaN (VideoGenerationOptions.fps o).

(** No numeric field that the image validator reads is NaN. *)
Definition imageNumbersDefined (o : ImageGenerationOptions.t) : Prop :=
  when_present notNaN (ImageGenerationOptions.numberOfImages o)
  /\ when_present notNaN (ImageGenerationOptions.guidanceScale o)
  /\ when_present notNaN (ImageGenerationOptions.outputCompressionQuality o).

(** The options [{ numberOfVideos: NaN }]. *)
Definition videoOptions_NaN_count : VideoGenerationOptions.t :=
  {| VideoGenerationOptions.numberOfVideos := Some NaN;
     VideoGenerationOptions.durationSeconds := None;
     VideoGenerationOptions.aspectRatio := None;
     VideoGenerationOptions.resolution := None;
     VideoGenerationOptions.fps := None;
     VideoGenerationOptions.seed := None;
     VideoGenerationOptions.negativePrompt := None;
     VideoGenerationOptions.enhancePrompt := None;
     VideoGenerationOptions.generateAudio := None;
     VideoGenerationOptions.personGeneration := None;
     VideoGenerationOptions.compressionQuality := None;
     VideoGenerationOptions.outputGcsUri := None;
     VideoGenerationOptions.lastFrame := None;
     VideoGenerationOptions.referenceImages := None |}.

(** The options [{ numberOfImages: NaN }]. *)
Definition imageOptions_NaN_count : ImageGenerationOptions.t :=
  {| ImageGenerationOptions.aspectRatio := None;
     ImageGenerationOptions.numberOfImages := Some NaN;
     ImageGenerationOptions.negativePrompt := None;
     ImageGenerationOptions.language := None;
     ImageGenerationOptions.guidanceScale := None;
     ImageGenerationOptions.seed := None;
     ImageGenerationOptions.safetyFilterLevel := None;
     ImageGenerationOptions.personGeneration := None;
     ImageGenerationOptions.includeSafetyAttributes := None;
     ImageGenerationOptions.includeRaiReason := None;
     ImageGenerationOptions.outputMimeType := None;
     ImageGenerationOptions.outputCompressionQuality := None;
     ImageGenerationOptions.addWatermark := None;
     ImageGenerationOptions.imageSize := None;
     ImageGenerationOptions.enhancePrompt := None;
     ImageGenerationOptions.outputGcsUri := None |}.

(* ================================================================== *)
(** ** Reading a trace *)

Definition isRefresh (e : Event) : bool :=
  match e with
  | CallGetVideosOperation _ _ => true
  | _ => false
  end.

Definition isTimer (e : Event) : bool :=
  match e with
  | Timer _ _ => true
  | _ => false
  end.

(** A call to the remote provider. *)
Definition isNetwork (e : Event) : bool :=
  match e with
  | CallGenerateImages _ _ _ _ => true
  | CallGenerateVideos _ _ _ _ => true
  | CallGetVideosOperation _ _ => true
  | _ => false
  end.

Definition refreshCount (tr : list Event) : nat :=
  List.length (filter isRefresh tr).

Definition timerCount (tr : list Event) : nat :=
  List.length (filter isTimer tr).

(** The clock values at which the refreshes of a trace were issued. *)
Definition refreshTimes (tr : list Event) : list Z :=
  flat_map (fun e => match e with
                     | CallGetVideosOperation t _ => [t]
                     | _ => []
                     end) tr.

(** The refreshes issued when more than [maxWaitTime] had elapsed since
    [startTime]. *)
Definition lateRefreshes (startTime : Z) (tr : list Event) : list Z :=
  filter (fun t => t - startTime >? maxWaitTime) (refreshTimes tr).

(** The property that no refresh is issued after the ceiling is crossed. *)
Definition noRefreshAfterCeiling (startTime : Z) (tr : list Event) : Prop :=
  forall t, In t (refreshTimes tr) -> t - startTime <= maxWaitTime.

(** ** The worlds a video call goes through *)

(** The world once the submission has returned and the start was logged:
    the world in which the polling loop is entered. *)
Definition submittedVideo (rt : Runtime) (prompt : jsstring)
  (options : VideoGenerationOptions.t) (w : World) : World :=
  {| now := now w + generateVideos_latency rt;
     timers := timers w;
     polls := polls w;
     trace := (trace w
               ++ [CallGenerateVideos (now w) (CONFIG_models_video rt)
                     (trim prompt) (genVidConfig options)])
              ++ [Console (LogVideoStarted
                    (withDefault (num 1)
                       (VideoGenerationOptions.numberOfVideos options)))] |}.

(** The world after the timer of one loop iteration. *)
Definition afterSleep (rt : Runtime) (w : World) : World :=
  {| now := now w + timer_elapsed rt (timers w);
     timers := S (timers w);
     polls := polls w;
     trace := trace w ++ [Timer (now w) pollInterval] |}.

(** The world after the refresh that follows it. *)
Definition afterRefresh (rt : Runtime) (operation : GenerateVideosOperation)
  (w : World) : World :=
  let w1 := afterSleep rt w in
  {| now := now w1 + getVideosOperation_latency rt (polls w);
     timers := timers w1;
     polls := S (polls w);
     trace := trace w1 ++ [CallGetVideosOperation (now w1) operation] |}.

(** The progress line, when the fresh snapshot has metadata. *)
Definition afterProgress (operation' : GenerateVideosOperation) (w : World)
  : World :=
  match metadata operation' with
  | Some m =>
      {| now := now w; timers := timers w; polls := polls w;
         trace := trace w ++ [Console (LogProgress m)] |}
  | None => w
  end.

(** Time elapsed since loop entry when the loop body is entered for the
    (k+1)-th time, in a call that started with fresh counters. *)
Fixpoint elapsedAt (rt : Runtime) (k : nat) : Z :=
  match k with
  | O => 0
  | S k' =>
      elapsedAt rt k' + timer_elapsed rt k' + getVideosOperation_latency rt k'
  end.

(** ** Shapes of result items *)

(** The locator of the first item that carries one. *)
Fixpoint firstUri (items : list GeneratedVideo) : option jsstring :=
  match items with
  | [] => None
  | v :: rest =>
      match video v with
      | Some {| uri := Some (c :: s) |} => Some (c :: s)
      | _ => firstUri rest
      end
  end.

(** The item carries inline bytes and no locator. *)
Definition inlineVideo (v : GeneratedVideo) : option jsstring :=
  match video v with
  | Some {| uri := u; videoBytes := Some (c :: s) |} =>
      if truthy_string u then None else Some (c :: s)
  | _ => None
  end.

(** The inline payloads of the items that carry one, in order. *)
Fixpoint inlinePayloads (items : list GeneratedVideo) : list jsstring :=
  match items with
  | [] => []
  | v :: rest =>
      match video v with
      | Some {| videoBytes := Some (c :: s) |} => (c :: s) :: inlinePayloads rest
      | _ => inlinePayloads rest
      end
  end.

Definition imageHasGcsUri (g : GeneratedImage) : bool :=
  match image g with
  | Some imageData => truthy_string (gcsUri imageData)
  | None => false
  end.

Fixpoint imagePayloads (items : list GeneratedImage) : list jsstring :=
  match items with
  | [] => []
  | g :: rest =>
      match image g with
      | Some {| imageBytes := Some (c :: s) |} => (c :: s) :: imagePayloads rest
      | _ => imagePayloads rest
      end
  end.

(** The result set of a finished operation:
    [operation.response?.generatedVideos]. *)
Definition resultSet (operation : GenerateVideosOperation)
  : option (list GeneratedVideo) :=
  match response operation with
  | Some r => generatedVideos r
  | None => None
  end.

(** A call that passes the checks made before the submission. *)
Definition videoCallAccepted (prompt : jsstring)
  (options : VideoGenerationOptions.t) : Prop :=
  promptMissing prompt = false
  /\ (List.length prompt <= 1000)%nat
  /\ validateVideoOptions options = inr tt.

Definition imageCallAccepted (prompt : jsstring)
  (options : ImageGenerationOptions.t) : Prop :=
  promptMissing prompt = false
  /\ (List.length prompt <= 4000)%nat
  /\ validateImageOptions options = inr tt.

(** The console line that [afterProgress] adds, if any. *)
Definition progressLog (operation' : GenerateVideosOperation) : list Event :=
  match metadata operation' with
  | Some m => [Console (LogProgress m)]
  | None => []
  end.

(** ** Assumptions on a run *)

(** Every refresh answers, with a snapshot that is not done and that can
    still be referenced. *)
Definition neverDone (rt : Runtime) : Prop :=
  forall k, exists operation',
    getVideosOperation_reply rt k = inr operation'
    /\ truthy_bool (done operation') = false
    /\ truthy_string (name operation') = true.

(** No timer fires early. *)
Definition timersOnTime (rt : Runtime) : Prop :=
  forall k, pollInterval <= timer_elapsed rt k.

(** A refresh takes no negative time. *)
Definition clockMonotone (rt : Runtime) : Prop :=
  forall k, 0 <= getVideosOperation_latency rt k.

Definition timeoutError : thrown :=
  Error "Video generation timed out after 10 minutes".

(** What [downloadGcsFile] throws. *)
Definition downloadError (gcsUri : jsstring) : thrown :=
  JsError (lit "GCS file download not implemented. Cannot download from "
           ++ gcsUri).

Definition lostHandleError : thrown :=
  Error "Operation name is not available for polling".

(* ================================================================== *)
(** ** Sample runs

    Concrete runtimes on which the properties are exercised.  The two
    library functions are stood in for by a plain base64 decoder and by a
    rendering of flat objects; the properties themselves hold for every
    [Runtime]. *)

Definition base64_digit (c : N) : option N :=
  (if (65 <=? c) && (c <=? 90) then Some (c - 65)
   else if (97 <=? c) && (c <=? 122) then Some (c - 71)
   else if (48 <=? c) && (c <=? 57) then Some (c + 4)
   else if (c =? 43) || (c =? 45) then Some 62
   else if (c =? 47) || (c =? 95) then Some 63
   else None)%N.

(** The 6-bit digits up to the first [=], other characters skipped. *)
Fixpoint base64_digits (s : jsstring) : list N :=
  match s with
  | [] => []
  | c :: s' =>
      if (c =? 61)%N then []
      else match base64_digit c with
           | Some d => d :: base64_digits s'
           | None => base64_digits s'
           end
  end.

Fixpoint base64_pack (ds : list N) : list N :=
  match ds with
  | a :: b :: c :: d :: rest =>
      (a * 4 + b / 16 :: (b mod 16) * 16 + c / 4 :: (c mod 4) * 64 + d
         :: base64_pack rest)%N
  | [a; b; c] => [a * 4 + b / 16; (b mod 16) * 16 + c / 4]%N
  | [a; b] => [a * 4 + b / 16]%N
  | _ => []
  end.

Definition sample_base64 (s : jsstring) : Buffer :=
  map (fun n => match Byte.of_N n with
                | Some b => b
                | None => Byte.x00
                end)
      (base64_pack (base64_digits s)).

(** Renders [{"message":"..."}]-like objects whose values are strings
    without escapes; anything else as [{}]. *)
Definition sample_stringify (j : Json) : jsstring :=
  match j with
  | JObject [(k, JString v)] =>
      [123; 34]%N ++ k ++ [34; 58; 34]%N ++ v ++ [34; 125]%N
  | _ => lit "{}"
  end.

Definition sampleRuntime
  (images : thrown + GenerateImagesResponse)
  (submitted : thrown + GenerateVideosOperation)
  (refresh : nat -> thrown + GenerateVideosOperation) : Runtime :=
  {| JSON_stringify := sample_stringify;
     Buffer_from_base64 := sample_base64;
     CONFIG_models_image := lit "imagen-4.0-generate-001";
     CONFIG_models_video := lit "veo-3.0-generate-001";
     generateImages_reply := images;
     generateImages_latency := 4200;
     generateVideos_reply := submitted;
     generateVideos_latency := 900;
     getVideosOperation_reply := refresh;
     getVideosOperation_latency := fun _ => 200;
     timer_elapsed := fun _ => 15001 |}.

(** An operation in flight. *)
Definition pendingOperation : GenerateVideosOperation :=
  {| name := Some (lit "operations/42");
     metadata := None;
     done := None;
     error := None;
     response := None |}.

(** An operation in flight whose handle is gone. *)
Definition namelessOperation : GenerateVideosOperation :=
  {| name := None;
     metadata := None;
     done := Some false;
     error := None;
     response := None |}.

(** A finished operation with the given result items. *)
Definition finishedWith (items : list GeneratedVideo)
  : GenerateVideosOperation :=
  {| name := Some (lit "operations/42");
     metadata := None;
     done := Some true;
     error := None;
     response := Some {| generatedVideos := Some items |} |}.

Definition inlineVideoItem (payload : string) : GeneratedVideo :=
  {| video := Some {| uri := None;
                      videoBytes := Some (lit payload);
                      video_mimeType := Some (lit "video/mp4") |} |}.

(** A finished operation that carries an error and, to tell the order of
    the two checks, a result as well. *)
Definition failedOperation : GenerateVideosOperation :=
  {| name := Some (lit "operations/42");
     metadata := None;
     done := Some true;
     error := Some [(lit "message", JString (lit "quota exceeded"))];
     response :=
       Some {| generatedVideos := Some [inlineVideoItem "AAEC"] |} |}.

Definition remoteVideoItem (locator : string) : GeneratedVideo :=
  {| video := Some {| uri := Some (lit locator);
                      videoBytes := None;
                      video_mimeType := Some (lit "video/mp4") |} |}.

Definition inlineImageItem (payload : string) : GeneratedImage :=
  {| image := Some {| gcsUri := None;
                      imageBytes := Some (lit payload);
                      image_mimeType := Some (lit "image/png") |} |}.

Definition remoteImageItem (locator : string) : GeneratedImage :=
  {| image := Some {| gcsUri := Some (lit locator);
                      imageBytes := None;
                      image_mimeType := Some (lit "image/png") |} |}.

Definition noImages : thrown + GenerateImagesResponse :=
  inr {| generatedImages := None |}.

(** The provider never finishes the job. *)
Definition rt_pending : Runtime :=
  sampleRuntime noImages (inr pendingOperation) (fun _ => inr pendingOperation).

(** The job is finished at the third refresh, with one inline item. *)
Definition rt_third : Runtime :=
  sampleRuntime noImages (inr pendingOperation)
    (fun k => if (k <? 2)%nat then inr pendingOperation
              else inr (finishedWith [inlineVideoItem "AAEC"])).

(** The submission already returns a finished operation, with a remote
    item followed by an inline one (Scenario D). *)
Definition rt_scenarioD : Runtime :=
  sampleRuntime noImages
    (inr (finishedWith [remoteVideoItem "gs://bucket/clip.mp4";
                        inlineVideoItem "AAEC"]))
    (fun _ => inr pendingOperation).

(** The submission already returns a failed operation. *)
Definition rt_failed : Runtime :=
  sampleRuntime noImages (inr failedOperation) (fun _ => inr pendingOperation).

(** The handle is lost at the fortieth refresh. *)
Definition rt_lostLate : Runtime :=
  sampleRuntime noImages (inr pendingOperation)
    (fun k => if (k <? 39)%nat then inr pendingOperation
              else inr namelessOperation).

(** The handle is lost at the second refresh. *)
Definition rt_lostEarly : Runtime :=
  sampleRuntime noImages (inr pendingOperation)
    (fun k => if (k <? 1)%nat then inr pendingOperation
              else inr namelessOperation).

(** Three images: one without data, one stored remotely, one inline. *)
Definition items_remote : list GeneratedImage :=
  [ {| image := None |};
    remoteImageItem "gs://bucket/cat.png";
    inlineImageItem "AAEC" ].

(** The provider answers the image request with them. *)
Definition rt_imagesRemote : Runtime :=
  sampleRuntime (inr {| generatedImages := Some items_remote |})
    (inr pendingOperation) (fun _ => inr pendingOperation).

(** Two images come back: one without data, one inline. *)
Definition rt_imagesInline : Runtime :=
  sampleRuntime
    (inr {| generatedImages :=
              Some [ {| image := None |}; inlineImageItem "AAEC" ] |})
    (inr pendingOperation) (fun _ => inr pendingOperation).

(** What the provider holds after [k] refreshes: the submitted operation,
    then the answers to the refreshes. *)
Definition snapshot (rt : Runtime) (k : nat)
  : thrown + GenerateVideosOperation :=
  match k with
  | O => generateVideos_reply rt
  | S k' => getVideosOperation_reply rt k'
  end.

(** The prompt used in the sample calls. *)
Definition samplePrompt : jsstring := lit "a red kite over the dunes".

(** Events that leave the process untouched by time and network. *)
Definition isConsole (e : Event) : bool :=
  match e with
  | Console _ => true
  | _ => false
  end.

(** The submission already returns a finished operation with one inline
    item (Scenario A). *)
Definition rt_scenarioA : Runtime :=
  sampleRuntime noImages (inr (finishedWith [inlineVideoItem "AAEC"]))
    (fun _ => inr pendingOperation).

(** The options of Scenario A: eight seconds at 1080p. *)
Definition videoOptions_scenarioA : VideoGenerationOptions.t :=
  {| VideoGenerationOptions.numberOfVideos := None;
     VideoGenerationOptions.durationSeconds := Some (num 8);
     VideoGenerationOptions.aspectRatio := None;
     VideoGenerationOptions.resolution := Some (lit "1080p");
     VideoGenerationOptions.fps := None;
     VideoGenerationOptions.seed := None;
     VideoGenerationOptions.negativePrompt := None;
     VideoGenerationOptions.enhancePrompt := None;
     VideoGenerationOptions.generateAudio := None;
     VideoGenerationOptions.personGeneration := None;
     VideoGenerationOptions.compressionQuality := None;
     VideoGenerationOptions.outputGcsUri := None;
     VideoGenerationOptions.lastFrame := None;
     VideoGenerationOptions.referenceImages := None |}.

(** The image item carries inline bytes and no locator. *)
Definition inlineImage (g : GeneratedImage) : option jsstring :=
  match image g with
  | Some {| gcsUri := u; imageBytes := Some (c :: s) |} =>
      if truthy_string u then None else Some (c :: s)
  | _ => None
  end.

(** The world once the image request has been answered. *)
Definition submittedImage (rt : Runtime) (prompt : jsstring)
  (options : ImageGenerationOptions.t) (w : World) : World :=
  {| now := now w + generateImages_latency rt;
     timers := timers w;
     polls := polls w;
     trace := trace w
              ++ [CallGenerateImages (now w) (CONFIG_models_image rt)
                    (trim prompt) (genImConfig options)] |}.

(** A computation only ever appends to the trace. *)
Definition appendOnly {A : Type} (m : M A) : Prop :=
  forall w, exists new, trace (snd (m w)) = trace w ++ new.

(** The error of the image path for an item stored remotely, before and
    after the catch clause. *)
Definition gcsUriError : thrown :=
  Error "GCS URI handling not implemented. Please avoid using outputGcsUri.".

Definition wrappedGcsUriError : thrown :=
  Error
    "Image generation failed: GCS URI handling not implemented. Please avoid using outputGcsUri.".

(** Three refreshes come back not done, the fourth comes back failed
    (Scenario B). *)
Definition rt_scenarioB : Runtime :=
  sampleRuntime noImages (inr pendingOperation)
    (fun k => if (k <? 3)%nat then inr pendingOperation
              else inr failedOperation).

(** The submission returns a finished operation with no item. *)
Definition rt_emptyResult : Runtime :=
  sampleRuntime noImages (inr (finishedWith []))
    (fun _ => inr pendingOperation).

(** The sample runs: the loop entered at clock 0 with an operation in
    flight, against a provider that never finishes and against one that
    loses the handle at the fortieth refresh; Scenario D as a whole call. *)
Definition run_pending : Outcome GenerateVideosOperation * World :=
  pollOperation rt_pending 41 0 pendingOperation (boot 0).

Definition run_lostLate : Outcome GenerateVideosOperation * World :=
  pollOperation rt_lostLate 41 0 pendingOperation (boot 0).

Definition run_scenarioD : Outcome (list Buffer) * World :=
  generateVideo rt_scenarioD 41 samplePrompt VideoGenerationOptions.empty
    (boot 0).

(* ================================================================== *)
(** * Around the two generation paths

    Two more methods of the service ([validateService],
    [getAvailableModels]), the storage service
    (storage.ts) and the two tool handlers of index.ts that call
    [generateImage] and [generateVideo] and store what they return. *)

(** ** What else is taken from outside *)

From Stdlib Require DecimalNat.

(** [Number.prototype.toString] on an array length or index: the decimal
    digits. *)
Fixpoint uint_codes (d : Decimal.uint) : jsstring :=
  match d with
  | Decimal.Nil => []
  | Decimal.D0 d => 48%N :: uint_codes d
  | Decimal.D1 d => 49%N :: uint_codes d
  | Decimal.D2 d => 50%N :: uint_codes d
  | Decimal.D3 d => 51%N :: uint_codes d
  | Decimal.D4 d => 52%N :: uint_codes d
  | Decimal.D5 d => 53%N :: uint_codes d
  | Decimal.D6 d => 54%N :: uint_codes d
  | Decimal.D7 d => 55%N :: uint_codes d
  | Decimal.D8 d => 56%N :: uint_codes d
  | Decimal.D9 d => 57%N :: uint_codes d
  end.

Definition decimal (n : nat) : jsstring := uint_codes (Nat.to_uint n).

Definition isDigit (c : N) : bool := ((48 <=? c) && (c <=? 57))%N.

(** [String.prototype.substring] with two indices. *)
Definition substring (s : jsstring) (a b : nat) : jsstring :=
  skipn (Nat.min a b) (firstn (Nat.max a b) s).

(** [s.replace(/[:.]/g, "-")]. *)
Definition replaceColonsAndDots (s : jsstring) : jsstring :=
  map (fun c => if ((c =? 58) || (c =? 46))%N then 45%N else c) s.

(** A model as [models.list()] shows it. *)
Record Model : Type := {
  model_name : option jsstring
}.

(** The object built by a tool handler as [output]. *)
Record ToolOutput : Type := {
  success : bool;
  filePaths : option (list jsstring);
  filenames : option (list jsstring);
  count : nat;
  message : jsstring
}.

(** What a tool handler returns: the text of [content], the structured
    content, and [isError] when it is set. *)
Record ToolResult : Type := {
  content_text : jsstring;
  structuredContent : ToolOutput;
  isError : option bool
}.

(** What the surroundings of the service do besides the provider's
    generation calls. *)
Inductive HostEvent : Type :=
| CallModelsList (t : Z)
| ConsoleErrorValidation (error : thrown)
| Mkdir (dir : jsstring)
| WriteFile (path : jsstring) (data : Buffer).

(** The rest of the outside: the clock rendered by [toISOString], the
    successive values of [Math.random().toString(36)], the path functions
    of Node, the configured storage path, the file system's answers to the
    k-th save, the rendering of an output by [JSON.stringify(output, null,
    2)], the answer to [models.list()] (its first page) and the string
    that a template literal makes of a caught value. *)
Record Host : Type := {
  Date_toISOString : Z -> jsstring;
  Math_random_toString36 : nat -> jsstring;
  path_join : jsstring -> jsstring -> jsstring;
  path_dirname : jsstring -> jsstring;
  CONFIG_storage_path : jsstring;
  existsSync_reply : nat -> bool;
  mkdir_reply : nat -> option thrown;
  writeFile_reply : nat -> option thrown;
  save_elapsed : nat -> Z;
  JSON_stringify_output : ToolOutput -> jsstring;
  models_list_reply : thrown + list Model;
  models_list_latency : Z;
  String_of_thrown : thrown -> jsstring
}.

(** The state threaded through a handler: the world of the service, how
    many random numbers and saves were consumed, and what was done to the
    file system and the rest, oldest first. *)
Record Machine : Type := {
  world : World;
  randoms : nat;
  saves : nat;
  journal : list HostEvent
}.

Definition start (t0 : Z) : Machine :=
  {| world := boot t0; randoms := 0; saves := 0; journal := [] |}.

Definition T (A : Type) : Type := Machine -> Outcome A * Machine.

Definition tret {A : Type} (a : A) : T A := fun m => (Returned a, m).

Definition tbind {A B : Type} (c : T A) (k : A -> T B) : T B :=
  fun m =>
    match c m with
    | (Returned a, m') => k a m'
    | (Threw e, m') => (Threw e, m')
    | (Unfinished, m') => (Unfinished, m')
    end.

Definition tthrow {A : Type} (e : thrown) : T A := fun m => (Threw e, m).

(** [try { body } catch (error) { handler }] in a handler. *)
Definition ttry_catch {A : Type} (body : T A) (handler : thrown -> T A) : T A :=
  fun m =>
    match body m with
    | (Threw e, m') => handler e m'
    | r => r
    end.

(** A call into the service. *)
Definition inService {A : Type} (c : M A) : T A :=
  fun m =>
    let (r, w') := c (world m) in
    (r, {| world := w'; randoms := randoms m; saves := saves m;
           journal := journal m |}).

Definition record (e : HostEvent) : T unit :=
  fun m => (Returned tt,
            {| world := world m; randoms := randoms m; saves := saves m;
               journal := journal m ++ [e] |}).

Declare Scope tool_scope.
Delimit Scope tool_scope with tool.
Notation "x <- c ;; k" := (tbind c (fun x => k))
  (at level 100, c at next level, right associativity) : tool_scope.
Notation "c ;;; k" := (tbind c (fun _ => k))
  (at level 100, right associativity) : tool_scope.

(** The arguments of the [generate-image] tool, as its handler
    destructures them. *)
Module GenerateImageArgs.
Record t : Type := {
  prompt : jsstring;
  numberOfImages : option number;
  aspectRatio : option jsstring;
  negativePrompt : option jsstring;
  guidanceScale : option number;
  seed : option number;
  enhancePrompt : option bool;
  outputMimeType : option jsstring;
  imageSize : option jsstring
}.
End GenerateImageArgs.

(** The arguments of the [generate-video] tool. *)
Module GenerateVideoArgs.
Record t : Type := {
  prompt : jsstring;
  numberOfVideos : option number;
  durationSeconds : option number;
  aspectRatio : option jsstring;
  resolution : option jsstring;
  fps : option number;
  seed : option number;
  negativePrompt : option jsstring;
  enhancePrompt : option bool;
  generateAudio : option bool;
  lastFrame : option Image;
  referenceImages : option (list VideoGenerationReferenceImage)
}.
End GenerateVideoArgs.

(** The object [options] built by the [generate-image] handler. *)
Definition imageToolOptions (args : GenerateImageArgs.t)
  : ImageGenerationOptions.t :=
  {| ImageGenerationOptions.aspectRatio := GenerateImageArgs.aspectRatio args;
     ImageGenerationOptions.numberOfImages :=
       GenerateImageArgs.numberOfImages args;
     ImageGenerationOptions.negativePrompt :=
       GenerateImageArgs.negativePrompt args;
     ImageGenerationOptions.language := None;
     ImageGenerationOptions.guidanceScale :=
       GenerateImageArgs.guidanceScale args;
     ImageGenerationOptions.seed := GenerateImageArgs.seed args;
     ImageGenerationOptions.safetyFilterLevel := None;
     ImageGenerationOptions.personGeneration := None;
     ImageGenerationOptions.includeSafetyAttributes := None;
     ImageGenerationOptions.includeRaiReason := None;
     ImageGenerationOptions.outputMimeType :=
       GenerateImageArgs.outputMimeType args;
     ImageGenerationOptions.outputCompressionQuality := Some (num 100);
     ImageGenerationOptions.addWatermark := None;
     ImageGenerationOptions.imageSize := GenerateImageArgs.imageSize args;
     ImageGenerationOptions.enhancePrompt :=
       GenerateImageArgs.enhancePrompt args;
     ImageGenerationOptions.outputGcsUri := None |}.

(** The object [options] built by the [generate-video] handler. *)
Definition videoToolOptions (args : GenerateVideoArgs.t)
  : VideoGenerationOptions.t :=
  {| VideoGenerationOptions.numberOfVideos :=
       GenerateVideoArgs.numberOfVideos args;
     VideoGenerationOptions.durationSeconds :=
       GenerateVideoArgs.durationSeconds args;
     VideoGenerationOptions.aspectRatio := GenerateVideoArgs.aspectRatio args;
     VideoGenerationOptions.resolution := GenerateVideoArgs.resolution args;
     VideoGenerationOptions.fps := GenerateVideoArgs.fps args;
     VideoGenerationOptions.seed := GenerateVideoArgs.seed args;
     VideoGenerationOptions.negativePrompt :=
       GenerateVideoArgs.negativePrompt args;
     VideoGenerationOptions.enhancePrompt :=
       GenerateVideoArgs.enhancePrompt args;
     VideoGenerationOptions.generateAudio :=
       GenerateVideoArgs.generateAudio args;
     VideoGenerationOptions.personGeneration := None;
     VideoGenerationOptions.compressionQuality := None;
     VideoGenerationOptions.outputGcsUri := None;
     VideoGenerationOptions.lastFrame := GenerateVideoArgs.lastFrame args;
     VideoGenerationOptions.referenceImages :=
       GenerateVideoArgs.referenceImages args |}.

Section Tools.

Variable rt : Runtime.
Variable host : Host.

Local Open Scope tool_scope.

(** [await this.genAI.models.list()], then its [page]. *)
Definition genAI_models_list : T (list Model) :=
  fun m =>
    let w := world m in
    let m' := {| world := {| now := now w + models_list_latency host;
                             timers := timers w; polls := polls w;
                             trace := trace w |};
                 randoms := randoms m; saves := saves m;
                 journal := journal m ++ [CallModelsList (now w)] |} in
    match models_list_reply host with
    | inl e => (Threw e, m')
    | inr page => (Returned page, m')
    end.

(** [validateService]. *)
Definition validateService : T bool :=
  ttry_catch
    (page <- genAI_models_list ;;
     tret (0 <? List.length page)%nat)
    (fun error =>
       record (ConsoleErrorValidation error) ;;;
       tret false).

(** [getAvailableModels]:
    [pager.page.map((model) => model.name || "").filter(Boolean) || []]. *)
Definition getAvailableModels : T (list jsstring) :=
  ttry_catch
    (page <- genAI_models_list ;;
     tret (filter (fun s => match s with [] => false | _ => true end)
             (map (fun model => match model_name model with
                                | Some (c :: s) => c :: s
                                | _ => []
                                end) page)))
    (fun error =>
       tthrow (JsError (lit "Failed to retrieve available models: "
                        ++ String_of_thrown host error))).

(** [StorageService.generateFilename]. *)
Definition generateFilename (prefix extension : jsstring) : T jsstring :=
  fun m =>
    let timestamp :=
      replaceColonsAndDots (Date_toISOString host (now (world m))) in
    let random :=
      substring (Math_random_toString36 host (randoms m)) 2 8 in
    (Returned (prefix ++ lit "_" ++ timestamp ++ lit "_" ++ random
               ++ lit "." ++ extension),
     {| world := world m; randoms := S (randoms m); saves := saves m;
        journal := journal m |}).

(** [StorageService.ensureDirectory]. *)
Definition ensureDirectory (filePath : jsstring) : T unit :=
  fun m =>
    let dir := path_dirname host filePath in
    if existsSync_reply host (saves m) then (Returned tt, m)
    else
      match mkdir_reply host (saves m) with
      | Some e => (Threw e, m)
      | None =>
          (Returned tt,
           {| world := world m; randoms := randoms m; saves := saves m;
              journal := journal m ++ [Mkdir dir] |})
      end.

(** [await writeFile(filePath, data)]; the save is over, time has
    passed. *)
Definition writeFile (filePath : jsstring) (data : Buffer) : T unit :=
  fun m =>
    let k := saves m in
    let w := world m in
    let w' := {| now := now w + save_elapsed host k; timers := timers w;
                 polls := polls w; trace := trace w |} in
    match writeFile_reply host k with
    | Some e =>
        (Threw e,
         {| world := w'; randoms := randoms m; saves := S k;
            journal := journal m |})
    | None =>
        (Returned tt,
         {| world := w'; randoms := randoms m; saves := S k;
            journal := journal m ++ [WriteFile filePath data] |})
    end.

(** [StorageService.saveImage]. *)
Definition saveImage (data : Buffer) (filename : jsstring) : T jsstring :=
  let filePath := path_join host (CONFIG_storage_path host) filename in
  ensureDirectory filePath ;;;
  writeFile filePath data ;;;
  tret filePath.

(** [StorageService.saveVideo]: the same body. *)
Definition saveVideo (data : Buffer) (filename : jsstring) : T jsstring :=
  let filePath := path_join host (CONFIG_storage_path host) filename in
  ensureDirectory filePath ;;;
  writeFile filePath data ;;;
  tret filePath.

(** [options.outputMimeType === "image/png" ? "png" : "jpg"]. *)
Definition imageFileExtension (options : ImageGenerationOptions.t)
  : jsstring :=
  match ImageGenerationOptions.outputMimeType options with
  | Some mime => if string_eqb mime (lit "image/png") then lit "png"
                 else lit "jpg"
  | None => lit "jpg"
  end.

(** The loop [for (let i = 0; i < imageBuffers.length; i++)] of the
    [generate-image] handler, threading [i], [filePaths], [filenames]. *)
Fixpoint saveImages (options : ImageGenerationOptions.t)
  (imageBuffers : list Buffer) (i : nat) (filePaths filenames : list jsstring)
  : T (list jsstring * list jsstring) :=
  match imageBuffers with
  | [] => tret (filePaths, filenames)
  | buffer :: rest =>
      let fileExtension := imageFileExtension options in
      filename <- generateFilename (lit "image_" ++ decimal (i + 1))
                    fileExtension ;;
      filePath <- saveImage buffer filename ;;
      saveImages options rest (S i) (filePaths ++ [filePath])
        (filenames ++ [filename])
  end.

(** The same loop of the [generate-video] handler. *)
Fixpoint saveVideos (videoBuffers : list Buffer) (i : nat)
  (filePaths filenames : list jsstring)
  : T (list jsstring * list jsstring) :=
  match videoBuffers with
  | [] => tret (filePaths, filenames)
  | buffer :: rest =>
      filename <- generateFilename (lit "video_" ++ decimal (i + 1))
                    (lit "mp4") ;;
      filePath <- saveVideo buffer filename ;;
      saveVideos rest (S i) (filePaths ++ [filePath]) (filenames ++ [filename])
  end.

(** [xs.length > 0 ? xs : undefined]. *)
Definition orUndefined (xs : list jsstring) : option (list jsstring) :=
  match xs with
  | [] => None
  | _ => Some xs
  end.

(** The response of a handler that succeeded. *)
Definition successResult (filePaths filenames : list jsstring) (n : nat)
  (what : string) : ToolResult :=
  let output :=
    {| success := true;
       filePaths := orUndefined filePaths;
       filenames := orUndefined filenames;
       count := n;
       message := decimal n ++ lit what |} in
  {| content_text := JSON_stringify_output host output;
     structuredContent := output;
     isError := None |}.

(** The response built in the [catch] clause of a handler. *)
Definition failureResult (failed : string) (error : thrown) : ToolResult :=
  let errorMessage :=
    match error with
    | JsError m => m
    | NonError => lit "Unknown error"
    end in
  let output :=
    {| success := false;
       filePaths := None;
       filenames := None;
       count := 0;
       message := lit failed ++ errorMessage |} in
  {| content_text := JSON_stringify_output host output;
     structuredContent := output;
     isError := Some true |}.

(** The handler of the [generate-image] tool. *)
Definition generateImageTool (args : GenerateImageArgs.t) : T ToolResult :=
  ttry_catch
    (let options := imageToolOptions args in
     imageBuffers <-
       inService (generateImage rt (GenerateImageArgs.prompt args) options) ;;
     saved <- saveImages options imageBuffers 0 [] [] ;;
     tret (successResult (fst saved) (snd saved) (List.length imageBuffers)
             " image(s) generated and saved"))
    (fun error => tret (failureResult "Failed to generate image: " error)).

(** The handler of the [generate-video] tool. *)
Definition generateVideoTool (fuel : nat) (args : GenerateVideoArgs.t)
  : T ToolResult :=
  ttry_catch
    (let options := videoToolOptions args in
     videoBuffers <-
       inService
         (generateVideo rt fuel (GenerateVideoArgs.prompt args) options) ;;
     saved <- saveVideos videoBuffers 0 [] [] ;;
     tret (successResult (fst saved) (snd saved) (List.length videoBuffers)
             " video(s) generated and saved"))
    (fun error => tret (failureResult "Failed to generate video: " error)).

End Tools.

(** ** Reading a journal *)

(** The files written, oldest first. *)
Definition filesWritten (j : list HostEvent) : list (jsstring * Buffer) :=
  flat_map (fun e => match e with
                     | WriteFile path data => [(path, data)]
                     | _ => []
                     end) j.

(** The k-th save finds or makes its directory and writes its file. *)
Definition saveSucceeds (host : Host) (k : nat) : Prop :=
  (existsSync_reply host k = true \/ mkdir_reply host k = None)
  /\ writeFile_reply host k = None.

(** ** What the tool schemas admit

    The [inputSchema] of each tool, read as a predicate on the arguments
    the handler receives: a [z.number()] is a number other than NaN, and
    [.min(a).max(b)] bounds it; a [z.enum] is one of its strings; every
    field but the prompt is optional. *)
Definition zNumber (lo hi : Z) (x : option number) : Prop :=
  when_present (in_range lo hi) x.

Definition zEnum (values : list jsstring) (x : option jsstring) : Prop :=
  when_present (fun s => In s values) x.

Definition imageInputSchema (args : GenerateImageArgs.t) : Prop :=
  zNumber 1 8 (GenerateImageArgs.numberOfImages args)
  /\ zEnum [lit "1:1"; lit "3:4"; lit "4:3"; lit "9:16"; lit "16:9"]
       (GenerateImageArgs.aspectRatio args)
  /\ zEnum [lit "1K"; lit "2K"] (GenerateImageArgs.imageSize args)
  /\ zEnum [lit "image/png"; lit "image/jpeg"]
       (GenerateImageArgs.outputMimeType args)
  /\ zNumber 1 20 (GenerateImageArgs.guidanceScale args)
  /\ when_present notNaN (GenerateImageArgs.seed args).

Definition videoInputSchema (args : GenerateVideoArgs.t) : Prop :=
  zNumber 1 4 (GenerateVideoArgs.numberOfVideos args)
  /\ zNumber 4 8 (GenerateVideoArgs.durationSeconds args)
  /\ zEnum [lit "16:9"; lit "9:16"] (GenerateVideoArgs.aspectRatio args)
  /\ zEnum [lit "720p"; lit "1080p"] (GenerateVideoArgs.resolution args)
  /\ zNumber 8 30 (GenerateVideoArgs.fps args)
  /\ when_present notNaN (GenerateVideoArgs.seed args).

(** [String.prototype.startsWith]. *)
Fixpoint startsWith (prefix s : jsstring) : bool :=
  match prefix, s with
  | [], _ => true
  | p :: prefix', c :: s' => (p =? c)%N && startsWith prefix' s'
  | _ :: _, [] => false
  end.

(** The common shape of the two saving loops: file names
    [<word><i+1>_<timestamp>_<random>.<extension>]. *)
Fixpoint saveLoop (host : Host) (word extension : jsstring)
  (buffers : list Buffer) (i : nat) (filePaths filenames : list jsstring)
  : T (list jsstring * list jsstring) :=
  match buffers with
  | [] => tret (filePaths, filenames)
  | buffer :: rest =>
      tbind (generateFilename host (word ++ decimal (i + 1)) extension)
        (fun filename =>
           tbind (saveImage host buffer filename)
             (fun filePath =>
                saveLoop host word extension rest (S i)
                  (filePaths ++ [filePath]) (filenames ++ [filename])))
  end.

(** An answer whose only item has no data, and a finished operation whose
    only item has neither bytes nor locator. *)
Definition rt_imagesEmpty : Runtime :=
  sampleRuntime (inr {| generatedImages := Some [ {| image := None |} ] |})
    (inr pendingOperation) (fun _ => inr pendingOperation).

Definition rt_videoUnusable : Runtime :=
  sampleRuntime noImages
    (inr (finishedWith [ {| video := None |} ]))
    (fun _ => inr pendingOperation).

(** Options with a frame rate and a count out of range. *)
Definition videoOptions_fiveVideos : VideoGenerationOptions.t :=
  {| VideoGenerationOptions.numberOfVideos := Some (num 5);
     VideoGenerationOptions.durationSeconds := Some (num 1);
     VideoGenerationOptions.aspectRatio := None;
     VideoGenerationOptions.resolution := None;
     VideoGenerationOptions.fps := Some (num 24);
     VideoGenerationOptions.seed := None;
     VideoGenerationOptions.negativePrompt := None;
     VideoGenerationOptions.enhancePrompt := None;
     VideoGenerationOptions.generateAudio := None;
     VideoGenerationOptions.personGeneration := None;
     VideoGenerationOptions.compressionQuality := None;
     VideoGenerationOptions.outputGcsUri := None;
     VideoGenerationOptions.lastFrame := None;
     VideoGenerationOptions.referenceImages := None |}.

(** Options with no image at all (Scenario C). *)
Definition imageOptions_noImages : ImageGenerationOptions.t :=
  {| ImageGenerationOptions.aspectRatio := None;
     ImageGenerationOptions.numberOfImages := Some (num 0);
     ImageGenerationOptions.negativePrompt := None;
     ImageGenerationOptions.language := None;
     ImageGenerationOptions.guidanceScale := None;
     ImageGenerationOptions.seed := None;
     ImageGenerationOptions.safetyFilterLevel := None;
     ImageGenerationOptions.personGeneration := None;
     ImageGenerationOptions.includeSafetyAttributes := None;
     ImageGenerationOptions.includeRaiReason := None;
     ImageGenerationOptions.outputMimeType := Some (lit "image/gif");
     ImageGenerationOptions.outputCompressionQuality := None;
     ImageGenerationOptions.addWatermark := None;
     ImageGenerationOptions.imageSize := None;
     ImageGenerationOptions.enhancePrompt := None;
     ImageGenerationOptions.outputGcsUri := None |}.

(** The names [<word><i+1>_<timestamp>_<random>.<extension>],
    [<word><i+2>_...], ... with timestamps free of colons and dots. *)
Fixpoint namesFrom (word extension : jsstring) (i : nat)
  (names : list jsstring) : Prop :=
  match names with
  | [] => True
  | n :: rest =>
      (exists timestamp random,
         n = word ++ decimal (i + 1) ++ lit "_" ++ timestamp ++ lit "_"
             ++ random ++ lit "." ++ extension
         /\ Forall (fun c => c <> 58%N /\ c <> 46%N) timestamp
         /\ (List.length random <= 6)%nat)
      /\ namesFrom word extension (S i) rest
  end.

(** A host for the sample runs: a fixed time stamp, a fixed random
    string, paths joined with a slash, a disk that accepts everything but
    the save number [failing]. *)
Definition sampleHost (failing : nat) : Host :=
  {| Date_toISOString := fun _ => lit "2025-01-02T03:04:05.678Z";
     Math_random_toString36 := fun _ => lit "0.k3j9x2mq8";
     path_join := fun a b => a ++ lit "/" ++ b;
     path_dirname := fun p => lit "./generated";
     CONFIG_storage_path := lit "./generated";
     existsSync_reply := fun _ => true;
     mkdir_reply := fun _ => None;
     writeFile_reply :=
       fun k => if (k =? failing)%nat then Some (Error "ENOSPC: no space left")
                else None;
     save_elapsed := fun _ => 3;
     JSON_stringify_output := fun o => message o;
     models_list_reply :=
       inr [ {| model_name := Some (lit "models/imagen-4.0") |};
             {| model_name := None |};
             {| model_name := Some [] |};
             {| model_name := Some (lit "models/veo-3.0") |} ];
     models_list_latency := 120;
     String_of_thrown :=
       fun e => match e with
                | JsError m => lit "Error: " ++ m
                | NonError => lit "[object Object]"
                end |}.

(** The provider answers the image request with two inline items. *)
Definition rt_twoImages : Runtime :=
  sampleRuntime
    (inr {| generatedImages :=
              Some [ inlineImageItem "AAEC"; inlineImageItem "AwQF" ] |})
    (inr pendingOperation) (fun _ => inr pendingOperation).

(** Arguments that give the prompt only. *)
Definition imageArgs_promptOnly (prompt : jsstring) : GenerateImageArgs.t :=
  {| GenerateImageArgs.prompt := prompt;
     GenerateImageArgs.numberOfImages := None;
     GenerateImageArgs.aspectRatio := None;
     GenerateImageArgs.negativePrompt := None;
     GenerateImageArgs.guidanceScale := None;
     GenerateImageArgs.seed := None;
     GenerateImageArgs.enhancePrompt := None;
     GenerateImageArgs.outputMimeType := None;
     GenerateImageArgs.imageSize := None |}.

Definition videoArgs_promptOnly (prompt : jsstring) : GenerateVideoArgs.t :=
  {| GenerateVideoArgs.prompt := prompt;
     GenerateVideoArgs.numberOfVideos := None;
     GenerateVideoArgs.durationSeconds := None;
     GenerateVideoArgs.aspectRatio := None;
     GenerateVideoArgs.resolution := None;
     GenerateVideoArgs.fps := None;
     GenerateVideoArgs.seed := None;
     GenerateVideoArgs.negativePrompt := None;
     GenerateVideoArgs.enhancePrompt := None;
     GenerateVideoArgs.generateAudio := None;
     GenerateVideoArgs.lastFrame := None;
     GenerateVideoArgs.referenceImages := None |}.

(** The machine once the service has moved its world. *)
Definition withWorld (m : Machine) (w : World) : Machine :=
  {| world := w; randoms := randoms m; saves := saves m;
     journal := journal m |}.

(** The response is shaped as a success: the flag, at least one file, as
    many names and paths as the count says. *)
Definition successShaped (host : Host) (res : ToolResult) : Prop :=
  isError res = None
  /\ success (structuredContent res) = true
  /\ (1 <= count (structuredContent res))%nat
  /\ exists names,
       filenames (structuredContent res) = Some names
       /\ filePaths (structuredContent res)
          = Some (map (path_join host (CONFIG_storage_path host)) names)
       /\ List.length names = count (structuredContent res)
       /\ NoDup names.

(** The response is shaped as a failure: the error flag, no file listed,
    a count of zero, a message that starts with [failed]. *)
Definition failureShaped (failed : string) (res : ToolResult) : Prop :=
  isError res = Some true
  /\ success (structuredContent res) = false
  /\ count (structuredContent res) = 0%nat
  /\ filePaths (structuredContent res) = None
  /\ filenames (structuredContent res) = None
  /\ startsWith (lit failed) (message (structuredContent res)) = true.

(** The k-th save throws [e]: making the directory fails, or the
    directory is there and writing the file fails. *)
Definition saveFails (host : Host) (k : nat) (e : thrown) : Prop :=
  (existsSync_reply host k = false /\ mkdir_reply host k = Some e)
  \/ ((existsSync_reply host k = true \/ mkdir_reply host k = None)
      /\ writeFile_reply host k = Some e).

(** [String.prototype.endsWith]. *)
Definition endsWith (suffix s : jsstring) : bool :=
  startsWith (rev suffix) (rev s).

(** The two buffers that the sample decoder makes of [AAEC] and [AwQF]. *)
Definition twoBuffers : list Buffer :=
  [[Byte.x00; Byte.x01; Byte.x02]; [Byte.x03; Byte.x04; Byte.x05]].

(** The submission already returns a finished operation with two inline
    items. *)
Definition rt_twoVideos : Runtime :=
  sampleRuntime noImages
    (inr (finishedWith [inlineVideoItem "AAEC"; inlineVideoItem "AwQF"]))
    (fun _ => inr pendingOperation).

(** The sample calls of the two handlers, on a disk that takes every
    file, and the responses they give. *)
Definition run_twoImages : Outcome ToolResult * Machine :=
  generateImageTool rt_twoImages (sampleHost 99)
    (imageArgs_promptOnly samplePrompt) (start 0).

Definition res_twoImages : ToolResult :=
  successResult (sampleHost 99)
    [lit "./generated/image_1_2025-01-02T03-04-05-678Z_k3j9x2.jpg";
     lit "./generated/image_2_2025-01-02T03-04-05-678Z_k3j9x2.jpg"]
    [lit "image_1_2025-01-02T03-04-05-678Z_k3j9x2.jpg";
     lit "image_2_2025-01-02T03-04-05-678Z_k3j9x2.jpg"]
    2 " image(s) generated and saved".

Definition run_twoVideos : Outcome ToolResult * Machine :=
  generateVideoTool rt_twoVideos (sampleHost 99) 41
    (videoArgs_promptOnly samplePrompt) (start 0).

Definition res_twoVideos : ToolResult :=
  successResult (sampleHost 99)
    [lit "./generated/video_1_2025-01-02T03-04-05-678Z_k3j9x2.mp4";
     lit "./generated/video_2_2025-01-02T03-04-05-678Z_k3j9x2.mp4"]
    [lit "video_1_2025-01-02T03-04-05-678Z_k3j9x2.mp4";
     lit "video_2_2025-01-02T03-04-05-678Z_k3j9x2.mp4"]
    2 " video(s) generated and saved".

(** Arguments that use the numeric and the enumerated fields. *)
Definition imageArgs_sample : GenerateImageArgs.t :=
  {| GenerateImageArgs.prompt := samplePrompt;
     GenerateImageArgs.numberOfImages := Some (num 2);
     GenerateImageArgs.aspectRatio := Some (lit "16:9");
     GenerateImageArgs.negativePrompt := Some (lit "fog");
     GenerateImageArgs.guidanceScale := Some (num 7);
     GenerateImageArgs.seed := Some (num 1234);
     GenerateImageArgs.enhancePrompt := Some true;
     GenerateImageArgs.outputMimeType := Some (lit "image/png");
     GenerateImageArgs.imageSize := Some (lit "2K") |}.

Definition videoArgs_sample : GenerateVideoArgs.t :=
  {| GenerateVideoArgs.prompt := samplePrompt;
     GenerateVideoArgs.numberOfVideos := Some (num 2);
     GenerateVideoArgs.durationSeconds := Some (num 8);
     GenerateVideoArgs.aspectRatio := Some (lit "9:16");
     GenerateVideoArgs.resolution := Some (lit "1080p");
     GenerateVideoArgs.fps := Some (num 24);
     GenerateVideoArgs.seed := Some (num 1234);
     GenerateVideoArgs.negativePrompt := None;
     GenerateVideoArgs.enhancePrompt := None;
     GenerateVideoArgs.generateAudio := Some true;
     GenerateVideoArgs.lastFrame := None;
     GenerateVideoArgs.referenceImages := None |}.

(** A prompt of white space only. *)
Definition blankPrompt : jsstring := lit "   ".

(* ================================================================== *)
(** * Properties *)

(** ** Numbers, strings and membership *)

Lemma string_eqb_eq (a b : jsstring) : string_eqb a b = true <-> a = b.
Proof.
  unfold string_eqb. destruct (list_eq_dec N.eq_dec a b); split; congruence.
Qed.

Lemma includes_In (l : list jsstring) (x : jsstring) :
  includes l x = true <-> In x l.
Proof.
  unfold includes. rewrite existsb_exists. split.
  - intros [y [Hy Heq]]. apply string_eqb_eq in Heq. now subst.
  - intros H. exists x. split; [assumption | now apply string_eqb_eq].
Qed.

(** The test [x < lo || x > hi] of the validators rejects exactly the
    numbers outside the range, NaN apart. *)
Lemma range_test_in_range (lo hi : Z) (x : number) :
  notNaN x ->
  (((x <. num lo) || (x >. num hi))%js = false <-> in_range lo hi x).
Proof.
  intros Hx. destruct x as [q | | |]; simpl.
  - unfold JS.gt, JS.lt, num.
    rewrite orb_false_iff, !negb_false_iff, !Qle_bool_iff. tauto.
  - split; [discriminate | tauto].
  - split; [discriminate | tauto].
  - now contradiction Hx.
Qed.

(** NaN passes it whatever the bounds. *)
Lemma range_test_NaN (lo hi : number) :
  ((NaN <. lo) || (NaN >. hi))%js = false.
Proof. unfold JS.gt. now destruct lo, hi. Qed.

(** A number in range passes it. *)
Lemma in_range_passes (lo hi : Z) (x : number) :
  in_range lo hi x -> ((x <. num lo) || (x >. num hi))%js = false.
Proof.
  intros H. apply range_test_in_range; [| assumption].
  intros ->. exact H.
Qed.

(** A number that fails it is out of range. *)
Lemma range_test_rejects (lo hi : Z) (x : number) :
  ((x <. num lo) || (x >. num hi))%js = true -> ~ in_range lo hi x.
Proof.
  intros Ht Hin. apply in_range_passes in Hin. congruence.
Qed.

Lemma withDefault_notNaN (d : number) (x : option number) :
  notNaN d -> when_present notNaN x -> notNaN (withDefault d x).
Proof. destruct x; simpl; auto. Qed.

Lemma num_notNaN (z : Z) : notNaN (num z).
Proof. discriminate. Qed.

Create HintDb validators.
#[local] Hint Resolve withDefault_notNaN num_notNaN : validators.

(** ** The video validator *)

(** Decides one numeric test of a validator: either the test fires and the
    value is out of range, or it does not and (the value not being NaN)
    the value is in range. *)
Ltac range_case lo hi x Hdef :=
  let E := fresh "E" in
  let R := fresh "R" in
  destruct ((x <. num lo) || (x >. num hi))%js eqn:E;
  [ apply range_test_rejects in E
  | apply (range_test_in_range lo hi x Hdef) in E ].

Ltac includes_case l x :=
  let E := fresh "E" in
  destruct (includes l x) eqn:E;
  [ apply includes_In in E
  | assert (~ In x l) by (rewrite <- includes_In; congruence) ].

(** Options that keep the rules are accepted (NaN is in no range, so no
    side condition is needed in this direction). *)
Lemma validateVideoOptions_accepts (o : VideoGenerationOptions.t) :
  videoRules o -> validateVideoOptions o = inr tt.
Proof.
  intros (R1 & R2 & R3 & R4 & R5). unfold validateVideoOptions. cbv zeta.
  rewrite (in_range_passes _ _ _ R1), (in_range_passes _ _ _ R2).
  destruct (VideoGenerationOptions.fps o) as [f |]; cbn [when_present] in R3.
  - rewrite (in_range_passes _ _ _ R3).
    apply includes_In in R4. apply includes_In in R5.
    now rewrite R4, R5.
  - apply includes_In in R4. apply includes_In in R5.
    now rewrite R4, R5.
Qed.

(** On options whose numbers are not NaN, the validator accepts exactly
    the options that keep the rules. *)
Lemma validateVideoOptions_iff (o : VideoGenerationOptions.t) :
  videoNumbersDefined o ->
  (validateVideoOptions o = inr tt <-> videoRules o).
Proof.
  intros (D1 & D2 & D3). split; [| apply validateVideoOptions_accepts].
  unfold validateVideoOptions, videoRules. cbv zeta.
  assert (N1 : notNaN (withDefault (num 1)
                         (VideoGenerationOptions.numberOfVideos o)))
    by auto with validators.
  assert (N2 : notNaN (withDefault (num 5)
                         (VideoGenerationOptions.durationSeconds o)))
    by auto with validators.
  range_case 1 4 (withDefault (num 1)
                    (VideoGenerationOptions.numberOfVideos o)) N1;
    [cbv iota; discriminate |].
  range_case 2 10 (withDefault (num 5)
                     (VideoGenerationOptions.durationSeconds o)) N2;
    [cbv iota; discriminate |].
  destruct (VideoGenerationOptions.fps o) as [f |]; cbn [when_present] in D3 |- *; cbv beta iota.
  - range_case 8 30 f D3; [cbv iota; discriminate |].
    includes_case [lit "16:9"; lit "9:16"]
      (withDefault (lit "16:9") (VideoGenerationOptions.aspectRatio o));
      [| cbv iota; discriminate].
    includes_case [lit "720p"; lit "1080p"]
      (withDefault (lit "720p") (VideoGenerationOptions.resolution o));
      [| cbv iota; discriminate].
    simpl. tauto.
  - includes_case [lit "16:9"; lit "9:16"]
      (withDefault (lit "16:9") (VideoGenerationOptions.aspectRatio o));
      [| cbv iota; discriminate].
    includes_case [lit "720p"; lit "1080p"]
      (withDefault (lit "720p") (VideoGenerationOptions.resolution o));
      [| cbv iota; discriminate].
    simpl. tauto.
Qed.

(** Whatever the numbers, a rejection means that a rule is broken. *)
Lemma validateVideoOptions_rejects (o : VideoGenerationOptions.t)
  (e : thrown) :
  validateVideoOptions o = inl e -> ~ videoRules o.
Proof.
  intros He Hr. apply validateVideoOptions_accepts in Hr. congruence.
Qed.

(** Fail-fast: on options whose numbers are not NaN, the error is the one
    of the first broken rule, and it names the field and its range. *)
Lemma validateVideoOptions_first_violation (o : VideoGenerationOptions.t) :
  videoNumbersDefined o ->
  let count :=
    withDefault (num 1) (VideoGenerationOptions.numberOfVideos o) in
  let duration :=
    withDefault (num 5) (VideoGenerationOptions.durationSeconds o) in
  let rate := VideoGenerationOptions.fps o in
  let ratio :=
    withDefault (lit "16:9") (VideoGenerationOptions.aspectRatio o) in
  let resolution :=
    withDefault (lit "720p") (VideoGenerationOptions.resolution o) in
  (~ in_range 1 4 count ->
   validateVideoOptions o = inl (Error "numberOfVideos must be between 1 and 4"))
  /\ (in_range 1 4 count -> ~ in_range 2 10 duration ->
      validateVideoOptions o
      = inl (Error "durationSeconds must be between 2 and 10"))
  /\ (in_range 1 4 count -> in_range 2 10 duration ->
      ~ when_present (in_range 8 30) rate ->
      validateVideoOptions o = inl (Error "fps must be between 8 and 30"))
  /\ (in_range 1 4 count -> in_range 2 10 duration ->
      when_present (in_range 8 30) rate ->
      ~ In ratio [lit "16:9"; lit "9:16"] ->
      validateVideoOptions o
      = inl (Error "aspectRatio must be one of: 16:9, 9:16"))
  /\ (in_range 1 4 count -> in_range 2 10 duration ->
      when_present (in_range 8 30) rate ->
      In ratio [lit "16:9"; lit "9:16"] ->
      ~ In resolution [lit "720p"; lit "1080p"] ->
      validateVideoOptions o
      = inl (Error "resolution must be one of: 720p, 1080p")).
Proof.
  intros (D1 & D2 & D3). cbv zeta.
  assert (N1 : notNaN (withDefault (num 1)
                         (VideoGenerationOptions.numberOfVideos o)))
    by auto with validators.
  assert (N2 : notNaN (withDefault (num 5)
                         (VideoGenerationOptions.durationSeconds o)))
    by auto with validators.
  unfold validateVideoOptions. cbv zeta.
  range_case 1 4 (withDefault (num 1)
                    (VideoGenerationOptions.numberOfVideos o)) N1.
  { repeat split; intros; try reflexivity; tauto. }
  range_case 2 10 (withDefault (num 5)
                     (VideoGenerationOptions.durationSeconds o)) N2.
  { repeat split; intros; try reflexivity; tauto. }
  destruct (VideoGenerationOptions.fps o) as [f |]; cbn [when_present] in D3 |- *; cbv beta iota.
  - range_case 8 30 f D3.
    { repeat split; intros; try reflexivity; tauto. }
    includes_case [lit "16:9"; lit "9:16"]
      (withDefault (lit "16:9") (VideoGenerationOptions.aspectRatio o)).
    + includes_case [lit "720p"; lit "1080p"]
        (withDefault (lit "720p") (VideoGenerationOptions.resolution o));
        repeat split; intros; try reflexivity; tauto.
    + repeat split; intros; try reflexivity; tauto.
  - includes_case [lit "16:9"; lit "9:16"]
      (withDefault (lit "16:9") (VideoGenerationOptions.aspectRatio o)).
    + includes_case [lit "720p"; lit "1080p"]
        (withDefault (lit "720p") (VideoGenerationOptions.resolution o));
        repeat split; intros; try reflexivity; tauto.
    + repeat split; intros; try reflexivity; tauto.
Qed.


(** ** The image validator *)

Lemma validateImageOptions_accepts (o : ImageGenerationOptions.t) :
  imageRules o -> validateImageOptions o = inr tt.
Proof.
  intros (R1 & R2 & R3 & R4 & R5). unfold validateImageOptions. cbv zeta.
  rewrite (in_range_passes _ _ _ R1), (in_range_passes _ _ _ R3).
  apply includes_In in R4. apply includes_In in R5.
  destruct (ImageGenerationOptions.guidanceScale o) as [g |];
    cbn [when_present] in R2.
  - rewrite (in_range_passes _ _ _ R2). now rewrite R4, R5.
  - now rewrite R4, R5.
Qed.

(** On options whose numbers are not NaN, the validator accepts exactly
    the options that keep the rules. *)
Lemma validateImageOptions_iff (o : ImageGenerationOptions.t) :
  imageNumbersDefined o ->
  (validateImageOptions o = inr tt <-> imageRules o).
Proof.
  intros (D1 & D2 & D3). split; [| apply validateImageOptions_accepts].
  unfold validateImageOptions, imageRules. cbv zeta.
  assert (N1 : notNaN (withDefault (num 1)
                         (ImageGenerationOptions.numberOfImages o)))
    by auto with validators.
  assert (N3 : notNaN (withDefault (num 85)
                         (ImageGenerationOptions.outputCompressionQuality o)))
    by auto with validators.
  range_case 1 8 (withDefault (num 1)
                    (ImageGenerationOptions.numberOfImages o)) N1;
    [cbv iota; discriminate |].
  destruct (ImageGenerationOptions.guidanceScale o) as [g |];
    cbn [when_present] in D2 |- *; cbv beta iota.
  - range_case 1 20 g D2; [cbv iota; discriminate |].
    range_case 1 100 (withDefault (num 85)
                        (ImageGenerationOptions.outputCompressionQuality o)) N3;
      [cbv iota; discriminate |].
    includes_case [lit "1:1"; lit "3:4"; lit "4:3"; lit "9:16"; lit "16:9"]
      (withDefault (lit "1:1") (ImageGenerationOptions.aspectRatio o));
      [| cbv iota; discriminate].
    includes_case [lit "image/jpeg"; lit "image/png"]
      (withDefault (lit "image/jpeg")
         (ImageGenerationOptions.outputMimeType o));
      [| cbv iota; discriminate].
    tauto.
  - range_case 1 100 (withDefault (num 85)
                        (ImageGenerationOptions.outputCompressionQuality o)) N3;
      [cbv iota; discriminate |].
    includes_case [lit "1:1"; lit "3:4"; lit "4:3"; lit "9:16"; lit "16:9"]
      (withDefault (lit "1:1") (ImageGenerationOptions.aspectRatio o));
      [| cbv iota; discriminate].
    includes_case [lit "image/jpeg"; lit "image/png"]
      (withDefault (lit "image/jpeg")
         (ImageGenerationOptions.outputMimeType o));
      [| cbv iota; discriminate].
    tauto.
Qed.

Lemma validateImageOptions_rejects (o : ImageGenerationOptions.t)
  (e : thrown) :
  validateImageOptions o = inl e -> ~ imageRules o.
Proof.
  intros He Hr. apply validateImageOptions_accepts in Hr. congruence.
Qed.

(** Fail-fast: on options whose numbers are not NaN, the error is the one
    of the first broken rule, and it names the field and its range. *)
Lemma validateImageOptions_first_violation (o : ImageGenerationOptions.t) :
  imageNumbersDefined o ->
  let count :=
    withDefault (num 1) (ImageGenerationOptions.numberOfImages o) in
  let scale := ImageGenerationOptions.guidanceScale o in
  let quality :=
    withDefault (num 85)
      (ImageGenerationOptions.outputCompressionQuality o) in
  let ratio :=
    withDefault (lit "1:1") (ImageGenerationOptions.aspectRatio o) in
  let encoding :=
    withDefault (lit "image/jpeg")
      (ImageGenerationOptions.outputMimeType o) in
  let ratios := [lit "1:1"; lit "3:4"; lit "4:3"; lit "9:16"; lit "16:9"] in
  (~ in_range 1 8 count ->
   validateImageOptions o = inl (Error "numberOfImages must be between 1 and 8"))
  /\ (in_range 1 8 count -> ~ when_present (in_range 1 20) scale ->
      validateImageOptions o
      = inl (Error "guidanceScale must be between 1 and 20"))
  /\ (in_range 1 8 count -> when_present (in_range 1 20) scale ->
      ~ in_range 1 100 quality ->
      validateImageOptions o
      = inl (Error "outputCompressionQuality must be between 1 and 100"))
  /\ (in_range 1 8 count -> when_present (in_range 1 20) scale ->
      in_range 1 100 quality -> ~ In ratio ratios ->
      validateImageOptions o
      = inl (Error "aspectRatio must be one of: 1:1, 3:4, 4:3, 9:16, 16:9"))
  /\ (in_range 1 8 count -> when_present (in_range 1 20) scale ->
      in_range 1 100 quality -> In ratio ratios ->
      ~ In encoding [lit "image/jpeg"; lit "image/png"] ->
      validateImageOptions o
      = inl (Error "outputMimeType must be one of: image/jpeg, image/png")).
Proof.
  intros (D1 & D2 & D3). cbv zeta.
  assert (N1 : notNaN (withDefault (num 1)
                         (ImageGenerationOptions.numberOfImages o)))
    by auto with validators.
  assert (N3 : notNaN (withDefault (num 85)
                         (ImageGenerationOptions.outputCompressionQuality o)))
    by auto with validators.
  unfold validateImageOptions. cbv zeta.
  range_case 1 8 (withDefault (num 1)
                    (ImageGenerationOptions.numberOfImages o)) N1.
  { repeat split; intros; try reflexivity; tauto. }
  destruct (ImageGenerationOptions.guidanceScale o) as [g |];
    cbn [when_present] in D2 |- *; cbv beta iota.
  - range_case 1 20 g D2.
    { repeat split; intros; try reflexivity; tauto. }
    range_case 1 100 (withDefault (num 85)
                        (ImageGenerationOptions.outputCompressionQuality o)) N3.
    { repeat split; intros; try reflexivity; tauto. }
    includes_case [lit "1:1"; lit "3:4"; lit "4:3"; lit "9:16"; lit "16:9"]
      (withDefault (lit "1:1") (ImageGenerationOptions.aspectRatio o)).
    + includes_case [lit "image/jpeg"; lit "image/png"]
        (withDefault (lit "image/jpeg")
           (ImageGenerationOptions.outputMimeType o));
        repeat split; intros; try reflexivity; tauto.
    + repeat split; intros; try reflexivity; tauto.
  - range_case 1 100 (withDefault (num 85)
                        (ImageGenerationOptions.outputCompressionQuality o)) N3.
    { repeat split; intros; try reflexivity; tauto. }
    includes_case [lit "1:1"; lit "3:4"; lit "4:3"; lit "9:16"; lit "16:9"]
      (withDefault (lit "1:1") (ImageGenerationOptions.aspectRatio o)).
    + includes_case [lit "image/jpeg"; lit "image/png"]
        (withDefault (lit "image/jpeg")
           (ImageGenerationOptions.outputMimeType o));
        repeat split; intros; try reflexivity; tauto.
    + repeat split; intros; try reflexivity; tauto.
Qed.


(* ================================================================== *)
(** ** One iteration of the polling loop *)

Section Polling.

Variable rt : Runtime.

Local Open Scope service_scope.

(** The loop body, whatever the fuel. *)
Lemma pollOperation_eq (fuel : nat) (startTime : Z)
  (operation : GenerateVideosOperation) :
  pollOperation rt fuel startTime operation
  = if truthy_bool (done operation) then ret operation
    else
      t <- Date_now ;;
      if t - startTime >? maxWaitTime then
        throw (Error "Video generation timed out after 10 minutes")
      else
        sleep rt pollInterval ;;;
        if truthy_string (name operation) then
          operation <- genAI_operations_getVideosOperation rt operation ;;
          match metadata operation with
          | Some m => console (LogProgress m)
          | None => ret tt
          end ;;;
          match fuel with
          | O => unfinished
          | S fuel' => pollOperation rt fuel' startTime operation
          end
        else
          throw (Error "Operation name is not available for polling").
Proof. destruct fuel; reflexivity. Qed.

(** [done] at the loop test: the loop is left at once, the world
    untouched. *)
Lemma pollOperation_done (fuel : nat) (startTime : Z)
  (operation : GenerateVideosOperation) (w : World) :
  truthy_bool (done operation) = true ->
  pollOperation rt fuel startTime operation w = (Returned operation, w).
Proof. intros H. rewrite pollOperation_eq, H. reflexivity. Qed.

(** Deadline check failed: the timeout error, the world untouched. *)
Lemma pollOperation_timeout (fuel : nat) (startTime : Z)
  (operation : GenerateVideosOperation) (w : World) :
  truthy_bool (done operation) = false ->
  maxWaitTime < now w - startTime ->
  pollOperation rt fuel startTime operation w
  = (Threw (Error "Video generation timed out after 10 minutes"), w).
Proof.
  intros Hd Ht. rewrite pollOperation_eq, Hd.
  unfold bind, Date_now.
  assert (E : (now w - startTime >? maxWaitTime) = true)
    by (apply Z.gtb_lt; lia).
  now rewrite E.
Qed.

(** Deadline check passed, no handle: one sleep, then the lost-handle
    error, and no refresh. *)
Lemma pollOperation_lost (fuel : nat) (startTime : Z)
  (operation : GenerateVideosOperation) (w : World) :
  truthy_bool (done operation) = false ->
  now w - startTime <= maxWaitTime ->
  truthy_string (name operation) = false ->
  pollOperation rt fuel startTime operation w
  = (Threw (Error "Operation name is not available for polling"),
     afterSleep rt w).
Proof.
  intros Hd Ht Hn. rewrite pollOperation_eq, Hd.
  unfold bind, Date_now.
  assert (E : (now w - startTime >? maxWaitTime) = false)
    by (rewrite Z.gtb_ltb; apply Z.ltb_ge; lia).
  rewrite E. unfold sleep. now rewrite Hn.
Qed.

(** Deadline check passed, handle present, the refresh throws. *)
Lemma pollOperation_refresh_throws (fuel : nat) (startTime : Z)
  (operation : GenerateVideosOperation) (w : World) (e : thrown) :
  truthy_bool (done operation) = false ->
  now w - startTime <= maxWaitTime ->
  truthy_string (name operation) = true ->
  getVideosOperation_reply rt (polls w) = inl e ->
  pollOperation rt fuel startTime operation w
  = (Threw e, afterRefresh rt operation w).
Proof.
  intros Hd Ht Hn Hr. rewrite pollOperation_eq, Hd.
  unfold bind, Date_now.
  assert (E : (now w - startTime >? maxWaitTime) = false)
    by (rewrite Z.gtb_ltb; apply Z.ltb_ge; lia).
  rewrite E. unfold sleep. rewrite Hn.
  unfold genAI_operations_getVideosOperation. cbn [polls now timers trace].
  now rewrite Hr.
Qed.

(** Deadline check passed, handle present, the refresh answers: the
    snapshot is replaced and the loop test is made again. *)
Lemma pollOperation_refresh (fuel : nat) (startTime : Z)
  (operation operation' : GenerateVideosOperation) (w : World) :
  truthy_bool (done operation) = false ->
  now w - startTime <= maxWaitTime ->
  truthy_string (name operation) = true ->
  getVideosOperation_reply rt (polls w) = inr operation' ->
  pollOperation rt fuel startTime operation w
  = match fuel with
    | O => (Unfinished, afterProgress operation' (afterRefresh rt operation w))
    | S fuel' =>
        pollOperation rt fuel' startTime operation'
          (afterProgress operation' (afterRefresh rt operation w))
    end.
Proof.
  intros Hd Ht Hn Hr. rewrite pollOperation_eq, Hd.
  unfold bind, Date_now.
  assert (E : (now w - startTime >? maxWaitTime) = false)
    by (rewrite Z.gtb_ltb; apply Z.ltb_ge; lia).
  rewrite E. unfold sleep. rewrite Hn.
  unfold genAI_operations_getVideosOperation. cbn [polls now timers trace].
  rewrite Hr. unfold afterProgress.
  destruct (metadata operation'); destruct fuel; reflexivity.
Qed.

End Polling.

(* ================================================================== *)
(** ** Counting in traces *)

Lemma refreshCount_app (a b : list Event) :
  refreshCount (a ++ b) = (refreshCount a + refreshCount b)%nat.
Proof. unfold refreshCount. now rewrite filter_app, length_app. Qed.

Lemma timerCount_app (a b : list Event) :
  timerCount (a ++ b) = (timerCount a + timerCount b)%nat.
Proof. unfold timerCount. now rewrite filter_app, length_app. Qed.

Lemma refreshTimes_app (a b : list Event) :
  refreshTimes (a ++ b) = refreshTimes a ++ refreshTimes b.
Proof. unfold refreshTimes. apply flat_map_app. Qed.

Lemma lateRefreshes_app (startTime : Z) (a b : list Event) :
  lateRefreshes startTime (a ++ b)
  = lateRefreshes startTime a ++ lateRefreshes startTime b.
Proof. unfold lateRefreshes. now rewrite refreshTimes_app, filter_app. Qed.

Lemma progressLog_quiet (operation' : GenerateVideosOperation) :
  refreshCount (progressLog operation') = 0%nat
  /\ timerCount (progressLog operation') = 0%nat
  /\ refreshTimes (progressLog operation') = []
  /\ (forall t d, ~ In (Timer t d) (progressLog operation')).
Proof.
  unfold progressLog. destruct (metadata operation'); repeat split;
    try reflexivity; intros t d H; simpl in H; intuition discriminate.
Qed.

Lemma afterProgress_trace (operation' : GenerateVideosOperation) (w : World) :
  trace (afterProgress operation' w) = trace w ++ progressLog operation'.
Proof.
  unfold afterProgress, progressLog.
  destruct (metadata operation'); simpl; [reflexivity | now rewrite app_nil_r].
Qed.

Lemma afterProgress_clock (operation' : GenerateVideosOperation) (w : World) :
  now (afterProgress operation' w) = now w
  /\ polls (afterProgress operation' w) = polls w
  /\ timers (afterProgress operation' w) = timers w.
Proof. unfold afterProgress. now destruct (metadata operation'). Qed.

(** The events of one full iteration. *)
Lemma iteration_trace (rt : Runtime)
  (operation operation' : GenerateVideosOperation) (w : World) :
  trace (afterProgress operation' (afterRefresh rt operation w))
  = trace w
    ++ Timer (now w) pollInterval
       :: CallGetVideosOperation (now w + timer_elapsed rt (timers w)) operation
       :: progressLog operation'.
Proof.
  rewrite afterProgress_trace. unfold afterRefresh, afterSleep. simpl.
  now rewrite <- !app_assoc.
Qed.

Lemma iteration_clock (rt : Runtime)
  (operation operation' : GenerateVideosOperation) (w : World) :
  now (afterProgress operation' (afterRefresh rt operation w))
  = now w + timer_elapsed rt (timers w) + getVideosOperation_latency rt (polls w).
Proof.
  destruct (afterProgress_clock operation' (afterRefresh rt operation w))
    as [-> _]. reflexivity.
Qed.

(* ================================================================== *)
(** ** The loop ends *)

Section Termination.

Variable rt : Runtime.
Hypothesis Htimers : timersOnTime rt.
Hypothesis Hclock : clockMonotone rt.

(** Fuel that can carry the clock beyond the ceiling is enough, whatever
    the provider answers. *)
Lemma pollOperation_finishes_from (fuel : nat) :
  forall (startTime : Z) (operation : GenerateVideosOperation) (w : World),
    maxWaitTime < (now w - startTime) + pollInterval * Z.of_nat fuel ->
    fst (pollOperation rt fuel startTime operation w) <> Unfinished.
Proof.
  induction fuel as [| fuel IH]; intros startTime operation w Hfuel.
  - destruct (truthy_bool (done operation)) eqn:Hd.
    + now rewrite pollOperation_done.
    + rewrite pollOperation_timeout by (assumption || lia). discriminate.
  - destruct (truthy_bool (done operation)) eqn:Hd.
    { now rewrite pollOperation_done. }
    destruct (Z_lt_le_dec maxWaitTime (now w - startTime)) as [Hl | Hok].
    { rewrite pollOperation_timeout by assumption. discriminate. }
    destruct (truthy_string (name operation)) eqn:Hn.
    + destruct (getVideosOperation_reply rt (polls w)) as [e | o1] eqn:Hr.
      * rewrite (pollOperation_refresh_throws rt _ _ _ _ e) by assumption.
        discriminate.
      * rewrite (pollOperation_refresh rt _ _ _ o1) by assumption.
        apply IH. rewrite iteration_clock.
        pose proof (Htimers (timers w)). pose proof (Hclock (polls w)). lia.
    + rewrite pollOperation_lost by assumption. discriminate.
Qed.

(** Entered when the clock shows [startTime], the loop ends within 41
    re-entries. *)
Lemma pollOperation_terminates (fuel : nat) (operation : GenerateVideosOperation)
  (w : World) :
  (41 <= fuel)%nat ->
  fst (pollOperation rt fuel (now w) operation w) <> Unfinished.
Proof.
  intros Hfuel. apply pollOperation_finishes_from.
  unfold maxWaitTime, pollInterval. lia.
Qed.

End Termination.

(** More fuel does not change a run that ended. *)
Lemma pollOperation_fuel_mono (rt : Runtime) (fuel : nat) :
  forall (fuel' : nat) (startTime : Z) (operation : GenerateVideosOperation)
         (w : World),
    (fuel <= fuel')%nat ->
    fst (pollOperation rt fuel startTime operation w) <> Unfinished ->
    pollOperation rt fuel' startTime operation w
    = pollOperation rt fuel startTime operation w.
Proof.
  induction fuel as [| fuel IH]; intros fuel' startTime operation w Hle Hfin.
  - destruct (truthy_bool (done operation)) eqn:Hd.
    { now rewrite !pollOperation_done. }
    destruct (Z_lt_le_dec maxWaitTime (now w - startTime)) as [Hl | Hok].
    { now rewrite !pollOperation_timeout. }
    destruct (truthy_string (name operation)) eqn:Hn.
    + destruct (getVideosOperation_reply rt (polls w)) as [e | o1] eqn:Hr.
      * now rewrite !(pollOperation_refresh_throws rt _ _ _ _ e).
      * rewrite (pollOperation_refresh rt 0 _ _ o1) in Hfin by assumption.
        now contradiction Hfin.
    + now rewrite !pollOperation_lost.
  - destruct fuel' as [| fuel']; [lia |].
    destruct (truthy_bool (done operation)) eqn:Hd.
    { now rewrite !pollOperation_done. }
    destruct (Z_lt_le_dec maxWaitTime (now w - startTime)) as [Hl | Hok].
    { now rewrite !pollOperation_timeout. }
    destruct (truthy_string (name operation)) eqn:Hn.
    + destruct (getVideosOperation_reply rt (polls w)) as [e | o1] eqn:Hr.
      * now rewrite !(pollOperation_refresh_throws rt _ _ _ _ e).
      * rewrite (pollOperation_refresh rt (S fuel) _ _ o1) in Hfin |- *
          by assumption.
        rewrite (pollOperation_refresh rt (S fuel') _ _ o1) by assumption.
        apply IH; [lia | exact Hfin].
    + now rewrite !pollOperation_lost.
Qed.

(* ================================================================== *)
(** ** A run in which the provider never reports completion *)

Section NeverDone.

Variable rt : Runtime.
Hypothesis Hnever : neverDone rt.
Hypothesis Htimers : timersOnTime rt.
Hypothesis Hclock : clockMonotone rt.


End NeverDone.



Lemma sampleRuntime_timersOnTime images submitted refresh :
  timersOnTime (sampleRuntime images submitted refresh).
Proof. intros k. simpl. unfold pollInterval. lia. Qed.

Lemma sampleRuntime_clockMonotone images submitted refresh :
  clockMonotone (sampleRuntime images submitted refresh).
Proof. intros k. simpl. lia. Qed.



(* ================================================================== *)
(** ** The video path, stage by stage *)

Section VideoPath.

Variable rt : Runtime.

(** Leaving the loop normally means [done]. *)
Lemma pollOperation_returns_done (fuel : nat) :
  forall (startTime : Z) (operation operation' : GenerateVideosOperation)
         (w w' : World),
    pollOperation rt fuel startTime operation w = (Returned operation', w') ->
    truthy_bool (done operation') = true.
Proof.
  induction fuel as [| fuel IH]; intros startTime operation operation' w w' H.
  - destruct (truthy_bool (done operation)) eqn:Hd.
    + rewrite pollOperation_done in H by assumption. congruence.
    + destruct (Z_lt_le_dec maxWaitTime (now w - startTime)) as [Hl | Hok].
      { rewrite pollOperation_timeout in H by assumption. discriminate. }
      destruct (truthy_string (name operation)) eqn:Hn.
      * destruct (getVideosOperation_reply rt (polls w)) as [e | op1] eqn:Hr.
        -- rewrite (pollOperation_refresh_throws rt _ _ _ _ e) in H
             by assumption. discriminate.
        -- rewrite (pollOperation_refresh rt _ _ _ op1) in H by assumption.
           discriminate.
      * rewrite pollOperation_lost in H by assumption. discriminate.
  - destruct (truthy_bool (done operation)) eqn:Hd.
    + rewrite pollOperation_done in H by assumption. congruence.
    + destruct (Z_lt_le_dec maxWaitTime (now w - startTime)) as [Hl | Hok].
      { rewrite pollOperation_timeout in H by assumption. discriminate. }
      destruct (truthy_string (name operation)) eqn:Hn.
      * destruct (getVideosOperation_reply rt (polls w)) as [e | op1] eqn:Hr.
        -- rewrite (pollOperation_refresh_throws rt _ _ _ _ e) in H
             by assumption. discriminate.
        -- rewrite (pollOperation_refresh rt _ _ _ op1) in H by assumption.
           eapply IH. exact H.
      * rewrite pollOperation_lost in H by assumption. discriminate.
Qed.

(** An accepted call reaches the loop in the world [submittedVideo], with
    the submitted operation and the clock of that world as start time. *)
Lemma generateVideo_submitted (fuel : nat) (prompt : jsstring)
  (options : VideoGenerationOptions.t) (w : World)
  (operation : GenerateVideosOperation) :
  videoCallAccepted prompt options ->
  generateVideos_reply rt = inr operation ->
  generateVideo rt fuel prompt options w
  = try_catch
      (bind (pollOperation rt fuel (now (submittedVideo rt prompt options w))
               operation)
            (collectVideos rt))
      videoCatch
      (submittedVideo rt prompt options w).
Proof.
  intros (Hp & Hlen & Hv) Hr. unfold generateVideo.
  rewrite Hp.
  assert (E : (1000 <? List.length prompt)%nat = false)
    by (apply Nat.ltb_ge; exact Hlen).
  rewrite E, Hv.
  unfold try_catch, bind, call, ret, genAI_models_generateVideos, bind,
    Date_now, emit, elapse, console, emit.
  rewrite Hr. reflexivity.
Qed.

(** The two checks after the loop. *)
Lemma collectVideos_error (operation : GenerateVideosOperation) (e : JsObject)
  (w : World) :
  error operation = Some e ->
  collectVideos rt operation w
  = (Threw (JsError (lit "Video generation failed: "
                     ++ JSON_stringify rt (JObject e))), w).
Proof. intros H. unfold collectVideos, bind. now rewrite H. Qed.

Lemma collectVideos_empty (operation : GenerateVideosOperation) (w : World) :
  error operation = None ->
  resultSet operation = None \/ resultSet operation = Some [] ->
  collectVideos rt operation w = (Threw (Error "No videos were generated"), w).
Proof.
  intros He Hr. unfold collectVideos, bind. rewrite He.
  unfold resultSet in Hr. unfold ret.
  destruct Hr as [Hr | Hr]; now rewrite Hr.
Qed.

(** C7 -- when the loop of an accepted call is left with the operation
    [final] (which is then [done]): if [final] carries an error, the call
    fails with the provider's error, whose message contains the serialised
    details, whatever the result set; if it carries none and the result set
    is absent or empty, the call fails with the empty-result error. *)
Theorem generateVideo_after_loop (fuel : nat) (prompt : jsstring)
  (options : VideoGenerationOptions.t) (w w1 : World)
  (operation final : GenerateVideosOperation) :
  videoCallAccepted prompt options ->
  generateVideos_reply rt = inr operation ->
  pollOperation rt fuel (now (submittedVideo rt prompt options w)) operation
    (submittedVideo rt prompt options w) = (Returned final, w1) ->
  truthy_bool (done final) = true
  /\ (forall e, error final = Some e ->
      generateVideo rt fuel prompt options w
      = (Threw (JsError (lit "Video generation failed: "
                         ++ lit "Video generation failed: "
                         ++ JSON_stringify rt (JObject e))), w1))
  /\ (error final = None ->
      resultSet final = None \/ resultSet final = Some [] ->
      generateVideo rt fuel prompt options w
      = (Threw (Error "Video generation failed: No videos were generated"),
         w1)).
Proof.
  intros Hacc Hr Hloop. split; [| split].
  - eapply pollOperation_returns_done. exact Hloop.
  - intros e He.
    rewrite (generateVideo_submitted fuel prompt options w operation Hacc Hr).
    unfold try_catch, bind. rewrite Hloop.
    rewrite (collectVideos_error final e w1 He). reflexivity.
  - intros He Hres.
    rewrite (generateVideo_submitted fuel prompt options w operation Hacc Hr).
    unfold try_catch, bind. rewrite Hloop.
    rewrite (collectVideos_empty final w1 He Hres). reflexivity.
Qed.

End VideoPath.

Lemma samplePrompt_accepted :
  videoCallAccepted samplePrompt VideoGenerationOptions.empty.
Proof. repeat split. vm_compute. lia. Qed.

Lemma generateVideo_after_loop_witness :
  truthy_bool (done failedOperation) = true
  /\ (forall e, error failedOperation = Some e ->
      generateVideo rt_failed 41 samplePrompt VideoGenerationOptions.empty
        (boot 0)
      = (Threw (JsError (lit "Video generation failed: "
                         ++ lit "Video generation failed: "
                         ++ JSON_stringify rt_failed (JObject e))),
         submittedVideo rt_failed samplePrompt VideoGenerationOptions.empty
           (boot 0)))
  /\ (error failedOperation = None ->
      resultSet failedOperation = None \/ resultSet failedOperation = Some [] ->
      generateVideo rt_failed 41 samplePrompt VideoGenerationOptions.empty
        (boot 0)
      = (Threw (Error "Video generation failed: No videos were generated"),
         submittedVideo rt_failed samplePrompt VideoGenerationOptions.empty
           (boot 0))).
Proof.
  apply (generateVideo_after_loop rt_failed 41 samplePrompt
           VideoGenerationOptions.empty (boot 0) _ failedOperation
           failedOperation).
  - exact samplePrompt_accepted.
  - reflexivity.
  - reflexivity.
Defined.

(* ================================================================== *)
(** ** Normalising the result items *)

Section Normalizer.

Variable rt : Runtime.

(** An item with a locator stops the loop: the download throws.  Items in
    front of it only add buffers and console lines. *)
Lemma convertVideos_firstUri (items : list GeneratedVideo) :
  forall (u : jsstring) (videoBuffers : list Buffer) (w : World),
    firstUri items = Some u ->
    exists w',
      convertVideos rt items videoBuffers w = (Threw (downloadError u), w')
      /\ now w' = now w
      /\ polls w' = polls w.
Proof.
  induction items as [| v rest IH]; intros u videoBuffers w Hu.
  - discriminate.
  - simpl in Hu. cbn [convertVideos].
    assert (Hrest : firstUri rest = Some u ->
                    forall b w0, now w0 = now w -> polls w0 = polls w ->
                    exists w', convertVideos rt rest b w0
                               = (Threw (downloadError u), w')
                               /\ now w' = now w /\ polls w' = polls w).
    { intros H b w0 Hn Hp. destruct (IH u b w0 H) as (w' & E & H1 & H2).
      exists w'. rewrite E. repeat split; congruence. }
    destruct (video v) as [[u0 bytes mt] |].
    + destruct u0 as [[| c s] |].
      * destruct bytes as [[| c' s'] |];
          unfold bind, ret, console, emit; cbn [uri videoBytes];
          now apply Hrest.
      * injection Hu as <-. eexists.
        unfold bind, console, emit, downloadGcsFile, throw, downloadError;
          cbn [uri videoBytes].
        repeat split.
      * destruct bytes as [[| c' s'] |];
          unfold bind, ret, console, emit; cbn [uri videoBytes];
          now apply Hrest.
    + unfold bind, console, emit. now apply Hrest.
Qed.

(** Items that all carry inline bytes and no locator are decoded in
    order; the world is not touched. *)
Lemma convertVideos_inline (items : list GeneratedVideo) :
  forall (videoBuffers : list Buffer) (w : World),
    Forall (fun v => inlineVideo v <> None) items ->
    convertVideos rt items videoBuffers w
    = (Returned (videoBuffers
                 ++ map (Buffer_from_base64 rt) (inlinePayloads items)), w).
Proof.
  induction items as [| v rest IH]; intros videoBuffers w Hall.
  - simpl. now rewrite app_nil_r.
  - inversion Hall as [| ? ? Hv Hrest]; subst.
    cbn [convertVideos inlinePayloads]. unfold inlineVideo in Hv.
    destruct (video v) as [[u0 bytes mt] |]; [| congruence].
    destruct bytes as [[| c s] |]; try congruence.
    destruct u0 as [[| c0 s0] |]; cbn [truthy_string] in Hv; try congruence;
      unfold bind, ret; cbn [uri videoBytes];
      rewrite (IH _ w Hrest); cbn [map]; now rewrite <- app_assoc.
Qed.

End Normalizer.

(** C1 (as amended) -- when the loop of an accepted video call is left
    with an operation that carries no error and whose result set contains an
    item with a remote locator, the call fails, whatever the other items
    carry: the error is the one of the unimplemented download of the first
    such locator, wrapped by the catch clause. *)
Theorem generateVideo_remote_item_fails (rt : Runtime) (fuel : nat)
  (prompt : jsstring) (options : VideoGenerationOptions.t) (w w1 : World)
  (operation final : GenerateVideosOperation)
  (items : list GeneratedVideo) (u : jsstring) :
  videoCallAccepted prompt options ->
  generateVideos_reply rt = inr operation ->
  pollOperation rt fuel (now (submittedVideo rt prompt options w)) operation
    (submittedVideo rt prompt options w) = (Returned final, w1) ->
  error final = None ->
  resultSet final = Some items ->
  firstUri items = Some u ->
  exists w',
    generateVideo rt fuel prompt options w
    = (Threw (JsError
               (lit "Video generation failed: "
                ++ lit "GCS file download not implemented. Cannot download from "
                ++ u)), w').
Proof.
  intros Hacc Hr Hloop He Hres Hu.
  rewrite (generateVideo_submitted rt fuel prompt options w operation Hacc Hr).
  unfold try_catch, bind at 1. rewrite Hloop.
  unfold collectVideos, bind at 1. rewrite He. unfold ret at 1.
  unfold resultSet in Hres. rewrite Hres.
  destruct items as [| v rest]; [discriminate |].
  destruct (convertVideos_firstUri rt (v :: rest) u [] w1 Hu)
    as (w' & E & _ & _).
  exists w'. unfold bind. rewrite E. reflexivity.
Qed.

Lemma generateVideo_remote_item_fails_witness :
  exists w',
    generateVideo rt_scenarioD 41 samplePrompt VideoGenerationOptions.empty
      (boot 0)
    = (Threw (JsError
               (lit "Video generation failed: "
                ++ lit "GCS file download not implemented. Cannot download from "
                ++ lit "gs://bucket/clip.mp4")), w').
Proof.
  apply (generateVideo_remote_item_fails rt_scenarioD 41 samplePrompt
           VideoGenerationOptions.empty (boot 0)
           (submittedVideo rt_scenarioD samplePrompt
              VideoGenerationOptions.empty (boot 0))
           (finishedWith [remoteVideoItem "gs://bucket/clip.mp4";
                          inlineVideoItem "AAEC"])
           (finishedWith [remoteVideoItem "gs://bucket/clip.mp4";
                          inlineVideoItem "AAEC"])
           [remoteVideoItem "gs://bucket/clip.mp4"; inlineVideoItem "AAEC"]).
  - exact samplePrompt_accepted.
  - reflexivity.
  - reflexivity.
  - reflexivity.
  - reflexivity.
  - reflexivity.
Defined.

(** C1 (as stated) fails: in Scenario D -- a finished operation with a
    remote item and an item of valid inline bytes -- the call does not
    return one Artifact; it throws. *)
Lemma generateVideo_scenarioD_throws :
  fst run_scenarioD
  = Threw (Error
      "Video generation failed: GCS file download not implemented. Cannot download from gs://bucket/clip.mp4")
  /\ (forall artifacts, fst run_scenarioD <> Returned artifacts).
Proof.
  assert (E : fst run_scenarioD
              = Threw (Error
      "Video generation failed: GCS file download not implemented. Cannot download from gs://bucket/clip.mp4"))
    by (vm_compute; reflexivity).
  split; [exact E |]. intros artifacts. rewrite E. discriminate.
Qed.

(* ================================================================== *)
(** ** Runs that poll a number of times *)

Section Prefix.

Variable rt : Runtime.


End Prefix.

Lemma console_only_counts (l : list Event) :
  forallb isConsole l = true ->
  refreshCount l = 0%nat /\ timerCount l = 0%nat
  /\ existsb isNetwork l = false.
Proof.
  induction l as [| e l IH]; intros H; [now repeat split |].
  simpl in H. apply andb_true_iff in H as [He Hl].
  destruct (IH Hl) as (H1 & H2 & H3).
  destruct e; try discriminate.
  unfold refreshCount, timerCount in *. simpl. now rewrite H3.
Qed.

Section Collect.

Variable rt : Runtime.

(** Without any locator among the items, the loop decodes the inline
    payloads in order and skips the other items with a warning: only
    console lines are added to the world. *)
Lemma convertVideos_no_uri (items : list GeneratedVideo) :
  forall (videoBuffers : list Buffer) (w : World),
    firstUri items = None ->
    exists w' new,
      convertVideos rt items videoBuffers w
      = (Returned (videoBuffers
                   ++ map (Buffer_from_base64 rt) (inlinePayloads items)), w')
      /\ trace w' = trace w ++ new
      /\ forallb isConsole new = true
      /\ now w' = now w.
Proof.
  induction items as [| v rest IH]; intros videoBuffers w Hu.
  - exists w, []. simpl. rewrite !app_nil_r. now repeat split.
  - cbn [firstUri] in Hu. cbn [convertVideos inlinePayloads].
    assert (Hstep : forall b e,
              firstUri rest = None ->
              exists w' new,
                convertVideos rt rest b
                  {| now := now w; timers := timers w; polls := polls w;
                     trace := trace w ++ [Console e] |}
                = (Returned (b ++ map (Buffer_from_base64 rt)
                                    (inlinePayloads rest)), w')
                /\ trace w' = trace w ++ new
                /\ forallb isConsole new = true
                /\ now w' = now w).
    { intros b e H.
      destruct (IH b {| now := now w; timers := timers w; polls := polls w;
                        trace := trace w ++ [Console e] |} H)
        as (w' & new & E & Htr & Hc & Hn).
      exists w', (Console e :: new). rewrite E. cbn [trace now] in Htr, Hn.
      repeat split; try assumption.
      rewrite Htr, <- app_assoc. reflexivity. }
    destruct (video v) as [[u0 bytes mt] |].
    + destruct u0 as [[| c s] |]; [| discriminate |];
        destruct bytes as [[| c' s'] |];
        unfold bind, ret, console, emit; cbn [uri videoBytes];
        try (now apply Hstep);
        destruct (IH (videoBuffers ++ [Buffer_from_base64 rt (c' :: s')]) w Hu)
          as (w' & new & E & Htr & Hc & Hn);
        exists w', new; rewrite E; cbn [map]; rewrite <- app_assoc;
        now repeat split.
    + unfold bind, console, emit. now apply Hstep.
Qed.


End Collect.


(** Scenario A: the submitted operation is already done; one Artifact is
    returned (the bytes 0, 1, 2 of the payload) and the trace holds no
    timer and no refresh. *)
Example generateVideo_scenarioA :
  let run := generateVideo rt_scenarioA 41 samplePrompt videoOptions_scenarioA
               (boot 0) in
  fst run = Returned [[Byte.x00; Byte.x01; Byte.x02]]
  /\ timerCount (trace (snd run)) = 0%nat
  /\ refreshCount (trace (snd run)) = 0%nat.
Proof. vm_compute. repeat split. Qed.

(** Scenario B: three refreshes come back not done, the fourth comes back
    done with an error: the call fails with the provider's error after four
    refreshes in all. *)
Example generateVideo_scenarioB :
  let run := generateVideo rt_scenarioB 41 samplePrompt
               VideoGenerationOptions.empty (boot 0) in
  fst run
  = Threw (JsError (lit "Video generation failed: "
                    ++ lit "Video generation failed: "
                    ++ sample_stringify
                         (JObject [(lit "message",
                                    JString (lit "quota exceeded"))])))
  /\ refreshCount (trace (snd run)) = 4%nat
  /\ timerCount (trace (snd run)) = 4%nat.
Proof. vm_compute. repeat split. Qed.

(** A finished operation without error and with an empty result set. *)
Example generateVideo_empty_result :
  fst (generateVideo rt_emptyResult 41 samplePrompt
         VideoGenerationOptions.empty (boot 0))
  = Threw (Error "Video generation failed: No videos were generated").
Proof. vm_compute. reflexivity. Qed.

(* ================================================================== *)
(** ** Losing the handle *)

(** C8 (as amended) -- when the operation at the loop test is not done
    and has no handle, no further refresh is made: the loop ends with the
    timeout error if more than 600 seconds have elapsed at that test, and
    otherwise, after one more sleep, with the lost-handle error. *)
Theorem pollOperation_handle_lost (rt : Runtime) (fuel : nat) (startTime : Z)
  (operation : GenerateVideosOperation) (w : World) :
  truthy_bool (done operation) = false ->
  truthy_string (name operation) = false ->
  pollOperation rt fuel startTime operation w
  = (if now w - startTime >? maxWaitTime
     then (Threw timeoutError, w)
     else (Threw lostHandleError, afterSleep rt w))
  /\ refreshCount (trace (snd (pollOperation rt fuel startTime operation w)))
     = refreshCount (trace w).
Proof.
  intros Hd Hn.
  destruct (now w - startTime >? maxWaitTime) eqn:E.
  - apply Z.gtb_lt in E.
    rewrite (pollOperation_timeout rt fuel startTime operation w Hd)
      by lia.
    split; reflexivity.
  - rewrite Z.gtb_ltb in E. apply Z.ltb_ge in E.
    rewrite (pollOperation_lost rt fuel startTime operation w Hd E Hn).
    split; [reflexivity |].
    cbn [snd afterSleep trace]. rewrite refreshCount_app.
    unfold refreshCount at 2. simpl. lia.
Qed.

Lemma pollOperation_handle_lost_witness :
  pollOperation rt_lostEarly 41 0 namelessOperation (boot 0)
  = (if now (boot 0) - 0 >? maxWaitTime
     then (Threw timeoutError, boot 0)
     else (Threw lostHandleError, afterSleep rt_lostEarly (boot 0)))
  /\ refreshCount
       (trace (snd (pollOperation rt_lostEarly 41 0 namelessOperation
                      (boot 0))))
     = refreshCount (trace (boot 0)).
Proof.
  apply (pollOperation_handle_lost rt_lostEarly 41 0 namelessOperation
           (boot 0)).
  - reflexivity.
  - reflexivity.
Defined.

(** C8 (as stated) fails: when the snapshot without a handle comes back
    from the fortieth refresh, issued 607.84 s after loop entry, the next
    deadline check comes first and the loop ends with the timeout error,
    not with the lost-handle error. *)
Lemma pollOperation_lost_handle_reported_as_timeout :
  getVideosOperation_reply rt_lostLate 39 = inr namelessOperation
  /\ refreshCount (trace (snd run_lostLate)) = 40%nat
  /\ fst run_lostLate = Threw timeoutError
  /\ fst run_lostLate <> Threw lostHandleError.
Proof.
  assert (E : fst run_lostLate = Threw timeoutError)
    by (vm_compute; reflexivity).
  split; [reflexivity |]. split; [vm_compute; reflexivity |].
  split; [exact E |]. rewrite E. vm_compute. discriminate.
Qed.

(** When the handle is lost early, the error is the lost-handle one, but
    only after a further timer: the trace ends with a timer set after the
    refresh that returned the snapshot without a handle. *)
Example pollOperation_lost_handle_after_sleep :
  let run := pollOperation rt_lostEarly 41 0 pendingOperation (boot 0) in
  fst run = Threw lostHandleError
  /\ refreshCount (trace (snd run)) = 2%nat
  /\ timerCount (trace (snd run)) = 3%nat
  /\ last (trace (snd run)) (Console WarnVideoNoData) = Timer 30402 15000.
Proof. vm_compute. repeat split. Qed.

(* ================================================================== *)
(** ** The trace is append-only *)

Lemma appendOnly_ret {A : Type} (a : A) : appendOnly (ret a).
Proof. intros w. exists []. simpl. now rewrite app_nil_r. Qed.

Lemma appendOnly_throw {A : Type} (e : thrown) : appendOnly (@throw A e).
Proof. intros w. exists []. simpl. now rewrite app_nil_r. Qed.

Lemma appendOnly_unfinished {A : Type} : appendOnly (@unfinished A).
Proof. intros w. exists []. simpl. now rewrite app_nil_r. Qed.

Lemma appendOnly_bind {A B : Type} (m : M A) (k : A -> M B) :
  appendOnly m -> (forall a, appendOnly (k a)) -> appendOnly (bind m k).
Proof.
  intros Hm Hk w. unfold bind. destruct (Hm w) as [new1 H1].
  destruct (m w) as [[a | e |] w1]; cbn [snd] in H1.
  - destruct (Hk a w1) as [new2 H2]. exists (new1 ++ new2).
    now rewrite H2, H1, app_assoc.
  - now exists new1.
  - now exists new1.
Qed.

Lemma appendOnly_try_catch {A : Type} (m : M A) (h : thrown -> M A) :
  appendOnly m -> (forall e, appendOnly (h e)) -> appendOnly (try_catch m h).
Proof.
  intros Hm Hh w. unfold try_catch. destruct (Hm w) as [new1 H1].
  destruct (m w) as [[a | e |] w1]; cbn [snd] in H1.
  - now exists new1.
  - destruct (Hh e w1) as [new2 H2]. exists (new1 ++ new2).
    now rewrite H2, H1, app_assoc.
  - now exists new1.
Qed.

Lemma appendOnly_emit (e : Event) : appendOnly (emit e).
Proof. intros w. now exists [e]. Qed.

Lemma appendOnly_call {A : Type} (r : thrown + A) : appendOnly (call r).
Proof.
  destruct r; [apply appendOnly_throw | apply appendOnly_ret].
Qed.

Create HintDb trace_db.
#[local] Hint Resolve appendOnly_ret appendOnly_throw appendOnly_unfinished
  appendOnly_emit appendOnly_call : trace_db.

Section AppendOnly.

Variable rt : Runtime.

Lemma appendOnly_sleep (ms : Z) : appendOnly (sleep rt ms).
Proof. intros w. now exists [Timer (now w) ms]. Qed.

Lemma appendOnly_getVideosOperation (operation : GenerateVideosOperation) :
  appendOnly (genAI_operations_getVideosOperation rt operation).
Proof.
  intros w. exists [CallGetVideosOperation (now w) operation].
  unfold genAI_operations_getVideosOperation.
  now destruct (getVideosOperation_reply rt (polls w)).
Qed.

Lemma appendOnly_convertImages (items : list GeneratedImage) :
  forall imageBuffers, appendOnly (convertImages rt items imageBuffers).
Proof.
  induction items as [| g rest IH]; intros imageBuffers;
    cbn [convertImages]; [auto with trace_db |].
  destruct (image g) as [imageData |].
  - destruct (truthy_string (gcsUri imageData)); [auto with trace_db |].
    destruct (imageBytes imageData) as [[| c s] |]; auto;
      apply appendOnly_bind; auto; apply appendOnly_emit.
  - apply appendOnly_bind; auto. apply appendOnly_emit.
Qed.

Lemma appendOnly_convertVideos (items : list GeneratedVideo) :
  forall videoBuffers, appendOnly (convertVideos rt items videoBuffers).
Proof.
  induction items as [| v rest IH]; intros videoBuffers;
    cbn [convertVideos]; [auto with trace_db |].
  destruct (video v) as [videoData |].
  - apply appendOnly_bind.
    + destruct (uri videoData) as [[| c s] |]; auto with trace_db.
      apply appendOnly_bind; [apply appendOnly_emit |]. intros _.
      apply appendOnly_bind; [apply appendOnly_throw | auto with trace_db].
    + intros b1. apply appendOnly_bind; [| auto].
      destruct (videoBytes videoData) as [[| c s] |]; auto with trace_db;
        (apply appendOnly_bind; [apply appendOnly_emit | auto with trace_db]).
  - apply appendOnly_bind; auto. apply appendOnly_emit.
Qed.

Lemma appendOnly_pollOperation (fuel : nat) :
  forall startTime operation,
    appendOnly (pollOperation rt fuel startTime operation).
Proof.
  induction fuel as [| fuel IH]; intros startTime operation;
    rewrite pollOperation_eq;
    (destruct (truthy_bool (done operation)); [auto with trace_db |]);
    (apply appendOnly_bind; [intros w; exists []; simpl; now rewrite app_nil_r |]);
    intros t; (destruct (t - startTime >? maxWaitTime); [auto with trace_db |]);
    (apply appendOnly_bind; [apply appendOnly_sleep |]); intros _;
    (destruct (truthy_string (name operation)); [| auto with trace_db]);
    (apply appendOnly_bind; [apply appendOnly_getVideosOperation |]);
    intros o;
    (apply appendOnly_bind;
     [destruct (metadata o); [apply appendOnly_emit | auto with trace_db] |]);
    intros _; auto with trace_db.
Qed.

Lemma appendOnly_collectVideos (operation : GenerateVideosOperation) :
  appendOnly (collectVideos rt operation).
Proof.
  unfold collectVideos. apply appendOnly_bind.
  - destruct (error operation); auto with trace_db.
  - intros _.
    destruct (match response operation with
              | Some r => generatedVideos r
              | None => None
              end) as [[| v rest] |]; auto with trace_db.
    apply appendOnly_bind; [apply appendOnly_convertVideos |].
    intros buffers. destruct (List.length buffers =? 0)%nat;
      [auto with trace_db |].
    apply appendOnly_bind; [apply appendOnly_emit | auto with trace_db].
Qed.

Lemma appendOnly_videoCatch {A : Type} (e : thrown) :
  appendOnly (@videoCatch A e).
Proof. destruct e; apply appendOnly_throw. Qed.

End AppendOnly.

(* ================================================================== *)
(** ** The image path *)

Section ImagePath.

Variable rt : Runtime.

(** An accepted call whose request is answered goes on in the world
    [submittedImage]. *)
Lemma generateImage_answered (prompt : jsstring)
  (options : ImageGenerationOptions.t) (w : World)
  (res : GenerateImagesResponse) :
  imageCallAccepted prompt options ->
  generateImages_reply rt = inr res ->
  generateImage rt prompt options w
  = try_catch (collectImages rt res) imageCatch
      (submittedImage rt prompt options w).
Proof.
  intros (Hp & Hlen & Hv) Hr. unfold generateImage. rewrite Hp.
  assert (E : (4000 <? List.length prompt)%nat = false)
    by (apply Nat.ltb_ge; exact Hlen).
  rewrite E, Hv.
  unfold try_catch, bind, call, ret, genAI_models_generateImages, bind,
    Date_now, emit, elapse.
  rewrite Hr. reflexivity.
Qed.

(** Without any locator among the items, the loop decodes the inline
    payloads in order and skips the other items with a warning. *)
Lemma convertImages_no_gcs (items : list GeneratedImage) :
  forall (imageBuffers : list Buffer) (w : World),
    existsb imageHasGcsUri items = false ->
    exists w',
      convertImages rt items imageBuffers w
      = (Returned (imageBuffers
                   ++ map (Buffer_from_base64 rt) (imagePayloads items)), w').
Proof.
  induction items as [| g rest IH]; intros imageBuffers w Hno.
  - exists w. simpl. now rewrite app_nil_r.
  - cbn [existsb] in Hno. apply orb_false_iff in Hno as [Hg Hrest].
    unfold imageHasGcsUri in Hg. cbn [convertImages imagePayloads].
    destruct (image g) as [[u bytes mt] |]; cbn [gcsUri imageBytes] in *.
    + rewrite Hg. destruct bytes as [[| c s] |].
      * unfold bind, console, emit. apply IH. exact Hrest.
      * destruct (IH (imageBuffers ++ [Buffer_from_base64 rt (c :: s)]) w Hrest)
          as [w' E].
        exists w'. rewrite E. cbn [map]. now rewrite <- app_assoc.
      * unfold bind, console, emit. apply IH. exact Hrest.
    + unfold bind, console, emit. apply IH. exact Hrest.
Qed.

(** An item with a locator makes the loop throw, whatever the other items
    and the buffers gathered so far. *)
Lemma convertImages_gcs (items : list GeneratedImage) :
  forall (imageBuffers : list Buffer) (w : World),
    existsb imageHasGcsUri items = true ->
    exists w',
      convertImages rt items imageBuffers w = (Threw gcsUriError, w').
Proof.
  induction items as [| g rest IH]; intros imageBuffers w Hex.
  - discriminate.
  - cbn [existsb] in Hex. unfold imageHasGcsUri in Hex at 1.
    cbn [convertImages].
    destruct (image g) as [[u bytes mt] |]; cbn [gcsUri imageBytes] in *.
    + destruct (truthy_string u).
      * exists w. reflexivity.
      * cbn [orb] in Hex. destruct bytes as [[| c s] |];
          unfold bind, console, emit; apply IH; exact Hex.
    + cbn [orb] in Hex. unfold bind, console, emit. apply IH. exact Hex.
Qed.

(** The loop stops at the item with a locator: what follows it is never
    looked at. *)
Lemma convertImages_stops (pre : list GeneratedImage) :
  forall (g : GeneratedImage) (post post' : list GeneratedImage)
         (imageBuffers : list Buffer) (w : World),
    imageHasGcsUri g = true ->
    convertImages rt (pre ++ g :: post) imageBuffers w
    = convertImages rt (pre ++ g :: post') imageBuffers w.
Proof.
  induction pre as [| p pre IH]; intros g post post' imageBuffers w Hg.
  - unfold imageHasGcsUri in Hg. cbn [app convertImages].
    destruct (image g) as [imageData |]; [| discriminate].
    now rewrite Hg.
  - cbn [app convertImages].
    destruct (image p) as [imageData |].
    + destruct (truthy_string (gcsUri imageData)); [reflexivity |].
      destruct (imageBytes imageData) as [[| c s] |];
        unfold bind, console, emit; now apply IH.
    + unfold bind, console, emit. now apply IH.
Qed.

(** C10 -- for an accepted image call that the provider answers with the
    items [items]: if some item carries a remote locator, the call fails
    with the GCS error wrapped by the catch clause, whatever the other items
    carry, and the items after the first locator are not looked at; if no
    item carries one, the items without data are skipped and the call
    returns the decoded payloads of the others, provided there is one. *)
Theorem generateImage_remote_item_fails (prompt : jsstring)
  (options : ImageGenerationOptions.t) (w : World)
  (items : list GeneratedImage) :
  imageCallAccepted prompt options ->
  generateImages_reply rt = inr {| generatedImages := Some items |} ->
  (existsb imageHasGcsUri items = true ->
   exists w',
     generateImage rt prompt options w = (Threw wrappedGcsUriError, w'))
  /\ (forall pre g post post' buffers w0,
        items = pre ++ g :: post -> imageHasGcsUri g = true ->
        convertImages rt items buffers w0
        = convertImages rt (pre ++ g :: post') buffers w0)
  /\ (existsb imageHasGcsUri items = false ->
      imagePayloads items <> [] ->
      exists w',
        generateImage rt prompt options w
        = (Returned (map (Buffer_from_base64 rt) (imagePayloads items)), w')).
Proof.
  intros Hacc Hr. split; [| split].
  - intros Hex.
    rewrite (generateImage_answered prompt options w _ Hacc Hr).
    unfold try_catch, collectImages. cbn [generatedImages].
    destruct items as [| g rest]; [discriminate |].
    destruct (convertImages_gcs (g :: rest) []
                (submittedImage rt prompt options w) Hex) as [w' E].
    exists w'. unfold bind. rewrite E. reflexivity.
  - intros pre g post post' buffers w0 -> Hg. now apply convertImages_stops.
  - intros Hno Hpay.
    rewrite (generateImage_answered prompt options w _ Hacc Hr).
    unfold try_catch, collectImages. cbn [generatedImages].
    destruct items as [| g rest]; [now contradiction Hpay |].
    destruct (convertImages_no_gcs (g :: rest) []
                (submittedImage rt prompt options w) Hno) as [w' E].
    exists w'. unfold bind. rewrite E. cbn [app].
    destruct (map (Buffer_from_base64 rt) (imagePayloads (g :: rest)))
      as [| b bs] eqn:Hm.
    { apply map_eq_nil in Hm. now contradiction Hpay. }
    reflexivity.
Qed.

End ImagePath.

Lemma samplePrompt_image_accepted :
  imageCallAccepted samplePrompt ImageGenerationOptions.empty.
Proof. repeat split. vm_compute. lia. Qed.

Lemma generateImage_remote_item_fails_witness :
  (existsb imageHasGcsUri items_remote = true ->
   exists w',
     generateImage rt_imagesRemote samplePrompt ImageGenerationOptions.empty
       (boot 0) = (Threw wrappedGcsUriError, w'))
  /\ (forall pre g post post' buffers w0,
        items_remote = pre ++ g :: post -> imageHasGcsUri g = true ->
        convertImages rt_imagesRemote items_remote buffers w0
        = convertImages rt_imagesRemote (pre ++ g :: post') buffers w0)
  /\ (existsb imageHasGcsUri items_remote = false ->
      imagePayloads items_remote <> [] ->
      exists w',
        generateImage rt_imagesRemote samplePrompt ImageGenerationOptions.empty
          (boot 0)
        = (Returned (map (Buffer_from_base64 rt_imagesRemote)
                       (imagePayloads items_remote)), w')).
Proof.
  apply (generateImage_remote_item_fails rt_imagesRemote samplePrompt
           ImageGenerationOptions.empty (boot 0) items_remote).
  - exact samplePrompt_image_accepted.
  - reflexivity.
Defined.

(** The two sample answers: with a remote item among three the call
    throws, although the third item holds valid inline bytes; with only an
    item without data and an inline one, the first is skipped with a
    warning and one buffer is returned. *)
Example generateImage_samples :
  fst (generateImage rt_imagesRemote samplePrompt ImageGenerationOptions.empty
         (boot 0)) = Threw wrappedGcsUriError
  /\ fst (generateImage rt_imagesInline samplePrompt
            ImageGenerationOptions.empty (boot 0))
     = Returned [[Byte.x00; Byte.x01; Byte.x02]]
  /\ In (Console WarnImageNoData)
        (trace (snd (generateImage rt_imagesInline samplePrompt
                       ImageGenerationOptions.empty (boot 0)))).
Proof. vm_compute. repeat split. right. now left. Qed.

(* ================================================================== *)
(** ** Normalisation is a function of the item *)

Section Determinism.

Variable rt : Runtime.

Lemma convertVideos_inline_item (v : GeneratedVideo) (payload : jsstring)
  (videoBuffers : list Buffer) (w : World) :
  inlineVideo v = Some payload ->
  convertVideos rt [v] videoBuffers w
  = (Returned (videoBuffers ++ [Buffer_from_base64 rt payload]), w).
Proof.
  intros H. unfold inlineVideo in H. cbn [convertVideos].
  destruct (video v) as [[u bytes mt] |]; [| discriminate].
  destruct bytes as [[| c s] |]; try discriminate.
  destruct u as [[| c0 s0] |]; cbn [truthy_string] in H; try discriminate;
    injection H as <-; reflexivity.
Qed.

Lemma convertImages_inline_item (g : GeneratedImage) (payload : jsstring)
  (imageBuffers : list Buffer) (w : World) :
  inlineImage g = Some payload ->
  convertImages rt [g] imageBuffers w
  = (Returned (imageBuffers ++ [Buffer_from_base64 rt payload]), w).
Proof.
  intros H. unfold inlineImage in H. cbn [convertImages].
  destruct (image g) as [[u bytes mt] |]; [| discriminate].
  destruct bytes as [[| c s] |]; try discriminate.
  destruct u as [[| c0 s0] |]; cbn [truthy_string] in H; try discriminate;
    injection H as <-; reflexivity.
Qed.

(** C9 -- normalising an item of inline bytes yields the decoding of its
    payload, whatever the buffers gathered so far and whatever the world
    (clock, counters, trace), and leaves that world as it was: two runs
    on the same item yield the same Artifact, on the video path and on the
    image path, and an item listed twice yields the same Artifact twice. *)
Theorem normalize_inline_deterministic
  (v : GeneratedVideo) (g : GeneratedImage) (payloadV payloadI : jsstring)
  (buffers1 buffers2 : list Buffer) (w1 w2 : World) :
  inlineVideo v = Some payloadV ->
  inlineImage g = Some payloadI ->
  (convertVideos rt [v] buffers1 w1
   = (Returned (buffers1 ++ [Buffer_from_base64 rt payloadV]), w1)
   /\ convertVideos rt [v] buffers2 w2
      = (Returned (buffers2 ++ [Buffer_from_base64 rt payloadV]), w2)
   /\ convertVideos rt [v; v] [] w1
      = (Returned [Buffer_from_base64 rt payloadV;
                   Buffer_from_base64 rt payloadV], w1))
  /\ (convertImages rt [g] buffers1 w1
      = (Returned (buffers1 ++ [Buffer_from_base64 rt payloadI]), w1)
      /\ convertImages rt [g] buffers2 w2
         = (Returned (buffers2 ++ [Buffer_from_base64 rt payloadI]), w2)
      /\ convertImages rt [g; g] [] w1
         = (Returned [Buffer_from_base64 rt payloadI;
                      Buffer_from_base64 rt payloadI], w1)).
Proof.
  intros Hv Hg. repeat split.
  - now apply convertVideos_inline_item.
  - now apply convertVideos_inline_item.
  - assert (Hall : Forall (fun x => inlineVideo x <> None) [v; v])
      by (repeat constructor; congruence).
    rewrite (convertVideos_inline rt [v; v] [] w1 Hall). cbn [app].
    pose proof (convertVideos_inline rt [v] [] w1) as H1.
    rewrite (convertVideos_inline_item v payloadV [] w1 Hv) in H1.
    assert (H2 : Forall (fun x => inlineVideo x <> None) [v])
      by (repeat constructor; congruence).
    specialize (H1 H2). cbn [app] in H1. injection H1 as H1.
    cbn [inlinePayloads] in H1 |- *.
    destruct (video v) as [[u [[| c s] |] mt] |];
      cbn [map] in H1 |- *; try discriminate H1.
    injection H1 as H1. now rewrite <- H1.
  - now apply convertImages_inline_item.
  - now apply convertImages_inline_item.
  - unfold inlineImage in Hg. cbn [convertImages].
    destruct (image g) as [[u bytes mt] |]; [| discriminate].
    destruct bytes as [[| c s] |]; try discriminate.
    destruct u as [[| c0 s0] |]; cbn [truthy_string] in Hg; try discriminate;
      injection Hg as <-; reflexivity.
Qed.

(** The outcome of the video loop -- the Artifacts or the error -- is the
    same in every world. *)
Lemma convertVideos_world_independent (items : list GeneratedVideo) :
  forall (videoBuffers : list Buffer) (w1 w2 : World),
    fst (convertVideos rt items videoBuffers w1)
    = fst (convertVideos rt items videoBuffers w2).
Proof.
  induction items as [| v rest IH]; intros videoBuffers w1 w2;
    [reflexivity |].
  cbn [convertVideos].
  destruct (video v) as [videoData |].
  - destruct (uri videoData) as [[| c s] |];
      destruct (videoBytes videoData) as [[| c' s'] |];
      unfold bind, ret, console, emit, downloadGcsFile, throw;
      cbn [fst]; try reflexivity; apply IH.
  - unfold bind, console, emit. apply IH.
Qed.

End Determinism.

Lemma normalize_inline_deterministic_witness :
  (convertVideos rt_third [inlineVideoItem "AAEC"] [] (boot 0)
   = (Returned ([] ++ [Buffer_from_base64 rt_third (lit "AAEC")]), boot 0)
   /\ convertVideos rt_third [inlineVideoItem "AAEC"]
        [[Byte.xff]] (boot 99)
      = (Returned ([[Byte.xff]] ++ [Buffer_from_base64 rt_third (lit "AAEC")]),
         boot 99)
   /\ convertVideos rt_third [inlineVideoItem "AAEC"; inlineVideoItem "AAEC"]
        [] (boot 0)
      = (Returned [Buffer_from_base64 rt_third (lit "AAEC");
                   Buffer_from_base64 rt_third (lit "AAEC")], boot 0))
  /\ (convertImages rt_third [inlineImageItem "AAEC"] [] (boot 0)
      = (Returned ([] ++ [Buffer_from_base64 rt_third (lit "AAEC")]), boot 0)
      /\ convertImages rt_third [inlineImageItem "AAEC"]
           [[Byte.xff]] (boot 99)
         = (Returned ([[Byte.xff]]
                      ++ [Buffer_from_base64 rt_third (lit "AAEC")]), boot 99)
      /\ convertImages rt_third [inlineImageItem "AAEC"; inlineImageItem "AAEC"]
           [] (boot 0)
         = (Returned [Buffer_from_base64 rt_third (lit "AAEC");
                      Buffer_from_base64 rt_third (lit "AAEC")], boot 0)).
Proof.
  apply (normalize_inline_deterministic rt_third (inlineVideoItem "AAEC")
           (inlineImageItem "AAEC") (lit "AAEC") (lit "AAEC")
           [] [[Byte.xff]] (boot 0) (boot 99)).
  - reflexivity.
  - reflexivity.
Defined.

(* ================================================================== *)
(** ** What happens before the submission *)

Lemma trimStart_nil (s : jsstring) :
  trimStart s = [] <-> forallb isWhiteSpace s = true.
Proof.
  induction s as [| c s IH]; [now split |].
  cbn [trimStart forallb]. destruct (isWhiteSpace c); cbn [andb].
  - exact IH.
  - split; discriminate.
Qed.

Lemma trimStart_head (s : jsstring) :
  trimStart s = []
  \/ exists c r, trimStart s = c :: r /\ isWhiteSpace c = false.
Proof.
  induction s as [| c s IH]; [now left |].
  cbn [trimStart]. destruct (isWhiteSpace c) eqn:E; [exact IH |].
  right. now exists c, s.
Qed.

Lemma forallb_rev {A : Type} (f : A -> bool) (l : list A) :
  forallb f (rev l) = forallb f l.
Proof.
  induction l as [| a l IH]; [reflexivity |].
  cbn [rev forallb]. rewrite forallb_app, IH. cbn [forallb].
  rewrite andb_true_r. apply andb_comm.
Qed.

(** [trim] leaves nothing exactly when the string is white space only. *)
Lemma trim_nil (s : jsstring) :
  trim s = [] <-> forallb isWhiteSpace s = true.
Proof.
  unfold trim, trimEnd. split.
  - intros H.
    assert (H1 : trimStart (rev (trimStart s)) = []).
    { destruct (trimStart (rev (trimStart s))); [reflexivity |].
      cbn [rev] in H. now apply app_eq_nil in H as [_ H]. }
    apply trimStart_nil in H1. rewrite forallb_rev in H1.
    destruct (trimStart_head s) as [E | (c & r & E & Hc)].
    + now apply trimStart_nil.
    + rewrite E in H1. cbn [forallb] in H1. rewrite Hc in H1. discriminate.
  - intros H. apply trimStart_nil in H. now rewrite H.
Qed.

(** The prompt test fires exactly on the empty and the white-space-only
    prompts. *)
Lemma promptMissing_spec (prompt : jsstring) :
  promptMissing prompt = true <-> forallb isWhiteSpace prompt = true.
Proof.
  unfold promptMissing. destruct prompt as [| c s]; [now split |].
  rewrite Nat.eqb_eq, length_zero_iff_nil. apply trim_nil.
Qed.

Section BeforeSubmission.

Variable rt : Runtime.

(** The three failures of [generateImage] that precede the request leave
    the world as it was: no event, no network call, no time spent. The
    prompt is tested first, whatever the options; then its length; then
    the options. *)
Lemma generateImage_prompt_missing (prompt : jsstring)
  (options : ImageGenerationOptions.t) (w : World) :
  promptMissing prompt = true ->
  generateImage rt prompt options w
  = (Threw (Error "Prompt is required and must be a non-empty string"), w).
Proof. intros H. unfold generateImage. now rewrite H. Qed.

Lemma generateImage_prompt_too_long (prompt : jsstring)
  (options : ImageGenerationOptions.t) (w : World) :
  promptMissing prompt = false ->
  (4000 < List.length prompt)%nat ->
  generateImage rt prompt options w
  = (Threw (Error "Prompt must be less than 4000 characters"), w).
Proof.
  intros H Hlen. unfold generateImage. rewrite H.
  apply Nat.ltb_lt in Hlen. now rewrite Hlen.
Qed.

Lemma generateImage_options_rejected (prompt : jsstring)
  (options : ImageGenerationOptions.t) (w : World) (e : thrown) :
  promptMissing prompt = false ->
  (List.length prompt <= 4000)%nat ->
  validateImageOptions options = inl e ->
  generateImage rt prompt options w = (Threw e, w).
Proof.
  intros H Hlen Hv. unfold generateImage. rewrite H.
  apply Nat.ltb_ge in Hlen. now rewrite Hlen, Hv.
Qed.

(** The same for [generateVideo], with its limit of 1000. *)
Lemma generateVideo_prompt_missing (fuel : nat) (prompt : jsstring)
  (options : VideoGenerationOptions.t) (w : World) :
  promptMissing prompt = true ->
  generateVideo rt fuel prompt options w
  = (Threw (Error "Prompt is required and must be a non-empty string"), w).
Proof. intros H. unfold generateVideo. now rewrite H. Qed.

Lemma generateVideo_prompt_too_long (fuel : nat) (prompt : jsstring)
  (options : VideoGenerationOptions.t) (w : World) :
  promptMissing prompt = false ->
  (1000 < List.length prompt)%nat ->
  generateVideo rt fuel prompt options w
  = (Threw
       (Error "Prompt must be less than 1000 characters for video generation"),
     w).
Proof.
  intros H Hlen. unfold generateVideo. rewrite H.
  apply Nat.ltb_lt in Hlen. now rewrite Hlen.
Qed.

Lemma generateVideo_options_rejected (fuel : nat) (prompt : jsstring)
  (options : VideoGenerationOptions.t) (w : World) (e : thrown) :
  promptMissing prompt = false ->
  (List.length prompt <= 1000)%nat ->
  validateVideoOptions options = inl e ->
  generateVideo rt fuel prompt options w = (Threw e, w).
Proof.
  intros H Hlen Hv. unfold generateVideo. rewrite H.
  apply Nat.ltb_ge in Hlen. now rewrite Hlen, Hv.
Qed.

(** An accepted call does reach the provider: the request is the first
    event it adds to the trace. *)
Lemma generateImage_accepted_calls (prompt : jsstring)
  (options : ImageGenerationOptions.t) (w : World) :
  imageCallAccepted prompt options ->
  exists new,
    trace (snd (generateImage rt prompt options w))
    = trace w
      ++ CallGenerateImages (now w) (CONFIG_models_image rt) (trim prompt)
           (genImConfig options) :: new.
Proof.
  intros (Hp & Hlen & Hv). unfold generateImage. rewrite Hp.
  apply Nat.ltb_ge in Hlen. rewrite Hlen, Hv.
  unfold call, ret, bind at 1.
  unfold try_catch, genAI_models_generateImages, bind, Date_now, emit, elapse,
    call.
  destruct (generateImages_reply rt) as [e | res].
  - exists []. unfold throw, imageCatch, throw. now destruct e.
  - unfold ret.
    assert (Ha : appendOnly (try_catch (collectImages rt res) imageCatch)).
    { apply appendOnly_try_catch.
      - unfold collectImages.
        destruct (generatedImages res) as [[| g rest] |];
          auto with trace_db.
        apply appendOnly_bind; [apply appendOnly_convertImages |].
        intros b. destruct (List.length b =? 0)%nat; auto with trace_db.
      - intros e. destruct e; apply appendOnly_throw. }
    destruct (Ha (submittedImage rt prompt options w)) as [new Hn].
    exists new. unfold try_catch in Hn.
    unfold submittedImage in Hn at 2. cbn [trace] in Hn.
    rewrite <- app_assoc in Hn. exact Hn.
Qed.

Lemma generateVideo_accepted_calls (fuel : nat) (prompt : jsstring)
  (options : VideoGenerationOptions.t) (w : World) :
  videoCallAccepted prompt options ->
  exists new,
    trace (snd (generateVideo rt fuel prompt options w))
    = trace w
      ++ CallGenerateVideos (now w) (CONFIG_models_video rt) (trim prompt)
           (genVidConfig options) :: new.
Proof.
  intros Hacc.
  destruct (generateVideos_reply rt) as [e | operation] eqn:Hr.
  - destruct Hacc as (Hp & Hlen & Hv). unfold generateVideo. rewrite Hp.
    apply Nat.ltb_ge in Hlen. rewrite Hlen, Hv.
    unfold call, ret, bind at 1.
    unfold try_catch, genAI_models_generateVideos, bind, Date_now, emit,
      elapse, call.
    rewrite Hr. unfold throw, videoCatch, throw.
    exists []. now destruct e.
  - rewrite (generateVideo_submitted rt fuel prompt options w operation
               Hacc Hr).
    assert (Ha : appendOnly
                   (try_catch
                      (bind (pollOperation rt fuel
                               (now (submittedVideo rt prompt options w))
                               operation)
                            (collectVideos rt))
                      videoCatch)).
    { apply appendOnly_try_catch.
      - apply appendOnly_bind; [apply appendOnly_pollOperation |].
        intros o. apply appendOnly_collectVideos.
      - intros e. apply appendOnly_videoCatch. }
    destruct (Ha (submittedVideo rt prompt options w)) as [new Hn].
    rewrite Hn. unfold submittedVideo. cbn [trace].
    rewrite <- !app_assoc. cbn [app]. eexists. reflexivity.
Qed.

End BeforeSubmission.


(* ================================================================== *)
(** ** Every video call ends *)

Section Totality.

Variable rt : Runtime.

Lemma convertVideos_finishes (items : list GeneratedVideo) :
  forall (videoBuffers : list Buffer) (w : World),
    fst (convertVideos rt items videoBuffers w) <> Unfinished.
Proof.
  induction items as [| v rest IH]; intros videoBuffers w; [discriminate |].
  cbn [convertVideos].
  destruct (video v) as [videoData |].
  - destruct (uri videoData) as [[| c s] |];
      destruct (videoBytes videoData) as [[| c' s'] |];
      unfold bind, ret, console, emit, downloadGcsFile, throw;
      cbn [fst]; try discriminate; apply IH.
  - unfold bind, console, emit. apply IH.
Qed.

Lemma collectVideos_finishes (operation : GenerateVideosOperation)
  (w : World) :
  fst (collectVideos rt operation w) <> Unfinished.
Proof.
  unfold collectVideos, bind.
  destruct (error operation); [discriminate |]. unfold ret at 1.
  destruct (match response operation with
            | Some r => generatedVideos r
            | None => None
            end) as [[| v rest] |]; try discriminate.
  pose proof (convertVideos_finishes (v :: rest) [] w) as H.
  destruct (convertVideos rt (v :: rest) [] w) as [[b | e |] w1];
    cbn [fst] in H |- *; try discriminate; [| now contradiction H].
  destruct (List.length b =? 0)%nat; discriminate.
Qed.

(** With timers that do not fire early and a clock that does not run
    backwards, [generateVideo] returns or throws: fuel 41 is enough for
    every prompt, every options record and every provider. *)
Lemma generateVideo_terminates (fuel : nat) (prompt : jsstring)
  (options : VideoGenerationOptions.t) (w : World) :
  timersOnTime rt -> clockMonotone rt ->
  (41 <= fuel)%nat ->
  fst (generateVideo rt fuel prompt options w) <> Unfinished.
Proof.
  intros Htimers Hclock Hfuel.
  destruct (promptMissing prompt) eqn:Hp.
  { now rewrite generateVideo_prompt_missing. }
  destruct (Nat.lt_ge_cases 1000 (List.length prompt)) as [Hlong | Hlen].
  { now rewrite generateVideo_prompt_too_long. }
  destruct (validateVideoOptions options) as [e | []] eqn:Hv.
  { now rewrite (generateVideo_options_rejected rt fuel prompt options w e). }
  assert (Hacc : videoCallAccepted prompt options) by now repeat split.
  destruct (generateVideos_reply rt) as [e | operation] eqn:Hr.
  - unfold generateVideo. rewrite Hp.
    apply Nat.ltb_ge in Hlen. rewrite Hlen, Hv.
    unfold call, ret, bind at 1.
    unfold try_catch, genAI_models_generateVideos, bind, Date_now, emit,
      elapse, call.
    rewrite Hr. unfold throw, videoCatch, throw. now destruct e.
  - rewrite (generateVideo_submitted rt fuel prompt options w operation
               Hacc Hr).
    set (sw := submittedVideo rt prompt options w).
    pose proof (pollOperation_terminates rt Htimers Hclock fuel operation sw
                  Hfuel) as Hpoll.
    unfold try_catch, bind.
    destruct (pollOperation rt fuel (now sw) operation sw)
      as [[o | e |] w1]; cbn [fst] in Hpoll.
    + pose proof (collectVideos_finishes o w1) as Hc.
      destruct (collectVideos rt o w1) as [[b | e |] w2]; cbn [fst] in Hc |- *;
        try discriminate; [| now contradiction Hc].
      unfold videoCatch, throw. now destruct e.
    + unfold videoCatch, throw. now destruct e.
    + now contradiction Hpoll.
Qed.

End Totality.

(* ================================================================== *)
(** * More on the two generation paths *)

(** ** What is validated and what is sent *)

(** X1 -- options that [validateVideoOptions] accepts are sent as a
    configuration that it accepts too, although the sender fills in other
    defaults than the validator reads (a duration of 8 where the validator
    assumes 5). *)
Theorem genVidConfig_valid (options : VideoGenerationOptions.t) :
  validateVideoOptions options = inr tt ->
  validateVideoOptions (genVidConfig options) = inr tt.
Proof.
  destruct options as [n d a r f s np ep ga pg cq og lf ri].
  unfold validateVideoOptions, genVidConfig.
  cbn [VideoGenerationOptions.numberOfVideos
       VideoGenerationOptions.durationSeconds VideoGenerationOptions.fps
       VideoGenerationOptions.aspectRatio VideoGenerationOptions.resolution
       withDefault].
  destruct d as [d |]; destruct a as [a |]; destruct r as [r |];
    cbn [withDefault]; intros H;
    repeat match type of H with
           | (if ?c then _ else _) = _ =>
               destruct c eqn:?; [discriminate H |]
           end;
    repeat match goal with
           | E : ?c = false |- context [if ?c then _ else _] => rewrite E
           end;
    reflexivity.
Qed.

Lemma genVidConfig_valid_witness :
  validateVideoOptions (genVidConfig videoOptions_scenarioA) = inr tt.
Proof.
  apply (genVidConfig_valid videoOptions_scenarioA). reflexivity.
Defined.

(** X2 -- options that [validateImageOptions] accepts are sent as a
    configuration that it accepts too, although the sender fills in
    [image/png] where the validator assumes [image/jpeg]. *)
Theorem genImConfig_valid (options : ImageGenerationOptions.t) :
  validateImageOptions options = inr tt ->
  validateImageOptions (genImConfig options) = inr tt.
Proof.
  destruct options as [a n np l g s sf pg isa irr mime q aw sz ep og].
  unfold validateImageOptions, genImConfig.
  cbn [ImageGenerationOptions.numberOfImages
       ImageGenerationOptions.guidanceScale
       ImageGenerationOptions.outputCompressionQuality
       ImageGenerationOptions.aspectRatio
       ImageGenerationOptions.outputMimeType withDefault].
  destruct q as [q |]; destruct a as [a |]; destruct mime as [mime |];
    destruct g as [g |];
    cbn [withDefault]; intros H;
    repeat match type of H with
           | (if ?c then _ else _) = _ =>
               destruct c eqn:?; [discriminate H |]
           end;
    repeat match goal with
           | E : ?c = false |- context [if ?c then _ else _] => rewrite E
           end;
    reflexivity.
Qed.

Lemma genImConfig_valid_witness :
  validateImageOptions (genImConfig ImageGenerationOptions.empty) = inr tt.
Proof.
  apply (genImConfig_valid ImageGenerationOptions.empty). reflexivity.
Defined.

(* ================================================================== *)
(** ** What a call can return and how it can fail *)

Section Outcomes.

Variable rt : Runtime.

Lemma convertImages_console_only (items : list GeneratedImage) :
  forall (imageBuffers : list Buffer) (w : World),
    exists new,
      trace (snd (convertImages rt items imageBuffers w)) = trace w ++ new
      /\ forallb isConsole new = true.
Proof.
  induction items as [| g rest IH]; intros imageBuffers w.
  - exists []. simpl. now rewrite app_nil_r.
  - cbn [convertImages].
    assert (Hstep : forall b e,
              exists new,
                trace (snd (convertImages rt rest b
                              {| now := now w; timers := timers w;
                                 polls := polls w;
                                 trace := trace w ++ [Console e] |}))
                = trace w ++ new /\ forallb isConsole new = true).
    { intros b e.
      destruct (IH b {| now := now w; timers := timers w; polls := polls w;
                        trace := trace w ++ [Console e] |}) as (new & E & Hc).
      exists (Console e :: new). cbn [trace] in E.
      now rewrite E, <- app_assoc. }
    destruct (image g) as [imageData |].
    + destruct (truthy_string (gcsUri imageData)).
      * exists []. simpl. now rewrite app_nil_r.
      * destruct (imageBytes imageData) as [[| c s] |];
          unfold bind, console, emit; try apply Hstep. apply IH.
    + unfold bind, console, emit. apply Hstep.
Qed.

Lemma convertVideos_console_only (items : list GeneratedVideo) :
  forall (videoBuffers : list Buffer) (w : World),
    exists new,
      trace (snd (convertVideos rt items videoBuffers w)) = trace w ++ new
      /\ forallb isConsole new = true.
Proof.
  induction items as [| v rest IH]; intros videoBuffers w.
  - exists []. simpl. now rewrite app_nil_r.
  - cbn [convertVideos].
    assert (Hstep : forall b e,
              exists new,
                trace (snd (convertVideos rt rest b
                              {| now := now w; timers := timers w;
                                 polls := polls w;
                                 trace := trace w ++ [Console e] |}))
                = trace w ++ new /\ forallb isConsole new = true).
    { intros b e.
      destruct (IH b {| now := now w; timers := timers w; polls := polls w;
                        trace := trace w ++ [Console e] |}) as (new & E & Hc).
      exists (Console e :: new). cbn [trace] in E.
      now rewrite E, <- app_assoc. }
    destruct (video v) as [videoData |].
    + destruct (uri videoData) as [[| c s] |];
        destruct (videoBytes videoData) as [[| c' s'] |];
        unfold bind, ret, console, emit, downloadGcsFile, throw;
        cbn [snd trace];
        try apply Hstep; try apply IH;
        try (eexists [Console _]; split; reflexivity).
    + unfold bind, console, emit. apply Hstep.
Qed.

(** A returned buffer list has a buffer for some item: the loops only
    ever add to it. *)
Lemma convertImages_returns (items : list GeneratedImage) :
  forall (imageBuffers out : list Buffer) (w w' : World),
    convertImages rt items imageBuffers w = (Returned out, w') ->
    existsb imageHasGcsUri items = false
    /\ out = imageBuffers ++ map (Buffer_from_base64 rt) (imagePayloads items).
Proof.
  intros imageBuffers out w w' H.
  destruct (existsb imageHasGcsUri items) eqn:Hex.
  - destruct (convertImages_gcs rt items imageBuffers w Hex) as [w1 E].
    rewrite E in H. discriminate.
  - destruct (convertImages_no_gcs rt items imageBuffers w Hex) as [w1 E].
    rewrite E in H. injection H as <- _. now split.
Qed.

Lemma firstUri_cases (items : list GeneratedVideo) :
  firstUri items = None \/ exists u, firstUri items = Some u.
Proof. destruct (firstUri items) as [u |]; [right; now exists u | now left]. Qed.

Lemma convertVideos_returns (items : list GeneratedVideo) :
  forall (videoBuffers out : list Buffer) (w w' : World),
    convertVideos rt items videoBuffers w = (Returned out, w') ->
    firstUri items = None
    /\ out = videoBuffers ++ map (Buffer_from_base64 rt) (inlinePayloads items).
Proof.
  intros videoBuffers out w w' H.
  destruct (firstUri_cases items) as [Hu | [u Hu]].
  - destruct (convertVideos_no_uri rt items videoBuffers w Hu)
      as (w1 & new & E & _). rewrite E in H. injection H as <- _. now split.
  - destruct (convertVideos_firstUri rt items u videoBuffers w Hu)
      as (w1 & E & _). rewrite E in H. discriminate.
Qed.

End Outcomes.

Section Returns.

Variable rt : Runtime.

Lemma imageCallAccepted_dec (prompt : jsstring)
  (options : ImageGenerationOptions.t) :
  imageCallAccepted prompt options \/ ~ imageCallAccepted prompt options.
Proof.
  unfold imageCallAccepted.
  destruct (promptMissing prompt); [right; intros (H & _); discriminate |].
  destruct (Nat.lt_ge_cases 4000 (List.length prompt)) as [Hl | Hl];
    [right; intros (_ & H & _); lia |].
  destruct (validateImageOptions options) as [e | []];
    [right; intros (_ & _ & H); discriminate | left; now repeat split].
Qed.

Lemma videoCallAccepted_dec (prompt : jsstring)
  (options : VideoGenerationOptions.t) :
  videoCallAccepted prompt options \/ ~ videoCallAccepted prompt options.
Proof.
  unfold videoCallAccepted.
  destruct (promptMissing prompt); [right; intros (H & _); discriminate |].
  destruct (Nat.lt_ge_cases 1000 (List.length prompt)) as [Hl | Hl];
    [right; intros (_ & H & _); lia |].
  destruct (validateVideoOptions options) as [e | []];
    [right; intros (_ & _ & H); discriminate | left; now repeat split].
Qed.

(** A call that is not accepted throws and leaves the world as it was. *)
Lemma generateImage_not_accepted (prompt : jsstring)
  (options : ImageGenerationOptions.t) (w : World) :
  ~ imageCallAccepted prompt options ->
  exists e, generateImage rt prompt options w = (Threw e, w).
Proof.
  intros Hna.
  destruct (promptMissing prompt) eqn:Hp.
  { eexists. now apply generateImage_prompt_missing. }
  destruct (Nat.lt_ge_cases 4000 (List.length prompt)) as [Hl | Hl].
  { eexists. now apply generateImage_prompt_too_long. }
  destruct (validateImageOptions options) as [e | []] eqn:Hv.
  { exists e. now apply generateImage_options_rejected. }
  contradiction Hna. now repeat split.
Qed.

Lemma generateVideo_not_accepted (fuel : nat) (prompt : jsstring)
  (options : VideoGenerationOptions.t) (w : World) :
  ~ videoCallAccepted prompt options ->
  exists e, generateVideo rt fuel prompt options w = (Threw e, w).
Proof.
  intros Hna.
  destruct (promptMissing prompt) eqn:Hp.
  { eexists. now apply generateVideo_prompt_missing. }
  destruct (Nat.lt_ge_cases 1000 (List.length prompt)) as [Hl | Hl].
  { eexists. now apply generateVideo_prompt_too_long. }
  destruct (validateVideoOptions options) as [e | []] eqn:Hv.
  { exists e. now apply generateVideo_options_rejected. }
  contradiction Hna. now repeat split.
Qed.

(** An accepted call whose request the provider rejects. *)
Lemma generateImage_rejected_by_provider (prompt : jsstring)
  (options : ImageGenerationOptions.t) (w : World) (e : thrown) :
  imageCallAccepted prompt options ->
  generateImages_reply rt = inl e ->
  generateImage rt prompt options w
  = (fst (imageCatch (A := list Buffer) e w),
     submittedImage rt prompt options w).
Proof.
  intros (Hp & Hlen & Hv) Hr. unfold generateImage. rewrite Hp.
  apply Nat.ltb_ge in Hlen. rewrite Hlen, Hv.
  unfold call, ret, bind at 1.
  unfold try_catch, genAI_models_generateImages, bind, Date_now, emit, elapse,
    call.
  rewrite Hr. unfold throw, imageCatch, throw. now destruct e.
Qed.

Lemma generateVideo_rejected_by_provider (fuel : nat) (prompt : jsstring)
  (options : VideoGenerationOptions.t) (w : World) (e : thrown) :
  videoCallAccepted prompt options ->
  generateVideos_reply rt = inl e ->
  exists w',
    generateVideo rt fuel prompt options w
    = (fst (videoCatch (A := list Buffer) e w), w')
    /\ trace w'
       = trace w ++ [CallGenerateVideos (now w) (CONFIG_models_video rt)
                       (trim prompt) (genVidConfig options)].
Proof.
  intros (Hp & Hlen & Hv) Hr. unfold generateVideo. rewrite Hp.
  apply Nat.ltb_ge in Hlen. rewrite Hlen, Hv.
  unfold call, ret, bind at 1.
  unfold try_catch, genAI_models_generateVideos, bind, Date_now, emit, elapse,
    call.
  rewrite Hr. unfold throw, videoCatch, throw. eexists.
  destruct e; split; reflexivity.
Qed.

(** The shape of a successful run, read back from its outcome. *)
Lemma generateImage_returns_inv (prompt : jsstring)
  (options : ImageGenerationOptions.t) (w w' : World)
  (imageBuffers : list Buffer) :
  generateImage rt prompt options w = (Returned imageBuffers, w') ->
  imageCallAccepted prompt options
  /\ imageBuffers <> []
  /\ exists items,
       generateImages_reply rt = inr {| generatedImages := Some items |}
       /\ existsb imageHasGcsUri items = false
       /\ imageBuffers = map (Buffer_from_base64 rt) (imagePayloads items).
Proof.
  intros H.
  destruct (imageCallAccepted_dec prompt options) as [Hacc | Hna].
  2:{ destruct (generateImage_not_accepted prompt options w Hna) as [e E].
      rewrite E in H. discriminate. }
  split; [exact Hacc |].
  destruct (generateImages_reply rt) as [e | [items]] eqn:Hr.
  { rewrite (generateImage_rejected_by_provider prompt options w e Hacc Hr)
      in H. destruct e; discriminate. }
  rewrite (generateImage_answered rt prompt options w _ Hacc Hr) in H.
  unfold try_catch, collectImages in H. cbn [generatedImages] in H.
  destruct items as [[| g rest] |]; try discriminate H.
  unfold bind in H.
  destruct (convertImages rt (g :: rest) [] (submittedImage rt prompt options w))
    as [[out | e |] w1] eqn:E; try (destruct e; discriminate H);
    try discriminate H.
  apply convertImages_returns in E as [Hno Hout]. cbn [app] in Hout.
  destruct (List.length out =? 0)%nat eqn:Hlen; [discriminate H |].
  injection H as <- _.
  split.
  - intros ->. discriminate.
  - exists (g :: rest). now repeat split.
Qed.

(** X3 -- if [generateImage] returns, the call was accepted, the provider
    answered with items none of which carries a locator, and what is
    returned is the decoding of the inline payloads, in the order of the
    items; in particular the returned list is never empty. *)
Theorem generateImage_returns (prompt : jsstring)
  (options : ImageGenerationOptions.t) (w w' : World)
  (imageBuffers : list Buffer) :
  generateImage rt prompt options w = (Returned imageBuffers, w') ->
  imageCallAccepted prompt options
  /\ imageBuffers <> []
  /\ exists items,
       generateImages_reply rt = inr {| generatedImages := Some items |}
       /\ existsb imageHasGcsUri items = false
       /\ imageBuffers = map (Buffer_from_base64 rt) (imagePayloads items).
Proof. apply generateImage_returns_inv. Qed.

(** The shape of a successful run, read back from its outcome. *)
Lemma generateVideo_returns_inv (fuel : nat) (prompt : jsstring)
  (options : VideoGenerationOptions.t) (w w' : World)
  (videoBuffers : list Buffer) :
  generateVideo rt fuel prompt options w = (Returned videoBuffers, w') ->
  videoCallAccepted prompt options
  /\ videoBuffers <> []
  /\ exists final items,
       truthy_bool (done final) = true
       /\ error final = None
       /\ resultSet final = Some items
       /\ firstUri items = None
       /\ videoBuffers = map (Buffer_from_base64 rt) (inlinePayloads items).
Proof.
  intros H.
  destruct (videoCallAccepted_dec prompt options) as [Hacc | Hna].
  2:{ destruct (generateVideo_not_accepted fuel prompt options w Hna) as [e E].
      rewrite E in H. discriminate. }
  split; [exact Hacc |].
  destruct (generateVideos_reply rt) as [e | operation] eqn:Hr.
  { destruct (generateVideo_rejected_by_provider fuel prompt options w e
                Hacc Hr) as (w1 & E & _).
    rewrite E in H. destruct e; discriminate. }
  rewrite (generateVideo_submitted rt fuel prompt options w operation Hacc Hr)
    in H.
  unfold try_catch, bind at 1 in H.
  destruct (pollOperation rt fuel (now (submittedVideo rt prompt options w))
              operation (submittedVideo rt prompt options w))
    as [[final | e |] w1] eqn:Hloop;
    try (destruct e; discriminate H); try discriminate H.
  pose proof (pollOperation_returns_done rt fuel _ _ _ _ _ Hloop) as Hdone.
  unfold collectVideos, bind at 1 in H.
  destruct (error final) as [err |] eqn:Herr; [discriminate H |].
  unfold ret at 1 in H.
  destruct (match response final with
            | Some r => generatedVideos r
            | None => None
            end) as [[| v rest] |] eqn:Hres; try discriminate H.
  unfold bind at 1 in H.
  destruct (convertVideos rt (v :: rest) [] w1) as [[out | e |] w2] eqn:E;
    try (destruct e; discriminate H); try discriminate H.
  apply convertVideos_returns in E as [Hno Hout]. cbn [app] in Hout.
  destruct (List.length out =? 0)%nat eqn:Hlen; [discriminate H |].
  unfold bind, console, emit, ret in H. injection H as <- _.
  split.
  - intros ->. discriminate.
  - exists final, (v :: rest). now repeat split.
Qed.


End Returns.

Lemma generateImage_returns_witness :
  imageCallAccepted samplePrompt ImageGenerationOptions.empty
  /\ [[Byte.x00; Byte.x01; Byte.x02]] <> []
  /\ exists items,
       generateImages_reply rt_imagesInline
       = inr {| generatedImages := Some items |}
       /\ existsb imageHasGcsUri items = false
       /\ [[Byte.x00; Byte.x01; Byte.x02]]
          = map (Buffer_from_base64 rt_imagesInline) (imagePayloads items).
Proof.
  apply (generateImage_returns rt_imagesInline samplePrompt
           ImageGenerationOptions.empty (boot 0)
           (snd (generateImage rt_imagesInline samplePrompt
                   ImageGenerationOptions.empty (boot 0)))).
  vm_compute. reflexivity.
Defined.


Lemma startsWith_app (p s : jsstring) : startsWith p (p ++ s) = true.
Proof.
  induction p as [| c p IH]; [reflexivity |].
  cbn [app startsWith]. now rewrite N.eqb_refl, IH.
Qed.

Section Failures.

Variable rt : Runtime.



Lemma videoCatch_wraps {A : Type} (e0 e : thrown) (w w' : World) :
  videoCatch (A := A) e0 w = (Threw e, w') ->
  exists m, e = JsError m
            /\ startsWith (lit "Video generation failed") m = true.
Proof.
  unfold videoCatch, throw. destruct e0 as [m0 |]; intros H;
    injection H as <- _.
  - exists (lit "Video generation failed: " ++ m0). split; [reflexivity |].
    change (lit "Video generation failed: ")
      with (lit "Video generation failed" ++ lit ": ").
    rewrite <- app_assoc. apply startsWith_app.
  - eexists. split; reflexivity.
Qed.

Lemma imageCatch_wraps {A : Type} (e0 e : thrown) (w w' : World) :
  imageCatch (A := A) e0 w = (Threw e, w') ->
  exists m, e = JsError m
            /\ startsWith (lit "Image generation failed") m = true.
Proof.
  unfold imageCatch, throw. destruct e0 as [m0 |]; intros H;
    injection H as <- _.
  - exists (lit "Image generation failed: " ++ m0). split; [reflexivity |].
    change (lit "Image generation failed: ")
      with (lit "Image generation failed" ++ lit ": ").
    rewrite <- app_assoc. apply startsWith_app.
  - eexists. split; reflexivity.
Qed.

(** X7 -- whatever an accepted video call throws -- a rejection by the
    provider at submission or at a refresh, the timeout, the lost handle,
    the provider's error, an empty or unusable result, a locator -- is an
    [Error] whose message starts with [Video generation failed]. *)
Theorem generateVideo_failure_wrapped (fuel : nat) (prompt : jsstring)
  (options : VideoGenerationOptions.t) (w w' : World) (e : thrown) :
  videoCallAccepted prompt options ->
  generateVideo rt fuel prompt options w = (Threw e, w') ->
  exists m, e = JsError m
            /\ startsWith (lit "Video generation failed") m = true.
Proof.
  intros Hacc H.
  destruct (generateVideos_reply rt) as [e0 | operation] eqn:Hr.
  - destruct (generateVideo_rejected_by_provider rt fuel prompt options w e0
                Hacc Hr) as (w1 & E & _).
    rewrite E in H.
    apply (videoCatch_wraps (A := list Buffer) e0 e w w).
    destruct (videoCatch (A := list Buffer) e0 w) as [r w2] eqn:Ec.
    cbn [fst] in H. injection H as -> _.
    unfold videoCatch, throw in Ec. destruct e0; injection Ec as <- <-;
      reflexivity.
  - rewrite (generateVideo_submitted rt fuel prompt options w operation
               Hacc Hr) in H.
    unfold try_catch in H.
    destruct (bind (pollOperation rt fuel
                      (now (submittedVideo rt prompt options w)) operation)
                (collectVideos rt) (submittedVideo rt prompt options w))
      as [[b | e0 |] w1]; try discriminate H.
    eapply videoCatch_wraps. exact H.
Qed.

(** X8 -- whatever an accepted image call throws is an [Error] whose
    message starts with [Image generation failed]. *)
Theorem generateImage_failure_wrapped (prompt : jsstring)
  (options : ImageGenerationOptions.t) (w w' : World) (e : thrown) :
  imageCallAccepted prompt options ->
  generateImage rt prompt options w = (Threw e, w') ->
  exists m, e = JsError m
            /\ startsWith (lit "Image generation failed") m = true.
Proof.
  intros Hacc H.
  destruct (generateImages_reply rt) as [e0 | res] eqn:Hr.
  - rewrite (generateImage_rejected_by_provider rt prompt options w e0
               Hacc Hr) in H.
    apply (imageCatch_wraps (A := list Buffer) e0 e w w).
    destruct (imageCatch (A := list Buffer) e0 w) as [r w2] eqn:Ec.
    cbn [fst] in H. injection H as -> _.
    unfold imageCatch, throw in Ec. destruct e0; injection Ec as <- <-;
      reflexivity.
  - rewrite (generateImage_answered rt prompt options w res Hacc Hr) in H.
    unfold try_catch in H.
    destruct (collectImages rt res (submittedImage rt prompt options w))
      as [[b | e0 |] w1]; try discriminate H.
    eapply imageCatch_wraps. exact H.
Qed.

End Failures.

Lemma generateVideo_failure_wrapped_witness :
  exists m,
    Error
      "Video generation failed: GCS file download not implemented. Cannot download from gs://bucket/clip.mp4"
    = JsError m
    /\ startsWith (lit "Video generation failed") m = true.
Proof.
  apply (generateVideo_failure_wrapped rt_scenarioD 41 samplePrompt
           VideoGenerationOptions.empty (boot 0) (snd run_scenarioD)).
  - exact samplePrompt_accepted.
  - vm_compute. reflexivity.
Defined.

Lemma generateImage_failure_wrapped_witness :
  exists m,
    wrappedGcsUriError = JsError m
    /\ startsWith (lit "Image generation failed") m = true.
Proof.
  apply (generateImage_failure_wrapped rt_imagesRemote samplePrompt
           ImageGenerationOptions.empty (boot 0)
           (snd (generateImage rt_imagesRemote samplePrompt
                   ImageGenerationOptions.empty (boot 0)))).
  - exact samplePrompt_image_accepted.
  - vm_compute. reflexivity.
Defined.

(* ================================================================== *)
(** ** How often one call polls *)

Section PollingBound.

Variable rt : Runtime.
Hypothesis Htimers : timersOnTime rt.
Hypothesis Hclock : clockMonotone rt.

(** Whatever the provider answers and however the loop ends, each timer
    moves the clock by the polling interval at least, and no timer is set
    once a deadline check has failed. *)
Lemma pollOperation_bounded_from (fuel : nat) :
  forall (startTime : Z) (operation : GenerateVideosOperation) (w : World),
    exists new,
      trace (snd (pollOperation rt fuel startTime operation w))
      = trace w ++ new
      /\ (maxWaitTime < now w - startTime -> new = [])
      /\ (now w - startTime <= maxWaitTime ->
          pollInterval * Z.of_nat (timerCount new)
          <= maxWaitTime - (now w - startTime) + pollInterval)
      /\ (refreshCount new <= timerCount new)%nat.
Proof.
  assert (Hdone : forall fuel startTime operation w,
            truthy_bool (done operation) = true ->
            exists new,
              trace (snd (pollOperation rt fuel startTime operation w))
              = trace w ++ new
              /\ (maxWaitTime < now w - startTime -> new = [])
              /\ (now w - startTime <= maxWaitTime ->
                  pollInterval * Z.of_nat (timerCount new)
                  <= maxWaitTime - (now w - startTime) + pollInterval)
              /\ (refreshCount new <= timerCount new)%nat).
  { intros fuel0 startTime operation w Hd. exists [].
    rewrite pollOperation_done by assumption. cbn [snd].
    rewrite app_nil_r. split; [reflexivity |]. split; [reflexivity |].
    split; [| reflexivity].
    intros H. change (timerCount []) with 0%nat. unfold pollInterval. lia. }
  assert (Hlate : forall fuel startTime operation w,
            truthy_bool (done operation) = false ->
            maxWaitTime < now w - startTime ->
            exists new,
              trace (snd (pollOperation rt fuel startTime operation w))
              = trace w ++ new
              /\ (maxWaitTime < now w - startTime -> new = [])
              /\ (now w - startTime <= maxWaitTime ->
                  pollInterval * Z.of_nat (timerCount new)
                  <= maxWaitTime - (now w - startTime) + pollInterval)
              /\ (refreshCount new <= timerCount new)%nat).
  { intros fuel0 startTime operation w Hd Hl. exists [].
    rewrite pollOperation_timeout by assumption. cbn [snd].
    rewrite app_nil_r. split; [reflexivity |]. split; [reflexivity |].
    split; [intros; lia | reflexivity]. }
  assert (Hlost : forall fuel startTime operation w,
            truthy_bool (done operation) = false ->
            now w - startTime <= maxWaitTime ->
            truthy_string (name operation) = false ->
            exists new,
              trace (snd (pollOperation rt fuel startTime operation w))
              = trace w ++ new
              /\ (maxWaitTime < now w - startTime -> new = [])
              /\ (now w - startTime <= maxWaitTime ->
                  pollInterval * Z.of_nat (timerCount new)
                  <= maxWaitTime - (now w - startTime) + pollInterval)
              /\ (refreshCount new <= timerCount new)%nat).
  { intros fuel0 startTime operation w Hd Hok Hn.
    exists [Timer (now w) pollInterval].
    rewrite pollOperation_lost by assumption. cbn [snd afterSleep trace].
    split; [reflexivity |]. split; [intros; lia |].
    change (timerCount [Timer (now w) pollInterval]) with 1%nat.
    change (refreshCount [Timer (now w) pollInterval]) with 0%nat.
    split; [intros; lia | lia]. }
  assert (Hthrows : forall fuel startTime operation w e,
            truthy_bool (done operation) = false ->
            now w - startTime <= maxWaitTime ->
            truthy_string (name operation) = true ->
            getVideosOperation_reply rt (polls w) = inl e ->
            exists new,
              trace (snd (pollOperation rt fuel startTime operation w))
              = trace w ++ new
              /\ (maxWaitTime < now w - startTime -> new = [])
              /\ (now w - startTime <= maxWaitTime ->
                  pollInterval * Z.of_nat (timerCount new)
                  <= maxWaitTime - (now w - startTime) + pollInterval)
              /\ (refreshCount new <= timerCount new)%nat).
  { intros fuel0 startTime operation w e Hd Hok Hn Hr.
    exists [Timer (now w) pollInterval;
            CallGetVideosOperation (now w + timer_elapsed rt (timers w))
              operation].
    rewrite (pollOperation_refresh_throws rt _ _ _ _ e) by assumption.
    cbn [snd afterRefresh afterSleep trace now]. rewrite <- app_assoc.
    split; [reflexivity |]. split; [intros; lia |].
    change (timerCount [Timer (now w) pollInterval;
                        CallGetVideosOperation
                          (now w + timer_elapsed rt (timers w)) operation])
      with 1%nat.
    change (refreshCount [Timer (now w) pollInterval;
                          CallGetVideosOperation
                            (now w + timer_elapsed rt (timers w)) operation])
      with 1%nat.
    split; [intros; lia | lia]. }
  induction fuel as [| fuel IH]; intros startTime operation w;
    (destruct (truthy_bool (done operation)) eqn:Hd; [now apply Hdone |]);
    (destruct (Z_lt_le_dec maxWaitTime (now w - startTime)) as [Hl | Hok];
     [now apply Hlate |]);
    (destruct (truthy_string (name operation)) eqn:Hn; [| now apply Hlost]);
    (destruct (getVideosOperation_reply rt (polls w)) as [e | o1] eqn:Hr;
     [now apply (Hthrows _ _ _ _ e) |]);
    destruct (progressLog_quiet o1) as (Q1 & Q2 & _ & _).
  - exists (Timer (now w) pollInterval
            :: CallGetVideosOperation
                 (now w + timer_elapsed rt (timers w)) operation
            :: progressLog o1).
    rewrite (pollOperation_refresh rt 0 _ _ o1) by assumption.
    cbn [snd]. rewrite iteration_trace.
    split; [reflexivity |]. split; [intros; lia |].
    change (timerCount (Timer (now w) pollInterval
              :: CallGetVideosOperation
                   (now w + timer_elapsed rt (timers w)) operation
              :: progressLog o1))
      with (S (timerCount (progressLog o1))).
    change (refreshCount (Timer (now w) pollInterval
              :: CallGetVideosOperation
                   (now w + timer_elapsed rt (timers w)) operation
              :: progressLog o1))
      with (S (refreshCount (progressLog o1))).
    rewrite Q1, Q2. split; [intros; lia | lia].
  - rewrite (pollOperation_refresh rt (S fuel) _ _ o1) by assumption.
    set (w2 := afterProgress o1 (afterRefresh rt operation w)).
    pose proof (iteration_clock rt operation o1 w) as Hnow.
    pose proof (iteration_trace rt operation o1 w) as Htr.
    fold w2 in Hnow, Htr.
    pose proof (Htimers (timers w)) as Ht.
    pose proof (Hclock (polls w)) as Hlat.
    destruct (IH startTime o1 w2) as (new' & E & Hnil & Hcount & Hle).
    exists (Timer (now w) pollInterval
            :: CallGetVideosOperation
                 (now w + timer_elapsed rt (timers w)) operation
            :: progressLog o1 ++ new').
    split; [rewrite E, Htr, <- app_assoc; reflexivity |].
    split; [intros; lia |].
    change (timerCount (Timer (now w) pollInterval
              :: CallGetVideosOperation
                   (now w + timer_elapsed rt (timers w)) operation
              :: progressLog o1 ++ new'))
      with (S (timerCount (progressLog o1 ++ new'))).
    change (refreshCount (Timer (now w) pollInterval
              :: CallGetVideosOperation
                   (now w + timer_elapsed rt (timers w)) operation
              :: progressLog o1 ++ new'))
      with (S (refreshCount (progressLog o1 ++ new'))).
    rewrite timerCount_app, refreshCount_app, Q1, Q2.
    cbn [Nat.add]. split; [| lia].
    intros _.
    destruct (Z_lt_le_dec maxWaitTime (now w2 - startTime)) as [Hl2 | Hok2].
    + rewrite (Hnil Hl2). change (timerCount []) with 0%nat. lia.
    + specialize (Hcount Hok2). lia.
Qed.

Lemma collectVideos_console_only (operation : GenerateVideosOperation)
  (w : World) :
  exists new,
    trace (snd (collectVideos rt operation w)) = trace w ++ new
    /\ forallb isConsole new = true.
Proof.
  unfold collectVideos, bind at 1.
  destruct (error operation).
  { exists []. cbn [snd]. now rewrite app_nil_r. }
  unfold ret at 1.
  destruct (match response operation with
            | Some r => generatedVideos r
            | None => None
            end) as [[| v rest] |];
    try (exists []; cbn [snd throw]; now rewrite app_nil_r).
  destruct (convertVideos_console_only rt (v :: rest) [] w) as (new & E & Hc).
  unfold bind at 1.
  destruct (convertVideos rt (v :: rest) [] w) as [[out | e |] w1];
    cbn [snd] in E; try (exists new; now split).
  destruct (List.length out =? 0)%nat; [exists new; now split |].
  unfold bind, console, emit, ret. cbn [snd trace].
  exists (new ++ [Console (LogGenerated (List.length out))]).
  rewrite E, <- app_assoc. split; [reflexivity |].
  rewrite forallb_app, Hc. reflexivity.
Qed.

(** X9 -- with timers that do not fire early and refreshes that take no
    negative time, one call of [generateVideo] sets at most 41 timers and
    sends at most 41 refresh requests, whatever the prompt, the options,
    the answers of the provider and the outcome of the call. *)
Theorem generateVideo_polls_at_most_41 (fuel : nat) (prompt : jsstring)
  (options : VideoGenerationOptions.t) (w : World) :
  exists new,
    trace (snd (generateVideo rt fuel prompt options w)) = trace w ++ new
    /\ (timerCount new <= 41)%nat
    /\ (refreshCount new <= 41)%nat.
Proof.
  destruct (videoCallAccepted_dec prompt options) as [Hacc | Hna].
  2:{ destruct (generateVideo_not_accepted rt fuel prompt options w Hna)
        as [e E].
      exists []. rewrite E. cbn [snd]. rewrite app_nil_r.
      repeat split; unfold timerCount, refreshCount; simpl; lia. }
  destruct (generateVideos_reply rt) as [e | operation] eqn:Hr.
  { destruct (generateVideo_rejected_by_provider rt fuel prompt options w e
                Hacc Hr) as (w1 & E & Htr).
    eexists. rewrite E. cbn [snd]. split; [exact Htr |].
    unfold timerCount, refreshCount. simpl. lia. }
  rewrite (generateVideo_submitted rt fuel prompt options w operation Hacc Hr).
  set (sw := submittedVideo rt prompt options w).
  destruct (pollOperation_bounded_from fuel (now sw) operation sw)
    as (new & E & _ & Hcount & Hle).
  assert (Hbound : (timerCount new <= 41)%nat).
  { assert (H0 : now sw - now sw <= maxWaitTime) by (unfold maxWaitTime; lia).
    specialize (Hcount H0). unfold maxWaitTime, pollInterval in Hcount. lia. }
  assert (Hsw : exists pre, trace sw = trace w ++ pre
                            /\ timerCount pre = 0%nat
                            /\ refreshCount pre = 0%nat).
  { eexists. unfold sw, submittedVideo. cbn [trace].
    rewrite <- app_assoc. split; [reflexivity |]. split; reflexivity. }
  destruct Hsw as (pre & Hpre & P1 & P2).
  unfold try_catch, bind.
  destruct (pollOperation rt fuel (now sw) operation sw)
    as [[final | e |] w1]; cbn [snd] in E.
  - destruct (collectVideos_console_only final w1) as (logs & El & Hc).
    destruct (console_only_counts logs Hc) as (L1 & L2 & _).
    exists (pre ++ new ++ logs).
    assert (Etr : trace (snd (collectVideos rt final w1))
                  = trace w ++ pre ++ new ++ logs)
      by (rewrite El, E, Hpre; now rewrite <- !app_assoc).
    destruct (collectVideos rt final w1) as [[b | e |] w2]; cbn [snd] in Etr;
      (split; [try (destruct e); exact Etr |]);
      rewrite !timerCount_app, !refreshCount_app, P1, P2, L1, L2; lia.
  - exists (pre ++ new).
    split; [destruct e; cbn [snd videoCatch throw];
            rewrite E, Hpre; now rewrite <- app_assoc |].
    rewrite !timerCount_app, !refreshCount_app, P1, P2. lia.
  - exists (pre ++ new). cbn [snd].
    split; [rewrite E, Hpre; now rewrite <- app_assoc |].
    rewrite !timerCount_app, !refreshCount_app, P1, P2. lia.
Qed.

End PollingBound.

Lemma generateVideo_polls_at_most_41_witness :
  exists new,
    trace (snd (generateVideo rt_pending 41 samplePrompt
                  VideoGenerationOptions.empty (boot 0)))
    = trace (boot 0) ++ new
    /\ (timerCount new <= 41)%nat
    /\ (refreshCount new <= 41)%nat.
Proof.
  apply (generateVideo_polls_at_most_41 rt_pending).
  - apply sampleRuntime_timersOnTime.
  - apply sampleRuntime_clockMonotone.
Defined.

(* ================================================================== *)
(** ** Answers without anything usable *)

Section Unusable.

Variable rt : Runtime.

(** X10 -- an accepted image call that the provider answers without any
    item fails with [No images were generated]; answered with items that
    all lack image bytes (and carry no locator), it fails with [No valid
    image data was found in the response]; both wrapped by the catch
    clause. *)
Theorem generateImage_nothing_usable (prompt : jsstring)
  (options : ImageGenerationOptions.t) (w : World)
  (res : GenerateImagesResponse) :
  imageCallAccepted prompt options ->
  generateImages_reply rt = inr res ->
  (generatedImages res = None \/ generatedImages res = Some [] ->
   generateImage rt prompt options w
   = (Threw (Error "Image generation failed: No images were generated"),
      submittedImage rt prompt options w))
  /\ (forall items,
        generatedImages res = Some items -> items <> [] ->
        existsb imageHasGcsUri items = false ->
        imagePayloads items = [] ->
        exists w',
          generateImage rt prompt options w
          = (Threw (Error
               "Image generation failed: No valid image data was found in the response"),
             w')).
Proof.
  intros Hacc Hr. split.
  - intros Hnone.
    rewrite (generateImage_answered rt prompt options w res Hacc Hr).
    unfold try_catch, collectImages.
    destruct Hnone as [-> | ->]; reflexivity.
  - intros items Hi Hne Hno Hpay.
    rewrite (generateImage_answered rt prompt options w res Hacc Hr).
    unfold try_catch, collectImages. rewrite Hi.
    destruct items as [| g rest]; [now contradiction Hne |].
    destruct (convertImages_no_gcs rt (g :: rest) []
                (submittedImage rt prompt options w) Hno) as [w' E].
    exists w'. unfold bind. rewrite E, Hpay. reflexivity.
Qed.

(** X11 -- when the loop of an accepted video call is left with an
    operation without error whose result set is not empty but holds no
    locator and no inline bytes, the call fails with [No valid video data
    was found in the response], wrapped by the catch clause. *)
Theorem generateVideo_nothing_usable (fuel : nat) (prompt : jsstring)
  (options : VideoGenerationOptions.t) (w w1 : World)
  (operation final : GenerateVideosOperation)
  (items : list GeneratedVideo) :
  videoCallAccepted prompt options ->
  generateVideos_reply rt = inr operation ->
  pollOperation rt fuel (now (submittedVideo rt prompt options w)) operation
    (submittedVideo rt prompt options w) = (Returned final, w1) ->
  error final = None ->
  resultSet final = Some items ->
  items <> [] ->
  firstUri items = None ->
  inlinePayloads items = [] ->
  exists w',
    generateVideo rt fuel prompt options w
    = (Threw (Error
         "Video generation failed: No valid video data was found in the response"),
       w').
Proof.
  intros Hacc Hr Hloop He Hres Hne Hu Hpay.
  rewrite (generateVideo_submitted rt fuel prompt options w operation Hacc Hr).
  unfold try_catch, bind at 1. rewrite Hloop.
  unfold collectVideos, bind at 1. rewrite He. unfold ret at 1.
  unfold resultSet in Hres. rewrite Hres.
  destruct items as [| v rest]; [now contradiction Hne |].
  destruct (convertVideos_no_uri rt (v :: rest) [] w1 Hu)
    as (w' & new & E & _).
  exists w'. unfold bind. rewrite E, Hpay. reflexivity.
Qed.

End Unusable.

Lemma generateImage_nothing_usable_witness :
  (generatedImages {| generatedImages := Some [ {| image := None |} ] |} = None
   \/ generatedImages {| generatedImages := Some [ {| image := None |} ] |}
      = Some [] ->
   generateImage rt_imagesEmpty samplePrompt ImageGenerationOptions.empty
     (boot 0)
   = (Threw (Error "Image generation failed: No images were generated"),
      submittedImage rt_imagesEmpty samplePrompt ImageGenerationOptions.empty
        (boot 0)))
  /\ (forall items,
        generatedImages {| generatedImages := Some [ {| image := None |} ] |}
        = Some items -> items <> [] ->
        existsb imageHasGcsUri items = false ->
        imagePayloads items = [] ->
        exists w',
          generateImage rt_imagesEmpty samplePrompt
            ImageGenerationOptions.empty (boot 0)
          = (Threw (Error
               "Image generation failed: No valid image data was found in the response"),
             w')).
Proof.
  apply (generateImage_nothing_usable rt_imagesEmpty samplePrompt
           ImageGenerationOptions.empty (boot 0)
           {| generatedImages := Some [ {| image := None |} ] |}).
  - exact samplePrompt_image_accepted.
  - reflexivity.
Defined.

Lemma generateVideo_nothing_usable_witness :
  exists w',
    generateVideo rt_videoUnusable 41 samplePrompt VideoGenerationOptions.empty
      (boot 0)
    = (Threw (Error
         "Video generation failed: No valid video data was found in the response"),
       w').
Proof.
  apply (generateVideo_nothing_usable rt_videoUnusable 41 samplePrompt
           VideoGenerationOptions.empty (boot 0)
           (submittedVideo rt_videoUnusable samplePrompt
              VideoGenerationOptions.empty (boot 0))
           (finishedWith [ {| video := None |} ])
           (finishedWith [ {| video := None |} ])
           [ {| video := None |} ]).
  - exact samplePrompt_accepted.
  - reflexivity.
  - reflexivity.
  - reflexivity.
  - reflexivity.
  - discriminate.
  - reflexivity.
  - reflexivity.
Defined.

(* ================================================================== *)
(** ** Prompts of white space *)

(** X12 -- a prompt that is empty or consists of white space only (in the
    sense of [String.prototype.trim]) makes both entry points throw the
    same error, whatever the options, before anything else happens. *)
Theorem whitespace_prompt_rejected (rt : Runtime) (fuel : nat)
  (prompt : jsstring) (imageOptions : ImageGenerationOptions.t)
  (videoOptions : VideoGenerationOptions.t) (w : World) :
  forallb isWhiteSpace prompt = true ->
  generateImage rt prompt imageOptions w
  = (Threw (Error "Prompt is required and must be a non-empty string"), w)
  /\ generateVideo rt fuel prompt videoOptions w
     = (Threw (Error "Prompt is required and must be a non-empty string"), w).
Proof.
  intros H. apply promptMissing_spec in H. split.
  - now apply generateImage_prompt_missing.
  - now apply generateVideo_prompt_missing.
Qed.

Lemma whitespace_prompt_rejected_witness :
  generateImage rt_pending [32; 9; 10; 160; 8239; 65279]%N
    imageOptions_NaN_count (boot 0)
  = (Threw (Error "Prompt is required and must be a non-empty string"), boot 0)
  /\ generateVideo rt_pending 41 [32; 9; 10; 160; 8239; 65279]%N
       videoOptions_NaN_count (boot 0)
     = (Threw (Error "Prompt is required and must be a non-empty string"),
        boot 0).
Proof.
  apply (whitespace_prompt_rejected rt_pending 41
           [32; 9; 10; 160; 8239; 65279]%N).
  reflexivity.
Defined.

(* ================================================================== *)
(** ** The validators on numbers that are numbers *)

(** X13 -- on options whose numeric fields are not NaN,
    [validateVideoOptions] returns normally exactly when count, duration,
    frame rate (if present), aspect ratio and resolution keep their rules
    (fields left out counting with their defaults), and otherwise throws
    the error of the first broken rule, in that order, naming the field and
    its range. *)
Theorem validateVideoOptions_exact (o : VideoGenerationOptions.t) :
  videoNumbersDefined o ->
  (validateVideoOptions o = inr tt <-> videoRules o)
  /\ (~ in_range 1 4
          (withDefault (num 1) (VideoGenerationOptions.numberOfVideos o)) ->
      validateVideoOptions o
      = inl (Error "numberOfVideos must be between 1 and 4"))
  /\ (in_range 1 4
        (withDefault (num 1) (VideoGenerationOptions.numberOfVideos o)) ->
      ~ in_range 2 10
          (withDefault (num 5) (VideoGenerationOptions.durationSeconds o)) ->
      validateVideoOptions o
      = inl (Error "durationSeconds must be between 2 and 10"))
  /\ (in_range 1 4
        (withDefault (num 1) (VideoGenerationOptions.numberOfVideos o)) ->
      in_range 2 10
        (withDefault (num 5) (VideoGenerationOptions.durationSeconds o)) ->
      ~ when_present (in_range 8 30) (VideoGenerationOptions.fps o) ->
      validateVideoOptions o = inl (Error "fps must be between 8 and 30"))
  /\ (in_range 1 4
        (withDefault (num 1) (VideoGenerationOptions.numberOfVideos o)) ->
      in_range 2 10
        (withDefault (num 5) (VideoGenerationOptions.durationSeconds o)) ->
      when_present (in_range 8 30) (VideoGenerationOptions.fps o) ->
      ~ In (withDefault (lit "16:9") (VideoGenerationOptions.aspectRatio o))
          [lit "16:9"; lit "9:16"] ->
      validateVideoOptions o
      = inl (Error "aspectRatio must be one of: 16:9, 9:16"))
  /\ (in_range 1 4
        (withDefault (num 1) (VideoGenerationOptions.numberOfVideos o)) ->
      in_range 2 10
        (withDefault (num 5) (VideoGenerationOptions.durationSeconds o)) ->
      when_present (in_range 8 30) (VideoGenerationOptions.fps o) ->
      In (withDefault (lit "16:9") (VideoGenerationOptions.aspectRatio o))
        [lit "16:9"; lit "9:16"] ->
      ~ In (withDefault (lit "720p") (VideoGenerationOptions.resolution o))
          [lit "720p"; lit "1080p"] ->
      validateVideoOptions o
      = inl (Error "resolution must be one of: 720p, 1080p")).
Proof.
  intros Hd. split; [now apply validateVideoOptions_iff |].
  exact (validateVideoOptions_first_violation o Hd).
Qed.

Lemma validateVideoOptions_exact_witness :
  validateVideoOptions videoOptions_fiveVideos
  = inl (Error "numberOfVideos must be between 1 and 4").
Proof.
  refine (proj1 (proj2 (validateVideoOptions_exact videoOptions_fiveVideos _))
            _).
  - repeat split; discriminate.
  - vm_compute. intros [_ H]. now apply H.
Defined.

(** X14 -- on options whose numeric fields are not NaN,
    [validateImageOptions] returns normally exactly when count, guidance
    scale (if present), compression quality, aspect ratio and output MIME
    type keep their rules, and otherwise throws the error of the first
    broken rule, in that order, naming the field and its range. *)
Theorem validateImageOptions_exact (o : ImageGenerationOptions.t) :
  imageNumbersDefined o ->
  (validateImageOptions o = inr tt <-> imageRules o)
  /\ (~ in_range 1 8
          (withDefault (num 1) (ImageGenerationOptions.numberOfImages o)) ->
      validateImageOptions o
      = inl (Error "numberOfImages must be between 1 and 8"))
  /\ (in_range 1 8
        (withDefault (num 1) (ImageGenerationOptions.numberOfImages o)) ->
      ~ when_present (in_range 1 20)
          (ImageGenerationOptions.guidanceScale o) ->
      validateImageOptions o
      = inl (Error "guidanceScale must be between 1 and 20"))
  /\ (in_range 1 8
        (withDefault (num 1) (ImageGenerationOptions.numberOfImages o)) ->
      when_present (in_range 1 20) (ImageGenerationOptions.guidanceScale o) ->
      ~ in_range 1 100
          (withDefault (num 85)
             (ImageGenerationOptions.outputCompressionQuality o)) ->
      validateImageOptions o
      = inl (Error "outputCompressionQuality must be between 1 and 100"))
  /\ (in_range 1 8
        (withDefault (num 1) (ImageGenerationOptions.numberOfImages o)) ->
      when_present (in_range 1 20) (ImageGenerationOptions.guidanceScale o) ->
      in_range 1 100
        (withDefault (num 85)
           (ImageGenerationOptions.outputCompressionQuality o)) ->
      ~ In (withDefault (lit "1:1") (ImageGenerationOptions.aspectRatio o))
          [lit "1:1"; lit "3:4"; lit "4:3"; lit "9:16"; lit "16:9"] ->
      validateImageOptions o
      = inl (Error "aspectRatio must be one of: 1:1, 3:4, 4:3, 9:16, 16:9"))
  /\ (in_range 1 8
        (withDefault (num 1) (ImageGenerationOptions.numberOfImages o)) ->
      when_present (in_range 1 20) (ImageGenerationOptions.guidanceScale o) ->
      in_range 1 100
        (withDefault (num 85)
           (ImageGenerationOptions.outputCompressionQuality o)) ->
      In (withDefault (lit "1:1") (ImageGenerationOptions.aspectRatio o))
        [lit "1:1"; lit "3:4"; lit "4:3"; lit "9:16"; lit "16:9"] ->
      ~ In (withDefault (lit "image/jpeg")
              (ImageGenerationOptions.outputMimeType o))
          [lit "image/jpeg"; lit "image/png"] ->
      validateImageOptions o
      = inl (Error "outputMimeType must be one of: image/jpeg, image/png")).
Proof.
  intros Hd. split; [now apply validateImageOptions_iff |].
  exact (validateImageOptions_first_violation o Hd).
Qed.

Lemma validateImageOptions_exact_witness :
  validateImageOptions imageOptions_noImages
  = inl (Error "numberOfImages must be between 1 and 8").
Proof.
  refine (proj1 (proj2 (validateImageOptions_exact imageOptions_noImages _))
            _).
  - repeat split; discriminate.
  - vm_compute. intros [H _]. now apply H.
Defined.

(* ================================================================== *)
(** * Listing the models *)

Section Listing.

Variable host : Host.

(** X15 -- [getAvailableModels] returns the names of the listed models
    that have one, in the order of the page: a model without a name or
    with an empty name is left out, so no returned name is empty; when the
    listing fails it throws an [Error] that quotes what was thrown. *)
Theorem getAvailableModels_names (m : Machine) :
  (forall page, models_list_reply host = inr page ->
     exists names m',
       getAvailableModels host m = (Returned names, m')
       /\ ~ In [] names
       /\ (forall s, In s names <->
                     s <> [] /\ exists model,
                                  In model page /\ model_name model = Some s)
       /\ (List.length names <= List.length page)%nat)
  /\ (forall e, models_list_reply host = inl e ->
        exists m',
          getAvailableModels host m
          = (Threw (JsError (lit "Failed to retrieve available models: "
                             ++ String_of_thrown host e)), m')).
Proof.
  split.
  - intros page Hr. unfold getAvailableModels, ttry_catch, tbind,
      genAI_models_list, tret. rewrite Hr.
    eexists. eexists. split; [reflexivity |].
    set (name_or_empty := fun model : Model =>
                            match model_name model with
                            | Some (c :: s) => c :: s
                            | _ => []
                            end).
    set (nonEmpty := fun s : jsstring => match s with
                                         | [] => false
                                         | _ => true
                                         end).
    split; [| split].
    + intros Hin. apply filter_In in Hin as [_ H]. discriminate.
    + intros s. rewrite filter_In, in_map_iff. split.
      * intros [(model & Hn & Hin) Hs]. split.
        -- intros ->. discriminate.
        -- exists model. split; [exact Hin |].
           unfold name_or_empty in Hn.
           destruct (model_name model) as [[| c s'] |]; subst s;
             try discriminate; reflexivity.
      * intros [Hs (model & Hin & Hn)]. split.
        -- exists model. split; [| exact Hin].
           unfold name_or_empty. rewrite Hn.
           destruct s; [now contradiction Hs | reflexivity].
        -- destruct s; [now contradiction Hs | reflexivity].
    + etransitivity; [apply filter_length_le |]. now rewrite length_map.
  - intros e Hr. unfold getAvailableModels, ttry_catch, tbind,
      genAI_models_list, tthrow. rewrite Hr. eexists. reflexivity.
Qed.

(** X16 -- [validateService] never throws: it returns [true] when the
    listing answers with at least one model, and [false] when the listing
    answers with none or fails -- the failure goes to the console. *)
Theorem validateService_never_throws (m : Machine) :
  exists b m',
    validateService host m = (Returned b, m')
    /\ (b = true <->
        exists model page, models_list_reply host = inr (model :: page))
    /\ (forall e, models_list_reply host = inl e ->
        In (ConsoleErrorValidation e) (journal m')).
Proof.
  unfold validateService, ttry_catch, tbind, genAI_models_list, tret, record.
  destruct (models_list_reply host) as [e | [| model page]].
  - eexists. eexists. split; [reflexivity |]. split.
    + split; [discriminate | intros (mo & p & H); discriminate].
    + intros e0 H. injection H as <-. cbn [journal].
      apply in_or_app. right. now left.
  - eexists. eexists. split; [reflexivity |]. split.
    + split; [discriminate | intros (mo & p & H); discriminate].
    + intros e0 H. discriminate.
  - eexists. eexists. split; [reflexivity |]. split.
    + split; [intros _; now exists model, page | reflexivity].
    + intros e0 H. discriminate.
Qed.

(* ================================================================== *)
(** * File names *)

Lemma replaceColonsAndDots_clean (s : jsstring) :
  Forall (fun c => c <> 58%N /\ c <> 46%N) (replaceColonsAndDots s).
Proof.
  unfold replaceColonsAndDots. apply Forall_map. apply Forall_forall.
  intros c _.
  destruct (c =? 58)%N eqn:E1; cbn [orb]; [split; discriminate |].
  destruct (c =? 46)%N eqn:E2; [split; discriminate |].
  apply N.eqb_neq in E1. apply N.eqb_neq in E2. now split.
Qed.

Lemma substring_2_8_length (s : jsstring) :
  (List.length (substring s 2 8) <= 6)%nat.
Proof.
  unfold substring. cbn [Nat.min Nat.max].
  rewrite length_skipn, length_firstn. lia.
Qed.

(** The parts of a generated file name. *)
Lemma generateFilename_parts (prefix extension : jsstring) (m : Machine) :
  exists timestamp random,
    generateFilename host prefix extension m
    = (Returned (prefix ++ lit "_" ++ timestamp ++ lit "_" ++ random
                 ++ lit "." ++ extension),
       {| world := world m; randoms := S (randoms m); saves := saves m;
          journal := journal m |})
    /\ List.length timestamp
       = List.length (Date_toISOString host (now (world m)))
    /\ Forall (fun c => c <> 58%N /\ c <> 46%N) timestamp
    /\ (List.length random <= 6)%nat.
Proof.
  exists (replaceColonsAndDots (Date_toISOString host (now (world m)))),
    (substring (Math_random_toString36 host (randoms m)) 2 8).
  split; [reflexivity |]. split; [| split].
  - unfold replaceColonsAndDots. apply length_map.
  - apply replaceColonsAndDots_clean.
  - apply substring_2_8_length.
Qed.


End Listing.

(** With the sample clock: colons and dots of the ISO string become
    dashes, and the random part is cut after six characters. *)
Example generateFilename_sample :
  fst (generateFilename (sampleHost 99) (lit "image_1") (lit "png") (start 0))
  = Returned (lit "image_1_2025-01-02T03-04-05-678Z_k3j9x2.png").
Proof. vm_compute. reflexivity. Qed.

(* ================================================================== *)
(** * Storing what was generated *)

Lemma filesWritten_app (a b : list HostEvent) :
  filesWritten (a ++ b) = filesWritten a ++ filesWritten b.
Proof. unfold filesWritten. apply flat_map_app. Qed.

Section Saving.

Variable host : Host.

(** The loops of the two handlers are the same loop. *)
Lemma saveImages_saveLoop (options : ImageGenerationOptions.t)
  (buffers : list Buffer) :
  forall i filePaths filenames m,
    saveImages host options buffers i filePaths filenames m
    = saveLoop host (lit "image_") (imageFileExtension options) buffers i
        filePaths filenames m.
Proof.
  induction buffers as [| b rest IH]; intros i filePaths filenames m;
    [reflexivity |].
  cbn [saveImages saveLoop]. unfold tbind.
  destruct (generateFilename host (lit "image_" ++ decimal (i + 1))
              (imageFileExtension options) m) as [[filename | e |] m1];
    try reflexivity.
  destruct (saveImage host b filename m1) as [[filePath | e |] m2];
    try reflexivity.
  apply IH.
Qed.

Lemma saveVideos_saveLoop (buffers : list Buffer) :
  forall i filePaths filenames m,
    saveVideos host buffers i filePaths filenames m
    = saveLoop host (lit "video_") (lit "mp4") buffers i filePaths filenames m.
Proof.
  induction buffers as [| b rest IH]; intros i filePaths filenames m;
    [reflexivity |].
  cbn [saveVideos saveLoop]. unfold tbind.
  destruct (generateFilename host (lit "video_" ++ decimal (i + 1))
              (lit "mp4") m) as [[filename | e |] m1];
    try reflexivity.
  change (saveVideo host b filename m1) with (saveImage host b filename m1).
  destruct (saveImage host b filename m1) as [[filePath | e |] m2];
    try reflexivity.
  apply IH.
Qed.

(** One save, whatever the file system answers: it returns the joined
    path after writing the file, or throws having written nothing. *)
Lemma saveImage_cases (data : Buffer) (filename : jsstring) (m : Machine) :
  let filePath := path_join host (CONFIG_storage_path host) filename in
  (exists m',
     saveImage host data filename m = (Returned filePath, m')
     /\ filesWritten (journal m')
        = filesWritten (journal m) ++ [(filePath, data)]
     /\ trace (world m') = trace (world m)
     /\ saves m' = S (saves m)
     /\ saveSucceeds host (saves m))
  \/ (exists e m',
        saveImage host data filename m = (Threw e, m')
        /\ filesWritten (journal m') = filesWritten (journal m)
        /\ trace (world m') = trace (world m)
        /\ saveFails host (saves m) e).
Proof.
  cbv zeta. unfold saveImage, tbind, ensureDirectory, writeFile, tret,
    saveSucceeds, saveFails.
  destruct (existsSync_reply host (saves m)).
  - cbn [saves world journal].
    destruct (writeFile_reply host (saves m)) as [e |] eqn:Hw.
    + right. exists e. eexists. repeat split. right. split; [now left | reflexivity].
    + left. eexists. split; [reflexivity |]. cbn [journal world trace saves].
      rewrite filesWritten_app. repeat split. now left.
  - destruct (mkdir_reply host (saves m)) as [e |] eqn:Hm.
    + right. exists e. eexists. repeat split. now left.
    + cbn [saves world journal].
      destruct (writeFile_reply host (saves m)) as [e |] eqn:Hw.
      * right. exists e. eexists. split; [reflexivity |].
        cbn [journal world trace]. rewrite filesWritten_app.
        cbn [filesWritten flat_map app]. rewrite app_nil_r.
        repeat split. right. split; [now right | reflexivity].
      * left. eexists. split; [reflexivity |].
        cbn [journal world trace saves]. rewrite !filesWritten_app.
        cbn [filesWritten flat_map app]. rewrite app_nil_r.
        repeat split. now right.
Qed.

(** The saving loop read back from its outcome.  If it returns, every
    buffer was written, in order, under a fresh name of the expected shape;
    if it throws, the buffers before the failing save were written and
    stay written.  It never runs out of fuel, having no loop without
    bound. *)
Lemma saveLoop_outcome (word extension : jsstring) (buffers : list Buffer) :
  forall i filePaths filenames m,
    exists names m',
      namesFrom word extension i names
      /\ trace (world m') = trace (world m)
      /\ filesWritten (journal m')
         = filesWritten (journal m)
           ++ combine (map (path_join host (CONFIG_storage_path host)) names)
                buffers
      /\ ((saveLoop host word extension buffers i filePaths filenames m
           = (Returned
                (filePaths
                 ++ map (path_join host (CONFIG_storage_path host)) names,
                 filenames ++ names), m')
           /\ List.length names = List.length buffers)
          \/ (exists e,
                saveLoop host word extension buffers i filePaths filenames m
                = (Threw e, m')
                /\ (List.length names < List.length buffers)%nat)).
Proof.
  induction buffers as [| b rest IH]; intros i filePaths filenames m.
  - exists [], m. cbn [namesFrom map combine saveLoop]. rewrite !app_nil_r.
    split; [exact I |]. split; [reflexivity |]. split; [reflexivity |].
    left. now split.
  - destruct (generateFilename_parts host (word ++ decimal (i + 1)) extension m)
      as (timestamp & random & Eg & _ & Hclean & Hrand).
    set (filename := (word ++ decimal (i + 1)) ++ lit "_" ++ timestamp
                     ++ lit "_" ++ random ++ lit "." ++ extension) in *.
    set (m1 := {| world := world m; randoms := S (randoms m);
                  saves := saves m; journal := journal m |}) in *.
    assert (Hstep :
              saveLoop host word extension (b :: rest) i filePaths filenames m
              = match saveImage host b filename m1 with
                | (Returned filePath, m2) =>
                    saveLoop host word extension rest (S i)
                      (filePaths ++ [filePath]) (filenames ++ [filename]) m2
                | (Threw e, m2) => (Threw e, m2)
                | (Unfinished, m2) => (Unfinished, m2)
                end).
    { cbn [saveLoop]. unfold tbind. now rewrite Eg. }
    rewrite Hstep. clear Hstep.
    destruct (saveImage_cases b filename m1)
      as [(m2 & Es & Hf & Ht & _) | (e & m2 & Es & Hf & Ht & _)];
      rewrite Es.
    + destruct (IH (S i) (filePaths ++ [path_join host (CONFIG_storage_path host)
                                          filename])
                  (filenames ++ [filename]) m2)
        as (names & m' & Hn & Ht' & Hf' & Hout).
      exists (filename :: names), m'.
      split.
      { cbn [namesFrom]. split; [| exact Hn].
        exists timestamp, random. unfold filename.
        rewrite <- app_assoc. now repeat split. }
      split; [now rewrite Ht', Ht |].
      split.
      { rewrite Hf', Hf. cbn [map combine journal m1].
        now rewrite <- app_assoc. }
      destruct Hout as [[E Hlen] | (e & E & Hlen)].
      * left. rewrite E. cbn [map List.length].
        rewrite <- !app_assoc. split; [reflexivity | now f_equal].
      * right. exists e. rewrite E. cbn [List.length]. split; [reflexivity | lia].
    + exists [], m2. cbn [namesFrom map combine]. rewrite app_nil_r.
      split; [exact I |]. split; [now rewrite Ht |].
      split; [now rewrite Hf |].
      right. exists e. split; [reflexivity |]. cbn [List.length]. lia.
Qed.

End Saving.

(* ================================================================== *)
(** ** The names of one call differ *)

Lemma uint_codes_digits (d : Decimal.uint) :
  Forall (fun c => isDigit c = true) (uint_codes d).
Proof. induction d; cbn [uint_codes]; constructor; auto. Qed.

Lemma uint_codes_inj (d d' : Decimal.uint) :
  uint_codes d = uint_codes d' -> d = d'.
Proof.
  revert d'. induction d; intros d' H; destruct d'; cbn [uint_codes] in H;
    try discriminate; try reflexivity;
    injection H as H; f_equal; now apply IHd.
Qed.

Lemma decimal_inj (a b : nat) : decimal a = decimal b -> a = b.
Proof.
  intros H. apply uint_codes_inj in H.
  now apply DecimalNat.Unsigned.to_uint_inj.
Qed.

(** Two digit strings followed by an underscore and anything: equal
    wholes have equal digit strings. *)
Lemma digits_then_underscore (a : jsstring) :
  forall b ra rb,
    Forall (fun c => isDigit c = true) a ->
    Forall (fun c => isDigit c = true) b ->
    a ++ 95%N :: ra = b ++ 95%N :: rb -> a = b.
Proof.
  induction a as [| x a IH]; intros b ra rb Ha Hb H.
  - destruct b as [| y b]; [reflexivity |].
    cbn [app] in H. injection H as H _. subst y.
    inversion Hb as [| ? ? Hy _]. discriminate Hy.
  - destruct b as [| y b].
    + cbn [app] in H. injection H as H _. subst x.
      inversion Ha as [| ? ? Hx _]. discriminate Hx.
    + cbn [app] in H. injection H as -> H.
      inversion Ha; inversion Hb; subst. f_equal. eapply IH; eassumption.
Qed.

Lemma namesFrom_index (word extension : jsstring) (names : list jsstring) :
  forall i n,
    namesFrom word extension i names -> In n names ->
    exists k rest, (i <= k)%nat /\ n = word ++ decimal (k + 1) ++ 95%N :: rest.
Proof.
  induction names as [| n0 names IH]; intros i n Hn Hin; [destruct Hin |].
  cbn [namesFrom] in Hn. destruct Hn as [(ts & r & -> & _) Hrest].
  destruct Hin as [<- | Hin].
  - exists i. eexists. split; [lia | reflexivity].
  - destruct (IH (S i) n Hrest Hin) as (k & rest & Hk & ->).
    exists k, rest. split; [lia | reflexivity].
Qed.

(** Names of that shape are pairwise different: the index tells them
    apart, whatever the clock and the random numbers. *)
Lemma namesFrom_NoDup (word extension : jsstring) (names : list jsstring) :
  forall i, namesFrom word extension i names -> NoDup names.
Proof.
  induction names as [| n0 names IH]; intros i Hn; [constructor |].
  pose proof Hn as Hn'. cbn [namesFrom] in Hn'.
  destruct Hn' as [(ts & r & E & _) Hrest].
  constructor; [| eapply IH; exact Hrest].
  intros Hin.
  destruct (namesFrom_index word extension names (S i) n0 Hrest Hin)
    as (k & rest & Hk & E').
  rewrite E in E'. apply app_inv_head in E'.
  change (lit "_" ++ ts ++ lit "_" ++ r ++ lit "." ++ extension)
    with (95%N :: ts ++ lit "_" ++ r ++ lit "." ++ extension) in E'.
  apply digits_then_underscore in E';
    [| apply uint_codes_digits | apply uint_codes_digits].
  apply decimal_inj in E'. lia.
Qed.

(* ================================================================== *)
(** * The tool handlers *)

Section Handlers.

Variable rt : Runtime.
Variable host : Host.

Lemma convertImages_finishes (items : list GeneratedImage) :
  forall (imageBuffers : list Buffer) (w : World),
    fst (convertImages rt items imageBuffers w) <> Unfinished.
Proof.
  induction items as [| g rest IH]; intros imageBuffers w; [discriminate |].
  cbn [convertImages].
  destruct (image g) as [imageData |].
  - destruct (truthy_string (gcsUri imageData)); [discriminate |].
    destruct (imageBytes imageData) as [[| c s] |];
      unfold bind, console, emit; apply IH.
  - unfold bind, console, emit. apply IH.
Qed.

(** [generateImage] has no loop without bound: it returns or throws. *)
Lemma generateImage_finishes (prompt : jsstring)
  (options : ImageGenerationOptions.t) (w : World) :
  fst (generateImage rt prompt options w) <> Unfinished.
Proof.
  destruct (imageCallAccepted_dec prompt options) as [Hacc | Hna].
  2:{ destruct (generateImage_not_accepted rt prompt options w Hna) as [e E].
      now rewrite E. }
  destruct (generateImages_reply rt) as [e | res] eqn:Hr.
  { rewrite (generateImage_rejected_by_provider rt prompt options w e Hacc Hr).
    now destruct e. }
  rewrite (generateImage_answered rt prompt options w res Hacc Hr).
  unfold try_catch, collectImages.
  destruct (generatedImages res) as [[| g rest] |]; try discriminate.
  unfold bind.
  pose proof (convertImages_finishes (g :: rest) []
                (submittedImage rt prompt options w)) as H.
  destruct (convertImages rt (g :: rest) []
              (submittedImage rt prompt options w)) as [[out | e |] w1];
    cbn [fst] in H |- *.
  - destruct (List.length out =? 0)%nat; discriminate.
  - now destruct e.
  - now contradiction H.
Qed.

(** The handler of [generate-image], outcome by outcome. *)
Lemma generateImageTool_eq (args : GenerateImageArgs.t) (m : Machine) :
  generateImageTool rt host args m
  = match generateImage rt (GenerateImageArgs.prompt args)
            (imageToolOptions args) (world m) with
    | (Returned imageBuffers, w1) =>
        match saveLoop host (lit "image_")
                (imageFileExtension (imageToolOptions args)) imageBuffers 0
                [] [] (withWorld m w1) with
        | (Returned saved, m2) =>
            (Returned (successResult host (fst saved) (snd saved)
                         (List.length imageBuffers)
                         " image(s) generated and saved"), m2)
        | (Threw e, m2) =>
            (Returned (failureResult host "Failed to generate image: " e), m2)
        | (Unfinished, m2) => (Unfinished, m2)
        end
    | (Threw e, w1) =>
        (Returned (failureResult host "Failed to generate image: " e),
         withWorld m w1)
    | (Unfinished, w1) => (Unfinished, withWorld m w1)
    end.
Proof.
  unfold generateImageTool, ttry_catch, tbind, inService, tret, withWorld.
  destruct (generateImage rt (GenerateImageArgs.prompt args)
              (imageToolOptions args) (world m)) as [[bs | e |] w1];
    try reflexivity.
  rewrite saveImages_saveLoop.
  destruct (saveLoop host (lit "image_")
              (imageFileExtension (imageToolOptions args)) bs 0 [] []
              {| world := w1; randoms := randoms m; saves := saves m;
                 journal := journal m |}) as [[saved | e |] m2];
    reflexivity.
Qed.

(** The handler of [generate-video], outcome by outcome. *)
Lemma generateVideoTool_eq (fuel : nat) (args : GenerateVideoArgs.t)
  (m : Machine) :
  generateVideoTool rt host fuel args m
  = match generateVideo rt fuel (GenerateVideoArgs.prompt args)
            (videoToolOptions args) (world m) with
    | (Returned videoBuffers, w1) =>
        match saveLoop host (lit "video_") (lit "mp4") videoBuffers 0
                [] [] (withWorld m w1) with
        | (Returned saved, m2) =>
            (Returned (successResult host (fst saved) (snd saved)
                         (List.length videoBuffers)
                         " video(s) generated and saved"), m2)
        | (Threw e, m2) =>
            (Returned (failureResult host "Failed to generate video: " e), m2)
        | (Unfinished, m2) => (Unfinished, m2)
        end
    | (Threw e, w1) =>
        (Returned (failureResult host "Failed to generate video: " e),
         withWorld m w1)
    | (Unfinished, w1) => (Unfinished, withWorld m w1)
    end.
Proof.
  unfold generateVideoTool, ttry_catch, tbind, inService, tret, withWorld.
  destruct (generateVideo rt fuel (GenerateVideoArgs.prompt args)
              (videoToolOptions args) (world m)) as [[bs | e |] w1];
    try reflexivity.
  rewrite saveVideos_saveLoop.
  destruct (saveLoop host (lit "video_") (lit "mp4") bs 0 [] []
              {| world := w1; randoms := randoms m; saves := saves m;
                 journal := journal m |}) as [[saved | e |] m2];
    reflexivity.
Qed.

Lemma failureResult_shaped (failed : string) (e : thrown) :
  failureShaped failed (failureResult host failed e).
Proof.
  unfold failureShaped, failureResult.
  cbn [isError structuredContent success count filePaths filenames message].
  repeat split. apply startsWith_app.
Qed.

(** What the saving loop makes of a non-empty list of buffers: a success
    response that lists every file, or a failure response. *)
Lemma saved_shaped (word extension : jsstring) (what failed : string)
  (buffers : list Buffer) (m : Machine) :
  buffers <> [] ->
  exists res m',
    match saveLoop host word extension buffers 0 [] [] m with
    | (Returned saved, m2) =>
        (Returned (successResult host (fst saved) (snd saved)
                     (List.length buffers) what), m2)
    | (Threw e, m2) => (Returned (failureResult host failed e), m2)
    | (Unfinished, m2) => (Unfinished, m2)
    end = (Returned res, m')
    /\ trace (world m') = trace (world m)
    /\ ((successShaped host res
         /\ filesWritten (journal m')
            = filesWritten (journal m)
              ++ combine (match filePaths (structuredContent res) with
                          | Some paths => paths
                          | None => []
                          end) buffers)
        \/ (failureShaped failed res
            /\ exists written,
                 filesWritten (journal m')
                 = filesWritten (journal m) ++ written
                 /\ (List.length written < List.length buffers)%nat)).
Proof.
  intros Hne.
  destruct (saveLoop_outcome host word extension buffers 0 [] [] m)
    as (names & m' & Hn & Ht & Hf & [[E Hlen] | (e & E & Hlen)]).
  - rewrite E. cbn [app fst snd]. eexists. exists m'.
    split; [reflexivity |]. split; [exact Ht |]. left.
    assert (Hnames : names <> []).
    { intros ->. destruct buffers; [now contradiction Hne | discriminate]. }
    split.
    + unfold successShaped, successResult.
      cbn [isError structuredContent success count filePaths filenames].
      split; [reflexivity |]. split; [reflexivity |].
      split; [destruct buffers; [now contradiction Hne | cbn; lia] |].
      exists names.
      destruct names as [| n names']; [now contradiction Hnames |].
      cbn [orUndefined map]. repeat split; try assumption.
      eapply namesFrom_NoDup. exact Hn.
    + unfold successResult. cbn [structuredContent filePaths].
      destruct names as [| n names']; [now contradiction Hnames |].
      cbn [orUndefined map]. exact Hf.
  - rewrite E. eexists. exists m'. split; [reflexivity |].
    split; [exact Ht |]. right. split; [apply failureResult_shaped |].
    eexists. split; [exact Hf |].
    rewrite length_combine, length_map. lia.
Qed.

(** The two shapes of the response of [generate-image]. *)
Lemma generateImageTool_answers_inv (args : GenerateImageArgs.t) (m : Machine) :
  exists res m',
    generateImageTool rt host args m = (Returned res, m')
    /\ trace (world m')
       = trace (snd (generateImage rt (GenerateImageArgs.prompt args)
                       (imageToolOptions args) (world m)))
    /\ (successShaped host res
        \/ failureShaped "Failed to generate image: " res).
Proof.
  rewrite generateImageTool_eq.
  pose proof (generateImage_finishes (GenerateImageArgs.prompt args)
                (imageToolOptions args) (world m)) as Hfin.
  destruct (generateImage rt (GenerateImageArgs.prompt args)
              (imageToolOptions args) (world m)) as [[bs | e |] w1] eqn:Eg;
    cbn [fst snd] in Hfin |- *.
  - apply generateImage_returns_inv in Eg as (_ & Hne & _).
    destruct (saved_shaped (lit "image_")
                (imageFileExtension (imageToolOptions args))
                " image(s) generated and saved" "Failed to generate image: "
                bs (withWorld m w1) Hne)
      as (res & m' & E & Ht & Hshape).
    exists res, m'. split; [exact E |]. split; [exact Ht |].
    destruct Hshape as [[H _] | [H _]]; [now left | now right].
  - eexists. eexists. split; [reflexivity |]. split; [reflexivity |].
    right. apply failureResult_shaped.
  - now contradiction Hfin.
Qed.

(** X18 -- the handler of [generate-image] never throws: it always
    returns a response, shaped either as a success (no error flag, at
    least one file, as many pairwise different names and paths as the
    count, each path the storage path joined with the name) or as a
    failure (error flag, count zero, no file listed, a message that starts
    with [Failed to generate image: ]).  It adds no event to the trace of
    the service beyond those of [generateImage]. *)
Theorem generateImageTool_answers (args : GenerateImageArgs.t) (m : Machine) :
  exists res m',
    generateImageTool rt host args m = (Returned res, m')
    /\ trace (world m')
       = trace (snd (generateImage rt (GenerateImageArgs.prompt args)
                       (imageToolOptions args) (world m)))
    /\ (successShaped host res
        \/ failureShaped "Failed to generate image: " res).
Proof. exact (generateImageTool_answers_inv args m). Qed.

End Handlers.

Section HandlersOnDisk.

Variable rt : Runtime.
Variable host : Host.

Lemma saveSucceeds_not_fails (k : nat) (e : thrown) :
  saveSucceeds host k -> saveFails host k e -> False.
Proof.
  unfold saveSucceeds, saveFails.
  intros [[H1 | H1] H2] [[H3 H4] | [_ H4]]; congruence.
Qed.

Lemma saveFails_unique (k : nat) (e e' : thrown) :
  saveFails host k e -> saveFails host k e' -> e = e'.
Proof.
  unfold saveFails.
  intros [[H1 H2] | [[H1 | H1] H2]] [[H3 H4] | [[H3 | H3] H4]]; congruence.
Qed.

(** The saving loop when the first [j] saves succeed and the next one
    throws: the loop throws what the save threw, and the first [j]
    buffers are on the disk. *)
Lemma saveLoop_fails_at (word extension : jsstring) (j : nat) :
  forall (buffers : list Buffer) i filePaths filenames m e,
    (j < List.length buffers)%nat ->
    (forall k, (k < j)%nat -> saveSucceeds host (saves m + k)) ->
    saveFails host (saves m + j) e ->
    exists names m',
      saveLoop host word extension buffers i filePaths filenames m
      = (Threw e, m')
      /\ List.length names = j
      /\ trace (world m') = trace (world m)
      /\ filesWritten (journal m')
         = filesWritten (journal m)
           ++ combine (map (path_join host (CONFIG_storage_path host)) names)
                (firstn j buffers).
Proof.
  induction j as [| j IH];
    intros buffers i filePaths filenames m e Hlen Hok Hfail;
    (destruct buffers as [| b rest]; [cbn in Hlen; lia |]);
    destruct (generateFilename_parts host (word ++ decimal (i + 1)) extension m)
      as (timestamp & random & Eg & _ & _ & _);
    set (filename := (word ++ decimal (i + 1)) ++ lit "_" ++ timestamp
                     ++ lit "_" ++ random ++ lit "." ++ extension) in *;
    set (m1 := {| world := world m; randoms := S (randoms m);
                  saves := saves m; journal := journal m |}) in *;
    assert (Hstep :
              saveLoop host word extension (b :: rest) i filePaths filenames m
              = match saveImage host b filename m1 with
                | (Returned filePath, m2) =>
                    saveLoop host word extension rest (S i)
                      (filePaths ++ [filePath]) (filenames ++ [filename]) m2
                | (Threw e, m2) => (Threw e, m2)
                | (Unfinished, m2) => (Unfinished, m2)
                end)
      by (cbn [saveLoop]; unfold tbind; now rewrite Eg);
    rewrite Hstep; clear Hstep;
    destruct (saveImage_cases host b filename m1)
      as [(m2 & Es & Hf & Ht & Hs & Hsucc) | (e' & m2 & Es & Hf & Ht & Hf')];
    rewrite Es; cbn [saves m1] in *.
  - exfalso. rewrite Nat.add_0_r in Hfail.
    eapply saveSucceeds_not_fails; eassumption.
  - rewrite Nat.add_0_r in Hfail.
    rewrite (saveFails_unique _ _ _ Hf' Hfail).
    exists [], m2. cbn [map combine firstn List.length].
    rewrite app_nil_r. now repeat split.
  - destruct (IH rest (S i)
                (filePaths ++ [path_join host (CONFIG_storage_path host)
                                 filename])
                (filenames ++ [filename]) m2 e)
      as (names & m' & E & Hn & Ht' & Hf'').
    + cbn [List.length] in Hlen. lia.
    + intros k Hk. rewrite Hs.
      replace (S (saves m) + k)%nat with (saves m + S k)%nat by lia.
      apply Hok. lia.
    + rewrite Hs.
      now replace (S (saves m) + j)%nat with (saves m + S j)%nat by lia.
    + exists (filename :: names), m'. rewrite E.
      split; [reflexivity |]. split; [cbn [List.length]; now f_equal |].
      split; [now rewrite Ht', Ht |].
      rewrite Hf'', Hf. cbn [map combine firstn journal m1].
      now rewrite <- app_assoc.
  - exfalso. specialize (Hok 0%nat ltac:(lia)). rewrite Nat.add_0_r in Hok.
    eapply saveSucceeds_not_fails; eassumption.
Qed.

(** A success response of the [generate-image] handler, read back. *)
Lemma generateImageTool_success_inv (args : GenerateImageArgs.t)
  (m m' : Machine) (res : ToolResult) :
  generateImageTool rt host args m = (Returned res, m') ->
  isError res = None ->
  exists imageBuffers w1 names,
    generateImage rt (GenerateImageArgs.prompt args) (imageToolOptions args)
      (world m) = (Returned imageBuffers, w1)
    /\ namesFrom (lit "image_") (imageFileExtension (imageToolOptions args))
         0 names
    /\ List.length names = List.length imageBuffers
    /\ names <> []
    /\ res = successResult host
               (map (path_join host (CONFIG_storage_path host)) names) names
               (List.length imageBuffers) " image(s) generated and saved"
    /\ filesWritten (journal m')
       = filesWritten (journal m)
         ++ combine (map (path_join host (CONFIG_storage_path host)) names)
              imageBuffers.
Proof.
  rewrite generateImageTool_eq. intros H Hok.
  destruct (generateImage rt (GenerateImageArgs.prompt args)
              (imageToolOptions args) (world m)) as [[bs | e |] w1] eqn:Eg.
  - pose proof (generateImage_returns_inv rt _ _ _ _ _ Eg) as (_ & Hne & _).
    destruct (saveLoop_outcome host (lit "image_")
                (imageFileExtension (imageToolOptions args)) bs 0 [] []
                (withWorld m w1))
      as (names & m2 & Hn & Ht & Hf & [[E Hlen] | (e & E & Hlen)]);
      rewrite E in H; injection H as <- <-.
    + exists bs, w1, names. cbn [app fst snd].
      repeat split; try assumption.
      intros ->. destruct bs; [now contradiction Hne | discriminate].
    + discriminate Hok.
  - injection H as <- _. discriminate Hok.
  - discriminate H.
Qed.

(** X19 -- a success response of the [generate-image] handler accounts
    for the disk: [generateImage] returned as many images as the count
    says, the files written during the call are exactly these images, in
    order, at the listed paths, and the message gives their number. *)
Theorem generateImageTool_success_files (args : GenerateImageArgs.t)
  (m m' : Machine) (res : ToolResult) :
  generateImageTool rt host args m = (Returned res, m') ->
  isError res = None ->
  exists imageBuffers w1 paths,
    generateImage rt (GenerateImageArgs.prompt args) (imageToolOptions args)
      (world m) = (Returned imageBuffers, w1)
    /\ filePaths (structuredContent res) = Some paths
    /\ count (structuredContent res) = List.length imageBuffers
    /\ List.length paths = List.length imageBuffers
    /\ filesWritten (journal m')
       = filesWritten (journal m) ++ combine paths imageBuffers
    /\ message (structuredContent res)
       = decimal (List.length imageBuffers)
         ++ lit " image(s) generated and saved".
Proof.
  intros H Hok.
  destruct (generateImageTool_success_inv args m m' res H Hok)
    as (bs & w1 & names & Eg & Hn & Hlen & Hne & -> & Hf).
  exists bs, w1, (map (path_join host (CONFIG_storage_path host)) names).
  split; [exact Eg |].
  unfold successResult. cbn [structuredContent filePaths count message].
  destruct names as [| n names']; [now contradiction Hne |].
  cbn [orUndefined map]. repeat split; try assumption.
  cbn [List.length]. rewrite length_map. exact Hlen.
Qed.

(** X20 -- when [generateImage] has returned its images and the first [j]
    saves succeed but the next one throws, the [generate-image] handler
    answers with a failure that quotes what the save threw and reports a
    count of zero, while the first [j] images stay on the disk: nothing is
    rolled back. *)
Theorem generateImageTool_partial_write (args : GenerateImageArgs.t)
  (m : Machine) (imageBuffers : list Buffer) (w1 : World) (j : nat)
  (e : thrown) :
  generateImage rt (GenerateImageArgs.prompt args) (imageToolOptions args)
    (world m) = (Returned imageBuffers, w1) ->
  (j < List.length imageBuffers)%nat ->
  (forall k, (k < j)%nat -> saveSucceeds host (saves m + k)) ->
  saveFails host (saves m + j) e ->
  exists m' written,
    generateImageTool rt host args m
    = (Returned (failureResult host "Failed to generate image: " e), m')
    /\ count (structuredContent
                (failureResult host "Failed to generate image: " e)) = 0%nat
    /\ filesWritten (journal m') = filesWritten (journal m) ++ written
    /\ List.length written = j
    /\ map snd written = firstn j imageBuffers.
Proof.
  intros Eg Hj Hok Hfail. rewrite generateImageTool_eq, Eg.
  destruct (saveLoop_fails_at (lit "image_")
              (imageFileExtension (imageToolOptions args)) j imageBuffers 0
              [] [] (withWorld m w1) e Hj Hok Hfail)
    as (names & m' & E & Hn & _ & Hf).
  rewrite E. eexists. eexists. split; [reflexivity |].
  split; [reflexivity |]. split; [exact Hf |].
  assert (Hl : List.length (firstn j imageBuffers) = j)
    by (rewrite length_firstn; lia).
  split.
  - rewrite length_combine, length_map, Hn, Hl. lia.
  - clear - Hn Hl. rewrite <- Hl in Hn. clear Hl.
    revert Hn. generalize (firstn j imageBuffers) as bs.
    induction names as [| n names IH]; intros [| b bs] Hlen;
      cbn in Hlen |- *; try discriminate; try reflexivity.
    f_equal. apply IH. now injection Hlen.
Qed.

End HandlersOnDisk.

Lemma generateImageTool_answers_witness :
  exists res m',
    generateImageTool rt_twoImages (sampleHost 99)
      (imageArgs_promptOnly samplePrompt) (start 0) = (Returned res, m')
    /\ trace (world m')
       = trace (snd (generateImage rt_twoImages samplePrompt
                       (imageToolOptions (imageArgs_promptOnly samplePrompt))
                       (world (start 0))))
    /\ (successShaped (sampleHost 99) res
        \/ failureShaped "Failed to generate image: " res).
Proof.
  apply (generateImageTool_answers rt_twoImages (sampleHost 99)
           (imageArgs_promptOnly samplePrompt) (start 0)).
Defined.

Lemma generateImageTool_success_files_witness :
  exists imageBuffers w1 paths,
    generateImage rt_twoImages samplePrompt
      (imageToolOptions (imageArgs_promptOnly samplePrompt))
      (world (start 0)) = (Returned imageBuffers, w1)
    /\ filePaths
         (structuredContent
            (successResult (sampleHost 99)
               [lit "./generated/image_1_2025-01-02T03-04-05-678Z_k3j9x2.jpg";
                lit "./generated/image_2_2025-01-02T03-04-05-678Z_k3j9x2.jpg"]
               [lit "image_1_2025-01-02T03-04-05-678Z_k3j9x2.jpg";
                lit "image_2_2025-01-02T03-04-05-678Z_k3j9x2.jpg"]
               2 " image(s) generated and saved"))
       = Some paths
    /\ 2%nat = List.length imageBuffers
    /\ List.length paths = List.length imageBuffers
    /\ filesWritten
         (journal
            (snd (generateImageTool rt_twoImages (sampleHost 99)
                    (imageArgs_promptOnly samplePrompt) (start 0))))
       = filesWritten (journal (start 0)) ++ combine paths imageBuffers
    /\ lit "2 image(s) generated and saved"
       = decimal (List.length imageBuffers)
         ++ lit " image(s) generated and saved".
Proof.
  apply (generateImageTool_success_files rt_twoImages (sampleHost 99)
           (imageArgs_promptOnly samplePrompt) (start 0)
           (snd (generateImageTool rt_twoImages (sampleHost 99)
                   (imageArgs_promptOnly samplePrompt) (start 0)))
           (successResult (sampleHost 99)
              [lit "./generated/image_1_2025-01-02T03-04-05-678Z_k3j9x2.jpg";
               lit "./generated/image_2_2025-01-02T03-04-05-678Z_k3j9x2.jpg"]
              [lit "image_1_2025-01-02T03-04-05-678Z_k3j9x2.jpg";
               lit "image_2_2025-01-02T03-04-05-678Z_k3j9x2.jpg"]
              2 " image(s) generated and saved")).
  - vm_compute. reflexivity.
  - reflexivity.
Defined.

Lemma generateImageTool_partial_write_witness :
  exists m' written,
    generateImageTool rt_twoImages (sampleHost 1)
      (imageArgs_promptOnly samplePrompt) (start 0)
    = (Returned (failureResult (sampleHost 1) "Failed to generate image: "
                   (Error "ENOSPC: no space left")), m')
    /\ count (structuredContent
                (failureResult (sampleHost 1) "Failed to generate image: "
                   (Error "ENOSPC: no space left"))) = 0%nat
    /\ filesWritten (journal m') = filesWritten (journal (start 0)) ++ written
    /\ List.length written = 1%nat
    /\ map snd written
       = firstn 1 [[Byte.x00; Byte.x01; Byte.x02];
                   [Byte.x03; Byte.x04; Byte.x05]].
Proof.
  apply (generateImageTool_partial_write rt_twoImages (sampleHost 1)
           (imageArgs_promptOnly samplePrompt) (start 0)
           [[Byte.x00; Byte.x01; Byte.x02]; [Byte.x03; Byte.x04; Byte.x05]]
           (snd (generateImage rt_twoImages samplePrompt
                   (imageToolOptions (imageArgs_promptOnly samplePrompt))
                   (world (start 0))))
           1 (Error "ENOSPC: no space left")).
  - vm_compute. reflexivity.
  - cbn. lia.
  - intros k Hk. destruct k; [| lia]. split; [now left | reflexivity].
  - right. split; [now left | reflexivity].
Defined.

(* ================================================================== *)
(** ** The file extension and the MIME type asked for *)

Lemma endsWith_app (prefix suffix : jsstring) :
  endsWith suffix (prefix ++ suffix) = true.
Proof. unfold endsWith. rewrite rev_app_distr. apply startsWith_app. Qed.

Lemma namesFrom_extension (word extension : jsstring)
  (names : list jsstring) :
  forall i n,
    namesFrom word extension i names -> In n names ->
    endsWith (lit "." ++ extension) n = true.
Proof.
  induction names as [| n0 names IH]; intros i n Hn Hin; [destruct Hin |].
  cbn [namesFrom] in Hn. destruct Hn as [(ts & r & -> & _) Hrest].
  destruct Hin as [<- | Hin]; [| eapply IH; eassumption].
  rewrite !app_assoc. rewrite <- (app_assoc _ (lit ".") extension).
  apply endsWith_app.
Qed.

(** X21 -- when the [generate-image] handler is given no [outputMimeType],
    the request that an accepted call sends asks the provider for
    [image/png] (the default of [generateImage]), and every file of a
    success response is named [.jpg] (the handler's own fallback): the
    extension does not follow the format asked for. *)
Theorem generateImageTool_png_named_jpg (rt : Runtime) (host : Host)
  (args : GenerateImageArgs.t) (m m' : Machine) (res : ToolResult) :
  GenerateImageArgs.outputMimeType args = None ->
  generateImageTool rt host args m = (Returned res, m') ->
  isError res = None ->
  (exists new,
     trace (world m')
     = trace (world m)
       ++ CallGenerateImages (now (world m)) (CONFIG_models_image rt)
            (trim (GenerateImageArgs.prompt args))
            (genImConfig (imageToolOptions args)) :: new)
  /\ ImageGenerationOptions.outputMimeType
       (genImConfig (imageToolOptions args)) = Some (lit "image/png")
  /\ exists names,
       filenames (structuredContent res) = Some names
       /\ forall n, In n names -> endsWith (lit ".jpg") n = true.
Proof.
  intros Hmime H Hok.
  destruct (generateImageTool_success_inv rt host args m m' res H Hok)
    as (bs & w1 & names & Eg & Hn & Hlen & Hne & -> & Hf).
  split; [| split].
  - destruct (generateImageTool_answers_inv rt host args m)
      as (res' & m'' & E & Ht & _).
    rewrite H in E. injection E as _ <-.
    rewrite Ht.
    apply generateImage_accepted_calls.
    now apply (generateImage_returns_inv rt _ _ _ _ _ Eg).
  - unfold genImConfig, imageToolOptions.
    cbn [ImageGenerationOptions.outputMimeType]. now rewrite Hmime.
  - exists names. split.
    + unfold successResult. cbn [structuredContent filenames].
      destruct names; [now contradiction Hne | reflexivity].
    + intros n Hin.
      assert (Hext : imageFileExtension (imageToolOptions args) = lit "jpg").
      { unfold imageFileExtension, imageToolOptions.
        cbn [ImageGenerationOptions.outputMimeType]. now rewrite Hmime. }
      rewrite Hext in Hn.
      exact (namesFrom_extension _ _ _ _ _ Hn Hin).
Qed.

Lemma generateImageTool_png_named_jpg_witness :
  (exists new,
     trace (world (snd run_twoImages))
     = trace (world (start 0))
       ++ CallGenerateImages (now (world (start 0)))
            (CONFIG_models_image rt_twoImages)
            (trim (GenerateImageArgs.prompt (imageArgs_promptOnly samplePrompt)))
            (genImConfig (imageToolOptions (imageArgs_promptOnly samplePrompt)))
          :: new)
  /\ ImageGenerationOptions.outputMimeType
       (genImConfig (imageToolOptions (imageArgs_promptOnly samplePrompt)))
     = Some (lit "image/png")
  /\ exists names,
       filenames (structuredContent res_twoImages) = Some names
       /\ forall n, In n names -> endsWith (lit ".jpg") n = true.
Proof.
  apply (generateImageTool_png_named_jpg rt_twoImages (sampleHost 99)
           (imageArgs_promptOnly samplePrompt) (start 0) (snd run_twoImages)
           res_twoImages).
  - reflexivity.
  - vm_compute. reflexivity.
  - reflexivity.
Defined.

(* ================================================================== *)
(** * The handler of [generate-video] *)

Section VideoHandler.

Variable rt : Runtime.
Variable host : Host.

(** The two shapes of the response of [generate-video]. *)
Lemma generateVideoTool_answers_inv (fuel : nat) (args : GenerateVideoArgs.t)
  (m : Machine) :
  timersOnTime rt -> clockMonotone rt -> (41 <= fuel)%nat ->
  exists res m',
    generateVideoTool rt host fuel args m = (Returned res, m')
    /\ trace (world m')
       = trace (snd (generateVideo rt fuel (GenerateVideoArgs.prompt args)
                       (videoToolOptions args) (world m)))
    /\ (successShaped host res
        \/ failureShaped "Failed to generate video: " res).
Proof.
  intros Htimers Hclock Hfuel.
  rewrite generateVideoTool_eq.
  pose proof (generateVideo_terminates rt fuel (GenerateVideoArgs.prompt args)
                (videoToolOptions args) (world m) Htimers Hclock Hfuel)
    as Hfin.
  destruct (generateVideo rt fuel (GenerateVideoArgs.prompt args)
              (videoToolOptions args) (world m)) as [[bs | e |] w1] eqn:Eg;
    cbn [fst snd] in Hfin |- *.
  - apply generateVideo_returns_inv in Eg as (_ & Hne & _).
    destruct (saved_shaped host (lit "video_") (lit "mp4")
                " video(s) generated and saved" "Failed to generate video: "
                bs (withWorld m w1) Hne)
      as (res & m' & E & Ht & Hshape).
    exists res, m'. split; [exact E |]. split; [exact Ht |].
    destruct Hshape as [[H _] | [H _]]; [now left | now right].
  - eexists. eexists. split; [reflexivity |]. split; [reflexivity |].
    right. apply failureResult_shaped.
  - now contradiction Hfin.
Qed.

(** X22 -- with timers that do not fire early, a clock that does not run
    backwards and room for 41 turns of the polling loop, the handler of
    [generate-video] never throws and never hangs: it returns a response
    shaped either as a success (no error flag, at least one file, as many
    pairwise different names and paths as the count) or as a failure
    (error flag, count zero, no file listed, a message that starts with
    [Failed to generate video: ]), and adds no event to the trace of the
    service beyond those of [generateVideo]. *)
Theorem generateVideoTool_answers (fuel : nat) (args : GenerateVideoArgs.t)
  (m : Machine) :
  timersOnTime rt -> clockMonotone rt -> (41 <= fuel)%nat ->
  exists res m',
    generateVideoTool rt host fuel args m = (Returned res, m')
    /\ trace (world m')
       = trace (snd (generateVideo rt fuel (GenerateVideoArgs.prompt args)
                       (videoToolOptions args) (world m)))
    /\ (successShaped host res
        \/ failureShaped "Failed to generate video: " res).
Proof. exact (generateVideoTool_answers_inv fuel args m). Qed.

(** A success response of the [generate-video] handler, read back. *)
Lemma generateVideoTool_success_inv (fuel : nat) (args : GenerateVideoArgs.t)
  (m m' : Machine) (res : ToolResult) :
  generateVideoTool rt host fuel args m = (Returned res, m') ->
  isError res = None ->
  exists videoBuffers w1 names,
    generateVideo rt fuel (GenerateVideoArgs.prompt args)
      (videoToolOptions args) (world m) = (Returned videoBuffers, w1)
    /\ namesFrom (lit "video_") (lit "mp4") 0 names
    /\ List.length names = List.length videoBuffers
    /\ names <> []
    /\ res = successResult host
               (map (path_join host (CONFIG_storage_path host)) names) names
               (List.length videoBuffers) " video(s) generated and saved"
    /\ filesWritten (journal m')
       = filesWritten (journal m)
         ++ combine (map (path_join host (CONFIG_storage_path host)) names)
              videoBuffers.
Proof.
  rewrite generateVideoTool_eq. intros H Hok.
  destruct (generateVideo rt fuel (GenerateVideoArgs.prompt args)
              (videoToolOptions args) (world m)) as [[bs | e |] w1] eqn:Eg.
  - pose proof (generateVideo_returns_inv rt _ _ _ _ _ _ Eg) as (_ & Hne & _).
    destruct (saveLoop_outcome host (lit "video_") (lit "mp4") bs 0 [] []
                (withWorld m w1))
      as (names & m2 & Hn & Ht & Hf & [[E Hlen] | (e & E & Hlen)]);
      rewrite E in H; injection H as <- <-.
    + exists bs, w1, names. cbn [app fst snd].
      repeat split; try assumption.
      intros ->. destruct bs; [now contradiction Hne | discriminate].
    + discriminate Hok.
  - injection H as <- _. discriminate Hok.
  - discriminate H.
Qed.

(** X23 -- a success response of the [generate-video] handler accounts
    for the disk: [generateVideo] returned as many videos as the count
    says, the files written during the call are exactly these videos, in
    order, at the listed paths, every file name ends with [.mp4], and the
    message gives their number. *)
Theorem generateVideoTool_success_files (fuel : nat)
  (args : GenerateVideoArgs.t) (m m' : Machine) (res : ToolResult) :
  generateVideoTool rt host fuel args m = (Returned res, m') ->
  isError res = None ->
  exists videoBuffers w1 paths names,
    generateVideo rt fuel (GenerateVideoArgs.prompt args)
      (videoToolOptions args) (world m) = (Returned videoBuffers, w1)
    /\ filePaths (structuredContent res) = Some paths
    /\ filenames (structuredContent res) = Some names
    /\ (forall n, In n names -> endsWith (lit ".mp4") n = true)
    /\ count (structuredContent res) = List.length videoBuffers
    /\ List.length paths = List.length videoBuffers
    /\ filesWritten (journal m')
       = filesWritten (journal m) ++ combine paths videoBuffers
    /\ message (structuredContent res)
       = decimal (List.length videoBuffers)
         ++ lit " video(s) generated and saved".
Proof.
  intros H Hok.
  destruct (generateVideoTool_success_inv fuel args m m' res H Hok)
    as (bs & w1 & names & Eg & Hn & Hlen & Hne & -> & Hf).
  exists bs, w1, (map (path_join host (CONFIG_storage_path host)) names),
    names.
  split; [exact Eg |].
  unfold successResult.
  cbn [structuredContent filePaths filenames count message].
  assert (Hext : forall n, In n names -> endsWith (lit ".mp4") n = true)
    by (intros n Hin; exact (namesFrom_extension _ _ _ _ _ Hn Hin)).
  destruct names as [| n names']; [now contradiction Hne |].
  cbn [orUndefined map]. repeat split; try assumption.
  cbn [List.length]. rewrite length_map. exact Hlen.
Qed.

(** X24 -- when [generateVideo] has returned its videos and the first [j]
    saves succeed but the next one throws, the [generate-video] handler
    answers with a failure that quotes what the save threw and reports a
    count of zero, while the first [j] videos stay on the disk. *)
Theorem generateVideoTool_partial_write (fuel : nat)
  (args : GenerateVideoArgs.t) (m : Machine) (videoBuffers : list Buffer)
  (w1 : World) (j : nat) (e : thrown) :
  generateVideo rt fuel (GenerateVideoArgs.prompt args)
    (videoToolOptions args) (world m) = (Returned videoBuffers, w1) ->
  (j < List.length videoBuffers)%nat ->
  (forall k, (k < j)%nat -> saveSucceeds host (saves m + k)) ->
  saveFails host (saves m + j) e ->
  exists m' written,
    generateVideoTool rt host fuel args m
    = (Returned (failureResult host "Failed to generate video: " e), m')
    /\ count (structuredContent
                (failureResult host "Failed to generate video: " e)) = 0%nat
    /\ filesWritten (journal m') = filesWritten (journal m) ++ written
    /\ List.length written = j
    /\ map snd written = firstn j videoBuffers.
Proof.
  intros Eg Hj Hok Hfail. rewrite generateVideoTool_eq, Eg.
  destruct (saveLoop_fails_at host (lit "video_") (lit "mp4") j videoBuffers 0
              [] [] (withWorld m w1) e Hj Hok Hfail)
    as (names & m' & E & Hn & _ & Hf).
  rewrite E. eexists. eexists. split; [reflexivity |].
  split; [reflexivity |]. split; [exact Hf |].
  assert (Hl : List.length (firstn j videoBuffers) = j)
    by (rewrite length_firstn; lia).
  split.
  - rewrite length_combine, length_map, Hn, Hl. lia.
  - clear - Hn Hl. rewrite <- Hl in Hn. clear Hl.
    revert Hn. generalize (firstn j videoBuffers) as bs.
    induction names as [| n names IH]; intros [| b bs] Hlen;
      cbn in Hlen |- *; try discriminate; try reflexivity.
    f_equal. apply IH. now injection Hlen.
Qed.

End VideoHandler.

Lemma generateVideoTool_answers_witness :
  exists res m',
    generateVideoTool rt_twoVideos (sampleHost 99) 41
      (videoArgs_promptOnly samplePrompt) (start 0) = (Returned res, m')
    /\ trace (world m')
       = trace (snd (generateVideo rt_twoVideos 41
                       (GenerateVideoArgs.prompt
                          (videoArgs_promptOnly samplePrompt))
                       (videoToolOptions (videoArgs_promptOnly samplePrompt))
                       (world (start 0))))
    /\ (successShaped (sampleHost 99) res
        \/ failureShaped "Failed to generate video: " res).
Proof.
  apply (generateVideoTool_answers rt_twoVideos (sampleHost 99) 41
           (videoArgs_promptOnly samplePrompt) (start 0)).
  - apply sampleRuntime_timersOnTime.
  - apply sampleRuntime_clockMonotone.
  - lia.
Defined.

Lemma generateVideoTool_success_files_witness :
  exists videoBuffers w1 paths names,
    generateVideo rt_twoVideos 41
      (GenerateVideoArgs.prompt (videoArgs_promptOnly samplePrompt))
      (videoToolOptions (videoArgs_promptOnly samplePrompt))
      (world (start 0)) = (Returned videoBuffers, w1)
    /\ filePaths (structuredContent res_twoVideos) = Some paths
    /\ filenames (structuredContent res_twoVideos) = Some names
    /\ (forall n, In n names -> endsWith (lit ".mp4") n = true)
    /\ count (structuredContent res_twoVideos) = List.length videoBuffers
    /\ List.length paths = List.length videoBuffers
    /\ filesWritten (journal (snd run_twoVideos))
       = filesWritten (journal (start 0)) ++ combine paths videoBuffers
    /\ message (structuredContent res_twoVideos)
       = decimal (List.length videoBuffers)
         ++ lit " video(s) generated and saved".
Proof.
  apply (generateVideoTool_success_files rt_twoVideos (sampleHost 99) 41
           (videoArgs_promptOnly samplePrompt) (start 0) (snd run_twoVideos)
           res_twoVideos).
  - vm_compute. reflexivity.
  - reflexivity.
Defined.

Lemma generateVideoTool_partial_write_witness :
  exists m' written,
    generateVideoTool rt_twoVideos (sampleHost 1) 41
      (videoArgs_promptOnly samplePrompt) (start 0)
    = (Returned (failureResult (sampleHost 1) "Failed to generate video: "
                   (Error "ENOSPC: no space left")), m')
    /\ count (structuredContent
                (failureResult (sampleHost 1) "Failed to generate video: "
                   (Error "ENOSPC: no space left"))) = 0%nat
    /\ filesWritten (journal m') = filesWritten (journal (start 0)) ++ written
    /\ List.length written = 1%nat
    /\ map snd written = firstn 1 twoBuffers.
Proof.
  apply (generateVideoTool_partial_write rt_twoVideos (sampleHost 1) 41
           (videoArgs_promptOnly samplePrompt) (start 0) twoBuffers
           (snd (generateVideo rt_twoVideos 41 samplePrompt
                   (videoToolOptions (videoArgs_promptOnly samplePrompt))
                   (world (start 0))))
           1 (Error "ENOSPC: no space left")).
  - vm_compute. reflexivity.
  - cbn. lia.
  - intros k Hk. destruct k; [| lia]. split; [now left | reflexivity].
  - right. split; [now left | reflexivity].
Defined.

(* ================================================================== *)
(** * The schemas of the tools and the validators of the service *)

Lemma in_range_num (lo hi z : Z) :
  lo <= z <= hi -> in_range lo hi (num z).
Proof.
  intros [H1 H2]. unfold in_range, num.
  split; now rewrite <- Zle_Qle.
Qed.

Lemma in_range_widen (lo hi lo' hi' : Z) (x : number) :
  lo' <= lo -> hi <= hi' -> in_range lo hi x -> in_range lo' hi' x.
Proof.
  intros H1 H2. destruct x as [q | | |]; cbn [in_range]; try tauto.
  intros [Ha Hb]. rewrite Zle_Qle in H1, H2. split.
  - eapply Qle_trans; eassumption.
  - eapply Qle_trans; eassumption.
Qed.

Lemma imageInputSchema_rules (args : GenerateImageArgs.t) :
  imageInputSchema args -> imageRules (imageToolOptions args).
Proof.
  unfold imageInputSchema, imageRules, imageToolOptions, zNumber, zEnum.
  cbn [ImageGenerationOptions.numberOfImages
       ImageGenerationOptions.guidanceScale
       ImageGenerationOptions.outputCompressionQuality
       ImageGenerationOptions.aspectRatio
       ImageGenerationOptions.outputMimeType].
  intros (S1 & S2 & _ & S4 & S5 & _).
  split; [| split; [| split; [| split]]].
  - destruct (GenerateImageArgs.numberOfImages args) as [n |];
      cbn [withDefault when_present] in *; [exact S1 |].
    apply in_range_num. lia.
  - exact S5.
  - cbn [withDefault]. apply in_range_num. lia.
  - destruct (GenerateImageArgs.aspectRatio args) as [a |];
      cbn [withDefault when_present] in *; [exact S2 | now left].
  - destruct (GenerateImageArgs.outputMimeType args) as [a |];
      cbn [withDefault when_present] in *; [| now left].
    destruct S4 as [<- | [<- | []]]; [right; now left | now left].
Qed.

Lemma videoInputSchema_rules (args : GenerateVideoArgs.t) :
  videoInputSchema args -> videoRules (videoToolOptions args).
Proof.
  unfold videoInputSchema, videoRules, videoToolOptions, zNumber, zEnum.
  cbn [VideoGenerationOptions.numberOfVideos
       VideoGenerationOptions.durationSeconds
       VideoGenerationOptions.fps
       VideoGenerationOptions.aspectRatio
       VideoGenerationOptions.resolution].
  intros (S1 & S2 & S3 & S4 & S5 & _).
  split; [| split; [| split; [| split]]].
  - destruct (GenerateVideoArgs.numberOfVideos args) as [n |];
      cbn [withDefault when_present] in *; [exact S1 |].
    apply in_range_num. lia.
  - destruct (GenerateVideoArgs.durationSeconds args) as [n |];
      cbn [withDefault when_present] in *.
    + eapply in_range_widen; [| | exact S2]; lia.
    + apply in_range_num. lia.
  - exact S5.
  - destruct (GenerateVideoArgs.aspectRatio args) as [a |];
      cbn [withDefault when_present] in *; [exact S3 | now left].
  - destruct (GenerateVideoArgs.resolution args) as [a |];
      cbn [withDefault when_present] in *; [exact S4 | now left].
Qed.

(** X25 -- arguments that the input schema of [generate-image] admits
    always pass [validateImageOptions], whichever optional fields are
    given or left out: the options object the handler builds from them
    (with its fixed compression quality of 100) breaks no rule of the
    validator. *)
Theorem imageInputSchema_passes_validator (args : GenerateImageArgs.t) :
  imageInputSchema args ->
  validateImageOptions (imageToolOptions args) = inr tt.
Proof.
  intros H. apply validateImageOptions_accepts.
  now apply imageInputSchema_rules.
Qed.

(** X26 -- arguments that the input schema of [generate-video] admits
    always pass [validateVideoOptions]: the schema's duration range
    [4, 8] lies inside the validator's [2, 10], and the other ranges and
    enumerations are the same. *)
Theorem videoInputSchema_passes_validator (args : GenerateVideoArgs.t) :
  videoInputSchema args ->
  validateVideoOptions (videoToolOptions args) = inr tt.
Proof.
  intros H. apply validateVideoOptions_accepts.
  now apply videoInputSchema_rules.
Qed.

Lemma imageArgs_sample_admitted : imageInputSchema imageArgs_sample.
Proof.
  unfold imageInputSchema, imageArgs_sample, zNumber, zEnum.
  cbn [GenerateImageArgs.numberOfImages GenerateImageArgs.aspectRatio
       GenerateImageArgs.imageSize GenerateImageArgs.outputMimeType
       GenerateImageArgs.guidanceScale GenerateImageArgs.seed when_present].
  split; [apply in_range_num; lia |].
  split; [do 4 right; now left |].
  split; [right; now left |].
  split; [now left |].
  split; [apply in_range_num; lia | discriminate].
Qed.

Lemma videoArgs_sample_admitted : videoInputSchema videoArgs_sample.
Proof.
  unfold videoInputSchema, videoArgs_sample, zNumber, zEnum.
  cbn [GenerateVideoArgs.numberOfVideos GenerateVideoArgs.durationSeconds
       GenerateVideoArgs.aspectRatio GenerateVideoArgs.resolution
       GenerateVideoArgs.fps GenerateVideoArgs.seed when_present].
  split; [apply in_range_num; lia |].
  split; [apply in_range_num; lia |].
  split; [right; now left |].
  split; [right; now left |].
  split; [apply in_range_num; lia | discriminate].
Qed.

Lemma imageInputSchema_passes_validator_witness :
  validateImageOptions (imageToolOptions imageArgs_sample) = inr tt.
Proof.
  apply (imageInputSchema_passes_validator imageArgs_sample).
  exact imageArgs_sample_admitted.
Defined.

Lemma videoInputSchema_passes_validator_witness :
  validateVideoOptions (videoToolOptions videoArgs_sample) = inr tt.
Proof.
  apply (videoInputSchema_passes_validator videoArgs_sample).
  exact videoArgs_sample_admitted.
Defined.

(* ================================================================== *)
(** * The prompt at the door of the handlers *)

Lemma withWorld_same (m : Machine) : withWorld m (world m) = m.
Proof. now destruct m. Qed.

Lemma imageArgs_promptOnly_admitted (prompt : jsstring) :
  imageInputSchema (imageArgs_promptOnly prompt).
Proof. unfold imageInputSchema, zNumber, zEnum. cbn. tauto. Qed.

Lemma videoArgs_promptOnly_admitted (prompt : jsstring) :
  videoInputSchema (videoArgs_promptOnly prompt).
Proof. unfold videoInputSchema, zNumber, zEnum. cbn. tauto. Qed.

Section PromptGate.

Variable rt : Runtime.
Variable host : Host.

(** The saving loops add nothing to the trace of the service. *)
Lemma generateImageTool_trace (args : GenerateImageArgs.t) (m : Machine) :
  trace (world (snd (generateImageTool rt host args m)))
  = trace (snd (generateImage rt (GenerateImageArgs.prompt args)
                  (imageToolOptions args) (world m))).
Proof.
  rewrite generateImageTool_eq.
  destruct (generateImage rt (GenerateImageArgs.prompt args)
              (imageToolOptions args) (world m)) as [[bs | e |] w1];
    cbn [snd]; try reflexivity.
  destruct (saveLoop_outcome host (lit "image_")
              (imageFileExtension (imageToolOptions args)) bs 0 [] []
              (withWorld m w1))
    as (names & m2 & _ & Ht & _ & [[E _] | (e & E & _)]);
    rewrite E; cbn [snd]; exact Ht.
Qed.

Lemma generateVideoTool_trace (fuel : nat) (args : GenerateVideoArgs.t)
  (m : Machine) :
  trace (world (snd (generateVideoTool rt host fuel args m)))
  = trace (snd (generateVideo rt fuel (GenerateVideoArgs.prompt args)
                  (videoToolOptions args) (world m))).
Proof.
  rewrite generateVideoTool_eq.
  destruct (generateVideo rt fuel (GenerateVideoArgs.prompt args)
              (videoToolOptions args) (world m)) as [[bs | e |] w1];
    cbn [snd]; try reflexivity.
  destruct (saveLoop_outcome host (lit "video_") (lit "mp4") bs 0 [] []
              (withWorld m w1))
    as (names & m2 & _ & Ht & _ & [[E _] | (e & E & _)]);
    rewrite E; cbn [snd]; exact Ht.
Qed.

(** X27 -- for arguments that the input schema of [generate-image]
    admits, the prompt alone decides whether the provider is called: a
    prompt that is empty or white space, or longer than 4000 characters,
    is answered with a failure that quotes the message of the service and
    leaves everything as it was (no request, no file, no random number
    drawn); any other prompt makes the handler send the request, trimmed,
    as the first thing it does. *)
Theorem generateImageTool_prompt_gate (args : GenerateImageArgs.t)
  (m : Machine) :
  imageInputSchema args ->
  (promptMissing (GenerateImageArgs.prompt args) = true ->
   generateImageTool rt host args m
   = (Returned
        (failureResult host "Failed to generate image: "
           (Error "Prompt is required and must be a non-empty string")), m))
  /\ (promptMissing (GenerateImageArgs.prompt args) = false ->
      (4000 < List.length (GenerateImageArgs.prompt args))%nat ->
      generateImageTool rt host args m
      = (Returned
           (failureResult host "Failed to generate image: "
              (Error "Prompt must be less than 4000 characters")), m))
  /\ (promptMissing (GenerateImageArgs.prompt args) = false ->
      (List.length (GenerateImageArgs.prompt args) <= 4000)%nat ->
      exists new,
        trace (world (snd (generateImageTool rt host args m)))
        = trace (world m)
          ++ CallGenerateImages (now (world m)) (CONFIG_models_image rt)
               (trim (GenerateImageArgs.prompt args))
               (genImConfig (imageToolOptions args)) :: new).
Proof.
  intros Hschema. split; [| split].
  - intros Hp. rewrite generateImageTool_eq.
    rewrite (generateImage_prompt_missing rt _ _ _ Hp).
    now rewrite withWorld_same.
  - intros Hp Hlen. rewrite generateImageTool_eq.
    rewrite (generateImage_prompt_too_long rt _ _ _ Hp Hlen).
    now rewrite withWorld_same.
  - intros Hp Hlen. rewrite generateImageTool_trace.
    apply generateImage_accepted_calls.
    split; [exact Hp |]. split; [exact Hlen |].
    apply validateImageOptions_accepts.
    now apply imageInputSchema_rules.
Qed.

(** X28 -- the same at the door of [generate-video], with its limit of
    1000 characters: for arguments that the input schema admits, a prompt
    that is empty or white space, or longer than 1000 characters, is
    answered with a failure that quotes the message of the service and
    leaves everything as it was; any other prompt makes the handler submit
    the job, with the prompt trimmed, as the first thing it does. *)
Theorem generateVideoTool_prompt_gate (fuel : nat)
  (args : GenerateVideoArgs.t) (m : Machine) :
  videoInputSchema args ->
  (promptMissing (GenerateVideoArgs.prompt args) = true ->
   generateVideoTool rt host fuel args m
   = (Returned
        (failureResult host "Failed to generate video: "
           (Error "Prompt is required and must be a non-empty string")), m))
  /\ (promptMissing (GenerateVideoArgs.prompt args) = false ->
      (1000 < List.length (GenerateVideoArgs.prompt args))%nat ->
      generateVideoTool rt host fuel args m
      = (Returned
           (failureResult host "Failed to generate video: "
              (Error
                 "Prompt must be less than 1000 characters for video generation")),
         m))
  /\ (promptMissing (GenerateVideoArgs.prompt args) = false ->
      (List.length (GenerateVideoArgs.prompt args) <= 1000)%nat ->
      exists new,
        trace (world (snd (generateVideoTool rt host fuel args m)))
        = trace (world m)
          ++ CallGenerateVideos (now (world m)) (CONFIG_models_video rt)
               (trim (GenerateVideoArgs.prompt args))
               (genVidConfig (videoToolOptions args)) :: new).
Proof.
  intros Hschema. split; [| split].
  - intros Hp. rewrite generateVideoTool_eq.
    rewrite (generateVideo_prompt_missing rt _ _ _ _ Hp).
    now rewrite withWorld_same.
  - intros Hp Hlen. rewrite generateVideoTool_eq.
    rewrite (generateVideo_prompt_too_long rt _ _ _ _ Hp Hlen).
    now rewrite withWorld_same.
  - intros Hp Hlen. rewrite generateVideoTool_trace.
    apply generateVideo_accepted_calls.
    split; [exact Hp |]. split; [exact Hlen |].
    apply validateVideoOptions_accepts.
    now apply videoInputSchema_rules.
Qed.

End PromptGate.

Lemma generateImageTool_prompt_gate_witness :
  generateImageTool rt_twoImages (sampleHost 99)
    (imageArgs_promptOnly blankPrompt) (start 0)
  = (Returned
       (failureResult (sampleHost 99) "Failed to generate image: "
          (Error "Prompt is required and must be a non-empty string")),
     start 0).
Proof.
  apply (proj1 (generateImageTool_prompt_gate rt_twoImages (sampleHost 99)
                  (imageArgs_promptOnly blankPrompt) (start 0)
                  (imageArgs_promptOnly_admitted blankPrompt))).
  reflexivity.
Defined.

Lemma generateVideoTool_prompt_gate_witness :
  generateVideoTool rt_twoVideos (sampleHost 99) 41
    (videoArgs_promptOnly blankPrompt) (start 0)
  = (Returned
       (failureResult (sampleHost 99) "Failed to generate video: "
          (Error "Prompt is required and must be a non-empty string")),
     start 0).
Proof.
  apply (proj1 (generateVideoTool_prompt_gate rt_twoVideos (sampleHost 99) 41
                  (videoArgs_promptOnly blankPrompt) (start 0)
                  (videoArgs_promptOnly_admitted blankPrompt))).
  reflexivity.
Defined.

Lemma getAvailableModels_names_witness :
  exists names m',
    getAvailableModels (sampleHost 99) (start 0) = (Returned names, m')
    /\ ~ In [] names
    /\ (forall s,
          In s names <->
          s <> []
          /\ exists model,
               In model
                 [ {| model_name := Some (lit "models/imagen-4.0") |};
                   {| model_name := None |};
                   {| model_name := Some [] |};
                   {| model_name := Some (lit "models/veo-3.0") |} ]
               /\ model_name model = Some s)
    /\ (List.length names <= 4)%nat.
Proof.
  apply (proj1 (getAvailableModels_names (sampleHost 99) (start 0))).
  reflexivity.
Defined.
